(** * flow-backend: the real-time project chat of [index.js]

    A shallow embedding of the Socket.io chat handlers of [index.js], of the
    chat controllers ([isProjectMember], [getChatHistory], ...) and of the
    [ChatMessages] / [ProjectMembers] tables of [database/initDb.js].

    Conventions of the embedding:
    - identifiers (project, user, message, socket, timer) are integers, as the
      schema declares the columns ([INTEGER]);
    - a JavaScript string is the list of its UTF-16 code units;
    - [Date.now()] is the integer [now] (milliseconds) an event carries;
    - a handler runs to completion before the next event is handled; the
      outcome of every database call (success or error) is an input of the
      handler, see [faults]. *)

From stdpp Require Import base gmap list strings sorting.

Open Scope Z_scope.

(** ** JavaScript strings and values *)

Module Js.

(** A string is a sequence of UTF-16 code units. *)
Definition jsstring : Type := list N.

Definition of_string (s : string) : jsstring :=
  map Ascii.N_of_ascii (String.list_ascii_of_string s).

(** [WhiteSpace] and [LineTerminator] of ECMAScript, the code units that
    [String.prototype.trim] strips. *)
Definition isWhiteSpace (c : N) : bool :=
  ((c =? 0x0009) || (c =? 0x000A) || (c =? 0x000B) || (c =? 0x000C)
   || (c =? 0x000D) || (c =? 0x0020) || (c =? 0x00A0) || (c =? 0x1680)
   || ((0x2000 <=? c) && (c <=? 0x200A))
   || (c =? 0x2028) || (c =? 0x2029) || (c =? 0x202F) || (c =? 0x205F)
   || (c =? 0x3000) || (c =? 0xFEFF))%N.

Fixpoint trimStart (s : jsstring) : jsstring :=
  match s with
  | [] => []
  | c :: s' => if isWhiteSpace c then trimStart s' else s
  end.

Definition trimEnd (s : jsstring) : jsstring :=
  reverse (trimStart (reverse s)).

Definition trim (s : jsstring) : jsstring := trimEnd (trimStart s).

(** The fragment of JavaScript values a payload field can hold. *)
Inductive value : Type :=
| Undefined
| Null
| Number (n : Z)
| Str (s : jsstring).

(** [ToBoolean]. *)
Definition truthy (v : value) : bool :=
  match v with
  | Undefined | Null => false
  | Number n => negb (n =? 0)
  | Str s => negb (bool_decide (s = []))
  end.

(** Truthiness of an optional integer field ([undefined] and [0] are falsy). *)
Definition truthyId (o : option Z) : bool :=
  match o with
  | Some n => negb (n =? 0)
  | None => false
  end.

(** [x || null] on an optional integer field. *)
Definition orNull (o : option Z) : option Z :=
  if truthyId o then o else None.

End Js.

Export Js.

(** ** Rate limiter ([index.js], the head of the [send-message] handler) *)

Record RateData : Type := mkRateData { count : Z; timestamp : Z }.

Definition RATE_LIMIT_WINDOW : Z := 10000.
Definition MAX_MESSAGES_PER_WINDOW : Z := 5.

Inductive admission : Type := Allowed | Rejected.

(** The rate-limiting block: [userMessageRateLimit] is the map, the result is
    the verdict and the map after the block. [userRateData.count++] mutates
    the object held by the map, which is the update of the entry. *)
Definition rateLimit (userMessageRateLimit : gmap Z RateData)
    (senderId now : Z) : admission * gmap Z RateData :=
  match userMessageRateLimit !! senderId with
  | Some userRateData =>
      if now - timestamp userRateData <? RATE_LIMIT_WINDOW then
        if count userRateData >=? MAX_MESSAGES_PER_WINDOW then
          (Rejected, userMessageRateLimit)
        else
          (Allowed,
           <[senderId := mkRateData (count userRateData + 1)
                                    (timestamp userRateData)]>
             userMessageRateLimit)
      else
        (Allowed, <[senderId := mkRateData 1 now]> userMessageRateLimit)
  | None =>
      (Allowed, <[senderId := mkRateData 1 now]> userMessageRateLimit)
  end.

(** Successive sends of one sender at the given times. *)
Fixpoint rateLimitAll (m : gmap Z RateData) (senderId : Z) (times : list Z)
    : list admission * gmap Z RateData :=
  match times with
  | [] => ([], m)
  | now :: times' =>
      let '(a, m') := rateLimit m senderId now in
      let '(l, m'') := rateLimitAll m' senderId times' in
      (a :: l, m'')
  end.

(** ** The store ([database/initDb.js]) *)

(** [messageStatus TEXT CHECK(messageStatus IN ('sent','delivered','read'))]. *)
Inductive messageStatus : Type := sent | delivered | read.

(** A row of [ChatMessages]. [CURRENT_TIMESTAMP] values are seconds. *)
Record ChatMessage : Type := mkChatMessage {
  cm_id : Z;
  cm_projectId : Z;
  cm_senderId : Z;
  cm_senderName : jsstring;
  cm_messageContent : jsstring;
  cm_replyToMessageId : option Z;
  cm_replyToUserId : option Z;
  cm_replyToUserName : option jsstring;
  cm_replyToMessageContent : option jsstring;
  cm_messageStatus : messageStatus;
  cm_isDeleted : Z;
  cm_editedAt : option Z;
  cm_createdAt : Z;
  cm_updatedAt : Z
}.

(** A row of [ProjectMembers] and a row of [Projects] (the columns the chat
    reads). *)
Record ProjectMember : Type := mkProjectMember {
  pm_id : Z;
  pm_projectId : Z;
  pm_userId : Z;
  pm_invitationStatus : string
}.

Record Project : Type := mkProject {
  p_id : Z;
  p_authorId : Z
}.

(** The database: the three tables, rows in rowid order, and the
    [sqlite_sequence] counter of the [AUTOINCREMENT] key of [ChatMessages]. *)
Record Db : Type := mkDb {
  ChatMessages : list ChatMessage;
  ChatMessages_seq : Z;
  ProjectMembers : list ProjectMember;
  Projects : list Project
}.

Definition emptyDb : Db := mkDb [] 0 [] [].

(** [CURRENT_TIMESTAMP] at the instant [now] (milliseconds). *)
Definition CURRENT_TIMESTAMP (now : Z) : Z := now `div` 1000.

(** The outcome of the database calls of one handler run: [true] when the call
    reports an error. [member_err]: the query of [isProjectMember];
    [read_err]: the SELECT issued before the write (or the COUNT of
    [getChatHistory]); [write_err]: the INSERT or UPDATE; [fetch_err]: the
    SELECT after the write (or the page query of [getChatHistory]). *)
Record faults : Type := mkFaults {
  member_err : bool;
  read_err : bool;
  write_err : bool;
  fetch_err : bool
}.

Definition no_faults : faults := mkFaults false false false false.

(** [isProjectMember]: the first row of
    [ProjectMembers pm JOIN Projects p ON p.id = pm.projectId
     WHERE pm.projectId = ? AND pm.userId = ?
       AND pm.invitationStatus = 'approved'],
    with the selected [p.authorId]. *)
Definition isProjectMember (db : Db) (projectId userId : Z)
    : option (ProjectMember * Z) :=
  head (pm ← ProjectMembers db;
        p ← Projects db;
        if decide (p_id p = pm_projectId pm
                   ∧ pm_projectId pm = projectId
                   ∧ pm_userId pm = userId
                   ∧ pm_invitationStatus pm = "approved"%string)
        then [(pm, p_authorId p)] else []).

(** [SELECT * FROM ChatMessages WHERE id = ? AND isDeleted = 0]. *)
Definition selectLive (db : Db) (messageId : Z) : option ChatMessage :=
  head (filter (λ m, cm_id m = messageId ∧ cm_isDeleted m = 0)
               (ChatMessages db)).

(** [SELECT * FROM ChatMessages WHERE id = ?]. *)
Definition selectById (db : Db) (messageId : Z) : option ChatMessage :=
  head (filter (λ m, cm_id m = messageId) (ChatMessages db)).

(** The key [AUTOINCREMENT] gives the next row: one more than the largest
    key the table has ever held. *)
Definition lastID (db : Db) : Z :=
  1 + foldr Z.max (ChatMessages_seq db) (cm_id <$> ChatMessages db).

Definition withMessages (db : Db) (rows : list ChatMessage) (seq : Z) : Db :=
  mkDb rows seq (ProjectMembers db) (Projects db).

(** [INSERT INTO ChatMessages (projectId, senderId, senderName,
    messageContent, replyToMessageId, replyToUserId, replyToUserName,
    replyToMessageContent) VALUES (...)]; the other columns take their
    defaults. *)
Definition insertMessage (db : Db) (now : Z)
    (projectId senderId : Z) (senderName messageContent : jsstring)
    (replyToMessageId replyToUserId : option Z)
    (replyToUserName replyToMessageContent : option jsstring) : Db :=
  let row :=
    mkChatMessage (lastID db) projectId senderId senderName messageContent
      replyToMessageId replyToUserId replyToUserName replyToMessageContent
      sent 0 None (CURRENT_TIMESTAMP now) (CURRENT_TIMESTAMP now) in
  withMessages db (ChatMessages db ++ [row]) (lastID db).

Definition setContent (messageContent : jsstring) (ts : Z) (m : ChatMessage)
    : ChatMessage :=
  mkChatMessage (cm_id m) (cm_projectId m) (cm_senderId m) (cm_senderName m)
    messageContent (cm_replyToMessageId m) (cm_replyToUserId m)
    (cm_replyToUserName m) (cm_replyToMessageContent m) (cm_messageStatus m)
    (cm_isDeleted m) (Some ts) (cm_createdAt m) ts.

Definition setDeleted (ts : Z) (m : ChatMessage) : ChatMessage :=
  mkChatMessage (cm_id m) (cm_projectId m) (cm_senderId m) (cm_senderName m)
    (cm_messageContent m) (cm_replyToMessageId m) (cm_replyToUserId m)
    (cm_replyToUserName m) (cm_replyToMessageContent m) (cm_messageStatus m)
    1 (cm_editedAt m) (cm_createdAt m) ts.

Definition setStatus (st : messageStatus) (ts : Z) (m : ChatMessage)
    : ChatMessage :=
  mkChatMessage (cm_id m) (cm_projectId m) (cm_senderId m) (cm_senderName m)
    (cm_messageContent m) (cm_replyToMessageId m) (cm_replyToUserId m)
    (cm_replyToUserName m) (cm_replyToMessageContent m) st
    (cm_isDeleted m) (cm_editedAt m) (cm_createdAt m) ts.

(** [UPDATE ChatMessages SET ... WHERE id = ?] with the assignment [f]. *)
Definition updateWhereId (db : Db) (messageId : Z)
    (f : ChatMessage → ChatMessage) : Db :=
  withMessages db
    ((λ m, if decide (cm_id m = messageId) then f m else m)
       <$> ChatMessages db)
    (ChatMessages_seq db).

(** [SET messageContent = ?, editedAt = CURRENT_TIMESTAMP,
    updatedAt = CURRENT_TIMESTAMP]. *)
Definition updateContent (db : Db) (now messageId : Z)
    (messageContent : jsstring) : Db :=
  updateWhereId db messageId
    (setContent messageContent (CURRENT_TIMESTAMP now)).

(** [SET isDeleted = 1, updatedAt = CURRENT_TIMESTAMP]. *)
Definition softDelete (db : Db) (now messageId : Z) : Db :=
  updateWhereId db messageId (setDeleted (CURRENT_TIMESTAMP now)).

(** [SET messageStatus = ?, updatedAt = CURRENT_TIMESTAMP]. *)
Definition updateStatus (db : Db) (now messageId : Z) (st : messageStatus)
    : Db :=
  updateWhereId db messageId (setStatus st (CURRENT_TIMESTAMP now)).

(** [LIMIT ? OFFSET ?] of SQLite: a negative limit is no limit, a negative
    offset is no offset. *)
Definition limitOffset {A} (limit offset : Z) (rows : list A) : list A :=
  let rest := drop (Z.to_nat offset) rows in
  if limit <? 0 then rest else take (Z.to_nat limit) rest.

(** The order of [ORDER BY createdAt ASC]. *)
Definition createdAt_le (a b : ChatMessage) : Prop :=
  cm_createdAt a ≤ cm_createdAt b.

#[global] Instance createdAt_le_dec : RelDecision createdAt_le.
Proof. intros a b. unfold createdAt_le. apply _. Defined.

(** [SELECT * FROM ChatMessages WHERE projectId = ? AND isDeleted = 0
    ORDER BY createdAt ASC LIMIT ? OFFSET ?]. *)
Definition listPage (db : Db) (projectId limit offset : Z)
    : list ChatMessage :=
  limitOffset limit offset
    (merge_sort createdAt_le
       (filter (λ m, cm_projectId m = projectId ∧ cm_isDeleted m = 0)
          (ChatMessages db))).

(** [SELECT COUNT( * ) FROM ChatMessages
    WHERE projectId = ? AND isDeleted = 0]. *)
Definition countLive (db : Db) (projectId : Z) : Z :=
  Z.of_nat
    (length (filter (λ m, cm_projectId m = projectId ∧ cm_isDeleted m = 0)
               (ChatMessages db))).

(** ** Server state *)

(** A pending [setTimeout]: the instant it is due and the arguments of its
    callback, [clearTypingIndicator(projectId, userId)]. *)
Record Timeout : Type := mkTimeout {
  due : Z;
  cb_projectId : Z;
  cb_userId : Z
}.

(** What [socket.join] and the handlers stamp on a connection. *)
Record Socket : Type := mkSocket {
  rooms : gset Z;
  sk_projectId : option Z;
  sk_userId : option Z;
  sk_userName : option jsstring
}.

(** The process-wide maps of [index.js], the timers [setTimeout] has handed
    out that have neither fired nor been cleared ([pending], with the id
    [nextTimer] of the next one), the database and the open connections. *)
Record State : Type := mkState {
  userMessageRateLimit : gmap Z RateData;
  typingUsers : gmap Z (gmap Z Z);
  pending : gmap Z Timeout;
  nextTimer : Z;
  db : Db;
  sockets : gmap Z Socket
}.

Definition initial : State := mkState ∅ ∅ ∅ 0 emptyDb ∅.

Definition withRateLimit (s : State) (rl : gmap Z RateData) : State :=
  mkState rl (typingUsers s) (pending s) (nextTimer s) (db s) (sockets s).

Definition withTyping (s : State) (tu : gmap Z (gmap Z Z))
    (p : gmap Z Timeout) (n : Z) : State :=
  mkState (userMessageRateLimit s) tu p n (db s) (sockets s).

Definition withDb (s : State) (d : Db) : State :=
  mkState (userMessageRateLimit s) (typingUsers s) (pending s) (nextTimer s)
    d (sockets s).

Definition withSockets (s : State) (sk : gmap Z Socket) : State :=
  mkState (userMessageRateLimit s) (typingUsers s) (pending s) (nextTimer s)
    (db s) sk.

(** ** Emitted events *)

Inductive payload : Type :=
| error (message : string)
| user_joined (userId : Z) (userName : jsstring) (timestamp : Z)
| new_message (message : option ChatMessage)
| user_typing (userId : Z) (userName : jsstring)
| user_stopped_typing (userId : Z)
| message_edited (updatedMessage : option ChatMessage)
| message_deleted (messageId : Z)
| user_left (userId : option Z) (userName : option jsstring) (timestamp : Z).

(** The three ways the handlers address an event; the room [project-<id>]
    is named by the project id. *)
Inductive target : Type :=
| socket_emit (sid : Z)
| io_to (room : Z)
| socket_to (sid : Z) (room : Z).

Definition emit : Type := target * payload.

(** The connections in a room. *)
Definition inRoom (sk : gmap Z Socket) (room : Z) : gset Z :=
  dom (filter (λ kv, room ∈ rooms kv.2) sk).

(** The connections an emit is delivered to. *)
Definition recipients (sk : gmap Z Socket) (t : target) : gset Z :=
  match t with
  | socket_emit sid => {[sid]}
  | io_to room => inRoom sk room
  | socket_to sid room => inRoom sk room ∖ {[sid]}
  end.

(** The states of the session protocol. *)
Inductive connState : Type := Connected | InRoom | Disconnected.

Definition connStateOf (s : State) (sid : Z) : connState :=
  match sockets s !! sid with
  | None => Disconnected
  | Some sock => if decide (rooms sock = ∅) then Connected else InRoom
  end.

(** ** Typing presence ([clearTypingIndicator] and the timers) *)

(** [clearTimeout]. *)
Definition clearTimeout (timeout : Z) (p : gmap Z Timeout) : gmap Z Timeout :=
  delete timeout p.

(** [clearTypingIndicator]: when the user has an entry in the project, its
    timer is cancelled, the entry is deleted, the room is told, and the
    project's map is dropped once empty. *)
Definition clearTypingIndicator (projectId userId : Z) (s : State)
    : State * list emit :=
  match typingUsers s !! projectId with
  | Some projectTyping =>
      match projectTyping !! userId with
      | Some timeout =>
          let projectTyping' := delete userId projectTyping in
          (withTyping s
             (if decide (size projectTyping' = 0%nat)
              then delete projectId (typingUsers s)
              else <[projectId := projectTyping']> (typingUsers s))
             (clearTimeout timeout (pending s))
             (nextTimer s),
           [(io_to projectId, user_stopped_typing userId)])
      | None => (s, [])
      end
  | None => (s, [])
  end.

(** The [typing] handler. *)
Definition on_typing (now sid projectId userId : Z) (userName : jsstring)
    (s : State) : State * list emit :=
  let '(s1, out) := clearTypingIndicator projectId userId s in
  let tu :=
    match typingUsers s1 !! projectId with
    | Some _ => typingUsers s1
    | None => <[projectId := ∅]> (typingUsers s1)
    end in
  let timeout := nextTimer s1 in
  (withTyping s1
     (<[projectId := <[userId := timeout]> (default ∅ (tu !! projectId))]> tu)
     (<[timeout := mkTimeout (now + 3000) projectId userId]> (pending s1))
     (nextTimer s1 + 1),
   out ++ [(socket_to sid projectId, user_typing userId userName)]).

(** The [stop-typing] handler. *)
Definition on_stop_typing (projectId userId : Z) (s : State)
    : State * list emit :=
  clearTypingIndicator projectId userId s.

(** A timer that is due fires: it leaves the pending timers and its callback
    runs. *)
Definition on_timer (now timeout : Z) (s : State) : State * list emit :=
  match pending s !! timeout with
  | Some t =>
      if due t <=? now then
        clearTypingIndicator (cb_projectId t) (cb_userId t)
          (withTyping s (typingUsers s) (delete timeout (pending s))
             (nextTimer s))
      else (s, [])
  | None => (s, [])
  end.

(** ** The socket handlers of [index.js] *)

Definition unicast (sid : Z) (message : string) : list emit :=
  [(socket_emit sid, error message)].

(** A new connection: no room, nothing stamped. *)
Definition on_connection (sid : Z) (s : State) : State * list emit :=
  match sockets s !! sid with
  | Some _ => (s, [])
  | None =>
      (withSockets s (<[sid := mkSocket ∅ None None None]> (sockets s)), [])
  end.

(** [socket.join] and the three assignments of the join handler. *)
Definition joined (projectId userId : Z) (userName : jsstring) (sock : Socket)
    : Socket :=
  mkSocket ({[projectId]} ∪ rooms sock) (Some projectId) (Some userId)
    (Some userName).

(** The [join-project-chat] handler. *)
Definition on_join_project_chat (f : faults) (now sid projectId userId : Z)
    (userName : jsstring) (s : State) : State * list emit :=
  if member_err f then (s, unicast sid "Failed to join chat")
  else
    match isProjectMember (db s) projectId userId with
    | None => (s, unicast sid "You must be a project member to join chat")
    | Some _ =>
        (withSockets s
           (alter (joined projectId userId userName) sid (sockets s)),
         [(socket_to sid projectId, user_joined userId userName now)])
    end.

(** The check [!messageContent || !messageContent.trim()]: the content is
    blank, or it is a truthy value without a [trim] method (the call throws
    and the handler's [catch] runs), or it is a string to store. *)
Inductive validation : Type :=
| Blank
| NotAString
| Content (s : jsstring).

Definition validate (messageContent : value) : validation :=
  if truthy messageContent then
    match messageContent with
    | Str s => if decide (trim s = []) then Blank else Content s
    | _ => NotAString
    end
  else Blank.

(** The reply snapshot: [replyToUserName] and [replyToMessageContent] after
    the lookup of the replied-to message. *)
Definition replySnapshot (d : Db) (replyToMessageId : option Z)
    : option jsstring * option jsstring :=
  if truthyId replyToMessageId then
    match selectLive d (default 0 replyToMessageId) with
    | Some replyToMessage =>
        (Some (cm_senderName replyToMessage),
         Some (cm_messageContent replyToMessage))
    | None => (None, None)
    end
  else (None, None).

(** The [send-message] handler. *)
Definition on_send_message (f : faults) (now sid projectId senderId : Z)
    (senderName : jsstring) (messageContent : value)
    (replyToMessageId replyToUserId : option Z) (s : State)
    : State * list emit :=
  let '(verdict, rl) := rateLimit (userMessageRateLimit s) senderId now in
  let s1 := withRateLimit s rl in
  match verdict with
  | Rejected =>
      (s1, unicast sid
             "You are sending messages too quickly. Please wait a moment.")
  | Allowed =>
      match validate messageContent with
      | Blank => (s1, unicast sid "Message cannot be empty")
      | NotAString => (s1, unicast sid "Failed to send message")
      | Content content =>
          if member_err f then (s1, unicast sid "Failed to send message")
          else
            match isProjectMember (db s1) projectId senderId with
            | None =>
                (s1, unicast sid
                       "You must be a project member to send messages")
            | Some _ =>
                if truthyId replyToMessageId && read_err f then
                  (s1, unicast sid "Failed to send message")
                else
                  let '(replyToUserName, replyToMessageContent) :=
                    replySnapshot (db s1) replyToMessageId in
                  if write_err f then
                    (s1, unicast sid "Failed to send message")
                  else
                    let d := insertMessage (db s1) now projectId senderId
                               senderName content (orNull replyToMessageId)
                               (orNull replyToUserId) replyToUserName
                               replyToMessageContent in
                    let s2 := withDb s1 d in
                    if fetch_err f then (s2, [])
                    else
                      let message := selectById d (lastID (db s1)) in
                      let '(s3, out) :=
                        clearTypingIndicator projectId senderId s2 in
                      (s3, (io_to projectId, new_message message) :: out)
            end
      end
  end.

(** The [edit-message] handler. [message.senderId != userId] compares two
    integers. *)
Definition on_edit_message (f : faults) (now sid messageId userId : Z)
    (messageContent : value) (s : State) : State * list emit :=
  match validate messageContent with
  | Blank => (s, unicast sid "Message cannot be empty")
  | NotAString => (s, unicast sid "Failed to edit message")
  | Content content =>
      if read_err f then (s, unicast sid "Failed to edit message")
      else
        match selectLive (db s) messageId with
        | None => (s, unicast sid "Message not found")
        | Some message =>
            if decide (cm_senderId message ≠ userId) then
              (s, unicast sid "You can only edit your own messages")
            else if write_err f then
              (s, unicast sid "Failed to edit message")
            else
              let d := updateContent (db s) now messageId content in
              let s1 := withDb s d in
              if fetch_err f then (s1, [])
              else
                (s1, [(io_to (cm_projectId message),
                       message_edited (selectById d messageId))])
        end
  end.

(** The [delete-message] handler. *)
Definition on_delete_message (f : faults) (now sid messageId userId : Z)
    (s : State) : State * list emit :=
  if read_err f then (s, unicast sid "Failed to delete message")
  else
    match selectLive (db s) messageId with
    | None => (s, unicast sid "Message not found")
    | Some message =>
        if decide (cm_senderId message ≠ userId) then
          (s, unicast sid "You can only delete your own messages")
        else if write_err f then
          (s, unicast sid "Failed to delete message")
        else
          (withDb s (softDelete (db s) now messageId),
           [(io_to (cm_projectId message), message_deleted messageId)])
    end.

(** The [disconnect] handler; the connection has left its rooms. *)
Definition on_disconnect (now sid : Z) (s : State) : State * list emit :=
  match sockets s !! sid with
  | None => (s, [])
  | Some sock =>
      let s0 := withSockets s (delete sid (sockets s)) in
      if truthyId (sk_projectId sock) && truthyId (sk_userId sock) then
        let projectId := default 0 (sk_projectId sock) in
        let '(s1, out) :=
          clearTypingIndicator projectId (default 0 (sk_userId sock)) s0 in
        (s1, out ++ [(socket_to sid projectId,
                      user_left (sk_userId sock) (sk_userName sock) now)])
      else (s0, [])
  end.

(** ** The HTTP side ([chatControllers]) *)

Inductive httpBody : Type :=
| failure (message : string)
| historyPage (messages : list ChatMessage) (page limit total : Z)
    (totalPages : option Z).

(** [Math.ceil(total / limit)] as JSON shows it: [null] when [limit] is 0. *)
Definition totalPages (total limit : Z) : option Z :=
  if limit =? 0 then None else Some (- ((- total) `div` limit)).

(** [getChatHistory]: [userId], [page] and [limit] come from the query string
    and may be missing. The result is the status code and the body. *)
Definition getChatHistory (f : faults) (d : Db) (projectId : Z)
    (userId page limit : option Z) : Z * httpBody :=
  let page := default 1 page in
  let limit := default 50 limit in
  match userId with
  | None => (400, failure "User ID is required")
  | Some userId =>
      if member_err f then (500, failure "Internal server error")
      else
        match isProjectMember d projectId userId with
        | None => (403, failure "You must be a project member to view chat")
        | Some _ =>
            let offset := (page - 1) * limit in
            if read_err f then (500, failure "Failed to count messages")
            else
              let total := countLive d projectId in
              if fetch_err f then (500, failure "Failed to fetch messages")
              else
                (200, historyPage (listPage d projectId limit offset)
                        page limit total (totalPages total limit))
        end
  end.

(** The statements the HTTP controllers issue on the tables the chat reads
    ([sendMessage], [editMessage], [deleteMessage], [updateMessageStatus],
    and the project controllers on the membership tables). Their guards are
    left out: any of them may run between two socket events. *)
Inductive statement : Type :=
| InsertMessage (projectId senderId : Z) (senderName messageContent : jsstring)
    (replyToMessageId replyToUserId : option Z)
    (replyToUserName replyToMessageContent : option jsstring)
| UpdateContent (messageId : Z) (messageContent : jsstring)
| SoftDelete (messageId : Z)
| UpdateStatus (messageId : Z) (st : messageStatus)
| SetMembership (members : list ProjectMember) (projects : list Project).

Definition execute (now : Z) (st : statement) (d : Db) : Db :=
  match st with
  | InsertMessage projectId senderId senderName messageContent
      replyToMessageId replyToUserId replyToUserName replyToMessageContent =>
      insertMessage d now projectId senderId senderName messageContent
        replyToMessageId replyToUserId replyToUserName replyToMessageContent
  | UpdateContent messageId messageContent =>
      updateContent d now messageId messageContent
  | SoftDelete messageId => softDelete d now messageId
  | UpdateStatus messageId st => updateStatus d now messageId st
  | SetMembership members projects =>
      mkDb (ChatMessages d) (ChatMessages_seq d) members projects
  end.

(** ** The event loop *)

Inductive event : Type :=
| connection (sid : Z)
| join_project_chat (sid projectId userId : Z) (userName : jsstring)
| send_message (sid projectId senderId : Z) (senderName : jsstring)
    (messageContent : value) (replyToMessageId replyToUserId : option Z)
| typing (sid projectId userId : Z) (userName : jsstring)
| stop_typing (sid projectId userId : Z)
| edit_message (sid messageId userId : Z) (messageContent : value)
| delete_message (sid messageId userId : Z)
| disconnect (sid : Z)
| timer (timeout : Z)
| http (st : statement).

(** The connection an event arrives on. *)
Definition origin (e : event) : option Z :=
  match e with
  | join_project_chat sid _ _ _ | send_message sid _ _ _ _ _ _
  | typing sid _ _ _ | stop_typing sid _ _ | edit_message sid _ _ _
  | delete_message sid _ _ | disconnect sid => Some sid
  | connection _ | timer _ | http _ => None
  end.

Definition handle (f : faults) (now : Z) (e : event) (s : State)
    : State * list emit :=
  match e with
  | connection sid => on_connection sid s
  | join_project_chat sid projectId userId userName =>
      on_join_project_chat f now sid projectId userId userName s
  | send_message sid projectId senderId senderName messageContent
      replyToMessageId replyToUserId =>
      on_send_message f now sid projectId senderId senderName messageContent
        replyToMessageId replyToUserId s
  | typing sid projectId userId userName =>
      on_typing now sid projectId userId userName s
  | stop_typing sid projectId userId => on_stop_typing projectId userId s
  | edit_message sid messageId userId messageContent =>
      on_edit_message f now sid messageId userId messageContent s
  | delete_message sid messageId userId =>
      on_delete_message f now sid messageId userId s
  | disconnect sid => on_disconnect now sid s
  | timer timeout => on_timer now timeout s
  | http st => (withDb s (execute now st (db s)), [])
  end.

(** One turn of the event loop: the handlers of a connection exist while it
    is open. *)
Definition step (s : State) (i : faults * Z * event) : State * list emit :=
  let '(f, now, e) := i in
  match origin e with
  | Some sid =>
      match sockets s !! sid with
      | Some _ => handle f now e s
      | None => (s, [])
      end
  | None => handle f now e s
  end.

Fixpoint run (s : State) (inputs : list (faults * Z * event))
    : State * list emit :=
  match inputs with
  | [] => (s, [])
  | i :: inputs' =>
      let '(s1, out1) := step s i in
      let '(s2, out2) := run s1 inputs' in
      (s2, out1 ++ out2)
  end.

Definition reachable (s : State) : Prop :=
  ∃ inputs, (run initial inputs).1 = s.

(** ** Vocabulary of the properties *)

(** Content that is missing, empty or made of white space only. *)
Definition blankContent (v : value) : Prop :=
  v = Undefined ∨ v = Null
  ∨ ∃ s, v = Str s ∧ Forall (λ c, isWhiteSpace c = true) s.

(** An approved [ProjectMembers] row for the pair. *)
Definition approvedRow (d : Db) (projectId userId : Z) : Prop :=
  ∃ pm, pm ∈ ProjectMembers d ∧ pm_projectId pm = projectId
        ∧ pm_userId pm = userId ∧ pm_invitationStatus pm = "approved"%string.

(** The project has a row in [Projects]. *)
Definition projectRow (d : Db) (projectId : Z) : Prop :=
  ∃ p, p ∈ Projects d ∧ p_id p = projectId.

(** The timer of the typing entry of a user in a project, if any. *)
Definition typingTimer (s : State) (projectId userId : Z) : option Z :=
  typingUsers s !! projectId ≫= λ projectTyping, projectTyping !! userId.

(** No typing entry and no pending timer for the pair. *)
Definition notTyping (s : State) (projectId userId : Z) : Prop :=
  typingTimer s projectId userId = None
  ∧ ∀ t tm, pending s !! t = Some tm →
            ¬ (cb_projectId tm = projectId ∧ cb_userId tm = userId).

(** Every pending timer is the one its typing entry holds. *)
Definition timers_point (s : State) : Prop :=
  ∀ t tm, pending s !! t = Some tm →
          typingTimer s (cb_projectId tm) (cb_userId tm) = Some t.

(** Every typing entry holds a pending timer whose callback clears it. *)
Definition entries_live (s : State) : Prop :=
  ∀ projectId userId t, typingTimer s projectId userId = Some t →
    ∃ tm, pending s !! t = Some tm
          ∧ cb_projectId tm = projectId ∧ cb_userId tm = userId.

(** Timer ids in use are below the next one. *)
Definition timers_fresh (s : State) : Prop :=
  ∀ t, is_Some (pending s !! t) → t < nextTimer s.

Definition presence_wf (s : State) : Prop :=
  timers_point s ∧ entries_live s ∧ timers_fresh s.

(** The message is soft-deleted: a row has the id, and every row that has it
    carries the flag. *)
Definition softDeleted (d : Db) (messageId : Z) : Prop :=
  (∃ m, m ∈ ChatMessages d ∧ cm_id m = messageId)
  ∧ ∀ m, m ∈ ChatMessages d → cm_id m = messageId → cm_isDeleted m ≠ 0.

(** The primary key of [ChatMessages]. *)
Definition keys_unique (d : Db) : Prop :=
  NoDup (cm_id <$> ChatMessages d).

(** The row an accepted send inserts. *)
Definition sentRow (d : Db) (now projectId senderId : Z)
    (senderName content : jsstring) (replyToMessageId replyToUserId : option Z)
    : ChatMessage :=
  mkChatMessage (lastID d) projectId senderId senderName content
    (orNull replyToMessageId) (orNull replyToUserId)
    (replySnapshot d replyToMessageId).1 (replySnapshot d replyToMessageId).2
    sent 0 None (CURRENT_TIMESTAMP now) (CURRENT_TIMESTAMP now).

(** Keys are positive, as [AUTOINCREMENT] hands them out from 1. *)
Definition keys_positive (d : Db) : Prop :=
  0 ≤ ChatMessages_seq d ∧ ∀ m, m ∈ ChatMessages d → 0 < cm_id m.

Definition db_wf (d : Db) : Prop := keys_unique d ∧ keys_positive d.

(** The chat-mutation events of the session protocol. *)
Definition chatMutation (e : event) : bool :=
  match e with
  | send_message _ _ _ _ _ _ _ | edit_message _ _ _ _
  | delete_message _ _ _ | typing _ _ _ _ => true
  | _ => false
  end.

(** ** Scenarios *)

Definition txt (s : string) : value := Str (of_string s).

(** Project 7 with its author, user 7, approved; user 8 has asked to join. *)
Definition project7 : statement :=
  SetMembership
    [mkProjectMember 1 7 7 "approved"; mkProjectMember 2 7 8 "pending"]
    [mkProject 7 7].

(** Connection 1 opens and user 7 sends five messages to project 7 within
    the second. *)
Definition five_sends : list (faults * Z * event) :=
  (no_faults, 0, http project7) :: (no_faults, 0, connection 1)
  :: replicate 5 (no_faults, 1000,
                  send_message 1 7 7 (of_string "A") (txt "hi") None None).

(** Connection 1 opens and joins the chat of project 7 as user 7. *)
Definition member_joined : list (faults * Z * event) :=
  [(no_faults, 0, http project7); (no_faults, 0, connection 1);
   (no_faults, 0, join_project_chat 1 7 7 (of_string "A"))].

(** Connection 1 joins project 7 as user 7 and signals typing once. *)
Definition typing_once : list (faults * Z * event) :=
  member_joined ++ [(no_faults, 1000, typing 1 7 7 (of_string "A"))].

(** Connection 1 is open and has joined nothing. *)
Definition connected_only : list (faults * Z * event) :=
  [(no_faults, 0, http project7); (no_faults, 0, connection 1)].

(** User 7 has joined project 7 and sent one message, which gets id 1. *)
Definition one_message : list (faults * Z * event) :=
  member_joined
  ++ [(no_faults, 1000,
       send_message 1 7 7 (of_string "A") (txt "hi") None None)].

(** ** The HTTP chat controllers ([chatControllers]) *)

(** What a controller answers: the status code, the [message] of the body
    and its [data] (left out of the JSON when undefined); or the controller
    throws outside its [try] block and answers nothing. *)
Inductive outcome : Type :=
| Responded (status : Z) (message : string) (data : option ChatMessage)
| Unhandled.

(** Truthiness of an optional string field. *)
Definition truthyStr (o : option jsstring) : bool :=
  match o with
  | Some (_ :: _) => true
  | _ => false
  end.

(** [sendMessage]: the fields come from the JSON body and may be missing. *)
Definition sendMessage (f : faults) (now : Z) (projectId senderId : option Z)
    (senderName : option jsstring) (messageContent : value)
    (replyToMessageId replyToUserId : option Z) (d : Db) : Db * outcome :=
  if negb (truthyId projectId) || negb (truthyId senderId)
     || negb (truthyStr senderName) || negb (truthy messageContent)
  then
    (d, Responded 400
          "Project ID, sender ID, sender name, and message content are required"
          None)
  else
    match messageContent with
    | Str content =>
        if decide (trim content = []) then
          (d, Responded 400 "Message cannot be empty" None)
        else if member_err f then
          (d, Responded 500 "Internal server error" None)
        else
          match isProjectMember d (default 0 projectId) (default 0 senderId)
          with
          | None =>
              (d, Responded 403
                    "You must be a project member to send messages" None)
          | Some _ =>
              if truthyId replyToMessageId && read_err f then
                (d, Responded 500 "Internal server error" None)
              else
                let '(replyToUserName, replyToMessageContent) :=
                  replySnapshot d replyToMessageId in
                if write_err f then
                  (d, Responded 500 "Failed to send message" None)
                else
                  let d' := insertMessage d now (default 0 projectId)
                              (default 0 senderId) (default [] senderName)
                              content (orNull replyToMessageId)
                              (orNull replyToUserId) replyToUserName
                              replyToMessageContent in
                  if fetch_err f then
                    (d', Responded 500 "Message sent but failed to fetch" None)
                  else
                    (d', Responded 201 "Message sent successfully"
                           (selectById d' (lastID d)))
          end
    | _ => (d, Unhandled)
    end.

(** [editMessage]. *)
Definition editMessage (f : faults) (now messageId : Z) (userId : option Z)
    (messageContent : value) (d : Db) : Db * outcome :=
  if negb (truthyId userId) || negb (truthy messageContent) then
    (d, Responded 400 "User ID and message content are required" None)
  else
    match messageContent with
    | Str content =>
        if decide (trim content = []) then
          (d, Responded 400 "Message cannot be empty" None)
        else if read_err f then
          (d, Responded 500 "Internal server error" None)
        else
          match selectLive d messageId with
          | None => (d, Responded 404 "Message not found" None)
          | Some message =>
              if decide (cm_senderId message ≠ default 0 userId) then
                (d, Responded 403 "You can only edit your own messages" None)
              else if write_err f then
                (d, Responded 500 "Failed to edit message" None)
              else
                let d' := updateContent d now messageId content in
                if fetch_err f then
                  (d', Responded 500 "Message updated but failed to fetch"
                         None)
                else
                  (d', Responded 200 "Message edited successfully"
                         (selectById d' messageId))
          end
    | _ => (d, Unhandled)
    end.

(** [deleteMessage]. *)
Definition deleteMessage (f : faults) (now messageId : Z) (userId : option Z)
    (d : Db) : Db * outcome :=
  if negb (truthyId userId) then
    (d, Responded 400 "User ID is required" None)
  else if read_err f then (d, Responded 500 "Internal server error" None)
  else
    match selectLive d messageId with
    | None => (d, Responded 404 "Message not found" None)
    | Some message =>
        if decide (cm_senderId message ≠ default 0 userId) then
          (d, Responded 403 "You can only delete your own messages" None)
        else if write_err f then
          (d, Responded 500 "Failed to delete message" None)
        else
          (softDelete d now messageId,
           Responded 200 "Message deleted successfully" None)
    end.

(** [!status || !['sent', 'delivered', 'read'].includes(status)] fails
    exactly when the status is one of the three. *)
Definition parseStatus (status : option string) : option messageStatus :=
  match status with
  | Some s =>
      if decide (s = "sent"%string) then Some sent
      else if decide (s = "delivered"%string) then Some delivered
      else if decide (s = "read"%string) then Some read
      else None
  | None => None
  end.

(** [updateMessageStatus]. *)
Definition updateMessageStatus (f : faults) (now messageId : Z)
    (status : option string) (d : Db) : Db * outcome :=
  match parseStatus status with
  | None =>
      (d, Responded 400 "Valid status is required (sent, delivered, read)"
            None)
  | Some st =>
      if write_err f then
        (d, Responded 500 "Failed to update message status" None)
      else
        (updateStatus d now messageId st,
         Responded 200 "Message status updated successfully" None)
  end.

(** ** The membership controllers ([projectControllers]) *)

Definition withMembership (d : Db) (members : list ProjectMember)
    (projects : list Project) : Db :=
  mkDb (ChatMessages d) (ChatMessages_seq d) members projects.

(** [WHERE projectId = ? AND userId = ? AND invitationStatus = 'pending']. *)
Definition pendingRequest (projectId userId : Z) (pm : ProjectMember) : Prop :=
  pm_projectId pm = projectId ∧ pm_userId pm = userId
  ∧ pm_invitationStatus pm = "pending"%string.

#[global] Instance pendingRequest_dec projectId userId pm :
  Decision (pendingRequest projectId userId pm).
Proof. unfold pendingRequest. apply _. Defined.

Definition setApproved (pm : ProjectMember) : ProjectMember :=
  mkProjectMember (pm_id pm) (pm_projectId pm) (pm_userId pm) "approved".

(** [approveRequest]: the UPDATE runs, and [this.changes] decides between
    404 and 200. [projectId] and [userId] are route parameters, hence
    non-empty strings: the guard [!projectId || !userId] never holds and has
    no branch here. *)
Definition approveRequest (f : faults) (projectId userId : Z) (d : Db)
    : Db * outcome :=
  if write_err f then (d, Responded 500 "Error approving request" None)
  else
    let d' :=
      withMembership d
        ((λ pm, if decide (pendingRequest projectId userId pm)
                then setApproved pm else pm) <$> ProjectMembers d)
        (Projects d) in
    if decide (length (filter (pendingRequest projectId userId)
                         (ProjectMembers d)) = 0%nat)
    then (d', Responded 404 "Request not found or already processed" None)
    else (d', Responded 200 "Join request approved successfully" None).

(** [rejectRequest]: the DELETE runs, and [this.changes] decides; the guard
    on the route parameters is as in [approveRequest]. *)
Definition rejectRequest (f : faults) (projectId userId : Z) (d : Db)
    : Db * outcome :=
  if write_err f then (d, Responded 500 "Error rejecting request" None)
  else
    let d' :=
      withMembership d
        (filter (λ pm, ¬ pendingRequest projectId userId pm)
           (ProjectMembers d))
        (Projects d) in
    if decide (length (filter (pendingRequest projectId userId)
                         (ProjectMembers d)) = 0%nat)
    then (d', Responded 404 "Request not found or already processed" None)
    else (d', Responded 200 "Join request rejected" None).

(** [deleteProject]: four database calls in a row (the ownership check, the
    DELETE of the members, of the tasks, of the project); [failAt] is the
    position of the call that reports an error, if any. The [Tasks] table is
    not part of [Db]. The schema's [ON DELETE CASCADE] clauses do nothing:
    the connection never turns [foreign_keys] on, so the DELETE of the
    project removes the row of [Projects] and no other. *)
Definition deleteProject (failAt : option nat) (id : Z) (userId : option Z)
    (d : Db) : Db * outcome :=
  if decide (failAt = Some 0%nat) then
    (d, Responded 500 "Error checking project ownership" None)
  else
    match head (filter (λ p, p_id p = id) (Projects d)) with
    | None => (d, Responded 404 "Project not found" None)
    | Some project =>
        if decide (Some (p_authorId project) ≠ userId) then
          (d, Responded 403 "Only the project owner can delete the project"
                None)
        else if decide (failAt = Some 1%nat) then
          (d, Responded 500 "Error deleting project members" None)
        else
          let d1 :=
            withMembership d
              (filter (λ pm, pm_projectId pm ≠ id) (ProjectMembers d))
              (Projects d) in
          if decide (failAt = Some 2%nat) then
            (d1, Responded 500 "Error deleting project tasks" None)
          else if decide (failAt = Some 3%nat) then
            (d1, Responded 500 "Error deleting project" None)
          else
            (withMembership d1 (ProjectMembers d1)
               (filter (λ p, p_id p ≠ id) (Projects d1)),
             Responded 200
               "Project and all associated data deleted successfully" None)
    end.

(** ** Socket events and HTTP requests together *)

Inductive httpRequest : Type :=
| POST_send (projectId senderId : option Z) (senderName : option jsstring)
    (messageContent : value) (replyToMessageId replyToUserId : option Z)
| PUT_edit (messageId : Z) (userId : option Z) (messageContent : value)
| DELETE_message (messageId : Z) (userId : option Z)
| PUT_status (messageId : Z) (status : option string)
| PUT_approve (projectId userId : Z)
| PUT_reject (projectId userId : Z)
| DELETE_project (failAt : option nat) (id : Z) (userId : option Z).

Definition control (f : faults) (now : Z) (r : httpRequest) (d : Db)
    : Db * outcome :=
  match r with
  | POST_send projectId senderId senderName messageContent replyToMessageId
      replyToUserId =>
      sendMessage f now projectId senderId senderName messageContent
        replyToMessageId replyToUserId d
  | PUT_edit messageId userId messageContent =>
      editMessage f now messageId userId messageContent d
  | DELETE_message messageId userId => deleteMessage f now messageId userId d
  | PUT_status messageId status => updateMessageStatus f now messageId status d
  | PUT_approve projectId userId => approveRequest f projectId userId d
  | PUT_reject projectId userId => rejectRequest f projectId userId d
  | DELETE_project failAt id userId => deleteProject failAt id userId d
  end.

(** What reaches the server: a socket event or a timer ([ws]), or a request
    to one of the controllers above ([web]). The controllers that fill the
    membership tables ([createProject], [joinProject]) are not modelled: a
    [ws] carrying [http (SetMembership _ _)] stands for them; the other
    statements have their controllers and are no requests. *)
Inductive request : Type :=
| ws (f : faults) (now : Z) (e : event)
| web (f : faults) (now : Z) (r : httpRequest).

Definition isRequest (e : event) : bool :=
  match e with
  | http (SetMembership _ _) => true
  | http _ => false
  | _ => true
  end.

Definition serve1 (s : State) (r : request) : State :=
  match r with
  | ws f now e => if isRequest e then (step s (f, now, e)).1 else s
  | web f now r => withDb s (control f now r (db s)).1
  end.

Definition serve (s : State) (rs : list request) : State :=
  foldl serve1 s rs.

Definition served (s : State) : Prop := ∃ rs, serve initial rs = s.

(** Stored content is not blank. *)
Definition contentOk (d : Db) : Prop :=
  ∀ m, m ∈ ChatMessages d → trim (cm_messageContent m) ≠ [].

(** What a row keeps for life: every column but the content, the status, the
    soft-delete flag and the two modification times. *)
Definition identity (m : ChatMessage)
    : Z * Z * Z * jsstring * option Z * option Z * option jsstring
      * option jsstring * Z :=
  (cm_id m, cm_projectId m, cm_senderId m, cm_senderName m,
   cm_replyToMessageId m, cm_replyToUserId m, cm_replyToUserName m,
   cm_replyToMessageContent m, cm_createdAt m).

(** A later version of a row: same identity, and still soft-deleted if it
    was. *)
Definition laterRow (m m' : ChatMessage) : Prop :=
  identity m' = identity m ∧ (cm_isDeleted m ≠ 0 → cm_isDeleted m' ≠ 0).

(** A later version of the table: the rows in place, each a later version,
    followed by the new rows. *)
Definition laterTable (d d' : Db) : Prop :=
  ∃ rows new, ChatMessages d' = rows ++ new
              ∧ Forall2 laterRow (ChatMessages d) rows.

(** The inputs of the event loop as requests. *)
Definition requests (inputs : list (faults * Z * event)) : list request :=
  (λ i, ws i.1.1 i.1.2 i.2) <$> inputs.


(** No project is left with an empty map of typing users. *)
Definition typing_tidy (s : State) : Prop :=
  ∀ projectId projectTyping,
    typingUsers s !! projectId = Some projectTyping → projectTyping ≠ ∅.

(** How many of the verdicts admit. *)
Fixpoint admitted (l : list admission) : nat :=
  match l with
  | [] => 0
  | Allowed :: l' => S (admitted l')
  | Rejected :: l' => admitted l'
  end.

(** * Properties *)

(** ** Rate limiter *)

Section RateLimiter.

Implicit Types (m : gmap Z RateData) (d : RateData).

Lemma rateLimit_no_window m senderId now :
  m !! senderId = None →
  rateLimit m senderId now = (Allowed, <[senderId := mkRateData 1 now]> m).
Proof. intros H. unfold rateLimit. by rewrite H. Qed.

Lemma rateLimit_within_below m senderId now d :
  m !! senderId = Some d →
  now - timestamp d < RATE_LIMIT_WINDOW →
  count d < MAX_MESSAGES_PER_WINDOW →
  rateLimit m senderId now =
    (Allowed, <[senderId := mkRateData (count d + 1) (timestamp d)]> m).
Proof.
  intros H Hw Hc. unfold rateLimit. rewrite H.
  destruct (Z.ltb_spec (now - timestamp d) RATE_LIMIT_WINDOW); [|lia].
  unfold Z.geb.
  destruct (Z.compare_spec (count d) MAX_MESSAGES_PER_WINDOW); (done || lia).
Qed.

Lemma rateLimit_within_full m senderId now d :
  m !! senderId = Some d →
  now - timestamp d < RATE_LIMIT_WINDOW →
  MAX_MESSAGES_PER_WINDOW ≤ count d →
  rateLimit m senderId now = (Rejected, m).
Proof.
  intros H Hw Hc. unfold rateLimit. rewrite H.
  destruct (Z.ltb_spec (now - timestamp d) RATE_LIMIT_WINDOW); [|lia].
  unfold Z.geb.
  destruct (Z.compare_spec (count d) MAX_MESSAGES_PER_WINDOW); (done || lia).
Qed.

Lemma rateLimit_elapsed m senderId now d :
  m !! senderId = Some d →
  RATE_LIMIT_WINDOW ≤ now - timestamp d →
  rateLimit m senderId now = (Allowed, <[senderId := mkRateData 1 now]> m).
Proof.
  intros H Hw. unfold rateLimit. rewrite H.
  by destruct (Z.ltb_spec (now - timestamp d) RATE_LIMIT_WINDOW); [lia|].
Qed.

Lemma rateLimit_other m senderId now other :
  other ≠ senderId →
  (rateLimit m senderId now).2 !! other = m !! other.
Proof.
  intros Hne. unfold rateLimit.
  destruct (m !! senderId) as [d|]; simpl;
    repeat case_match; simpl; by rewrite ?lookup_insert_ne.
Qed.

(** Inside a window that holds [c] sends, the next sends are admitted until
    the count is [MAX_MESSAGES_PER_WINDOW] and rejected from then on. *)
Lemma rateLimitAll_window times : ∀ m senderId c t0,
  m !! senderId = Some (mkRateData c t0) →
  c ≤ MAX_MESSAGES_PER_WINDOW →
  Forall (λ t, t - t0 < RATE_LIMIT_WINDOW) times →
  (rateLimitAll m senderId times).1 =
    replicate (Z.to_nat (MAX_MESSAGES_PER_WINDOW - c) `min` length times)
      Allowed
    ++ replicate (length times - Z.to_nat (MAX_MESSAGES_PER_WINDOW - c))
         Rejected.
Proof.
  induction times as [|t times IH]; intros m senderId c t0 Hm Hc Hall.
  - simpl. by rewrite Nat.min_0_r.
  - apply Forall_cons in Hall as [Ht Hall]. simpl.
    destruct (decide (c < MAX_MESSAGES_PER_WINDOW)) as [Hlt|Hge].
    + rewrite (rateLimit_within_below _ _ _ _ Hm) by done. simpl.
      specialize (IH (<[senderId := mkRateData (c + 1) t0]> m) senderId
                     (c + 1) t0).
      rewrite lookup_insert_eq in IH.
      specialize (IH eq_refl ltac:(lia) Hall).
      destruct (rateLimitAll _ senderId times) as [l m'']. simpl in *.
      rewrite IH.
      replace (Z.to_nat (MAX_MESSAGES_PER_WINDOW - c))
        with (S (Z.to_nat (MAX_MESSAGES_PER_WINDOW - (c + 1)))) by lia.
      reflexivity.
    + rewrite (rateLimit_within_full _ _ _ _ Hm) by (simpl; lia). simpl.
      specialize (IH m senderId c t0 Hm Hc Hall).
      destruct (rateLimitAll m senderId times) as [l m'']. simpl in *.
      rewrite IH.
      replace (Z.to_nat (MAX_MESSAGES_PER_WINDOW - c)) with 0%nat by lia.
      simpl. by rewrite Nat.sub_0_r.
Qed.

End RateLimiter.

Lemma clearTypingIndicator_frame projectId userId s :
  let s' := (clearTypingIndicator projectId userId s).1 in
  userMessageRateLimit s' = userMessageRateLimit s ∧ db s' = db s
  ∧ sockets s' = sockets s ∧ nextTimer s' = nextTimer s.
Proof. unfold clearTypingIndicator. by repeat case_match. Qed.

Lemma withRateLimit_id s : withRateLimit s (userMessageRateLimit s) = s.
Proof. by destruct s. Qed.

Lemma on_send_message_rateLimit f now sid projectId senderId senderName
    messageContent replyToMessageId replyToUserId s :
  userMessageRateLimit
    (on_send_message f now sid projectId senderId senderName messageContent
       replyToMessageId replyToUserId s).1
  = (rateLimit (userMessageRateLimit s) senderId now).2.
Proof.
  unfold on_send_message.
  destruct (rateLimit (userMessageRateLimit s) senderId now) as [v rl].
  repeat case_match; simpl; try done.
  match goal with
  | H : clearTypingIndicator ?p ?u ?x = _ |- _ =>
      pose proof (clearTypingIndicator_frame p u x) as Hfr;
      rewrite H in Hfr; simpl in Hfr; by destruct Hfr as [-> _]
  end.
Qed.

(** C1. The rate limiter of [send-message] is the fixed-window counter: with
    no window for the sender one is opened with count 1 and the send is
    admitted; less than 10 seconds into a window the send is admitted and
    counted when the count is below 5, and rejected with the count unchanged
    otherwise; 10 seconds or more after the window's start a new window is
    opened with count 1 and the send is admitted. The handler keeps the
    limiter's map and on a rejection does nothing but report the throttling
    error; other senders' windows are untouched; and a send that opens a
    window is followed by exactly four more admissions inside it, the later
    sends of the window being rejected. *)
Theorem rate_limiter_fixed_window (s : State) (f : faults)
    (now sid projectId senderId : Z) (senderName : jsstring)
    (messageContent : value) (replyToMessageId replyToUserId : option Z) :
  let m := userMessageRateLimit s in
  let r := rateLimit m senderId now in
  let res := on_send_message f now sid projectId senderId senderName
               messageContent replyToMessageId replyToUserId s in
  match m !! senderId with
  | None => r = (Allowed, <[senderId := mkRateData 1 now]> m)
  | Some d =>
      if decide (now - timestamp d < 10000) then
        if decide (count d < 5) then
          r = (Allowed, <[senderId := mkRateData (count d + 1) (timestamp d)]> m)
        else r = (Rejected, m)
      else r = (Allowed, <[senderId := mkRateData 1 now]> m)
  end
  ∧ userMessageRateLimit res.1 = r.2
  ∧ (r.1 = Rejected →
     res = (s, unicast sid
                 "You are sending messages too quickly. Please wait a moment."))
  ∧ (∀ other, other ≠ senderId → r.2 !! other = m !! other)
  ∧ (∀ times,
       match m !! senderId with
       | None => True
       | Some d => 10000 ≤ now - timestamp d
       end →
       Forall (λ t, t - now < 10000) times →
       (rateLimitAll m senderId (now :: times)).1 =
         replicate (5 `min` S (length times)) Allowed
         ++ replicate (S (length times) - 5) Rejected).
Proof.
  intros m r res. repeat split.
  - destruct (m !! senderId) as [d|] eqn:Hm.
    + repeat case_decide.
      * apply (rateLimit_within_below _ _ _ d); [done|..];
          unfold RATE_LIMIT_WINDOW, MAX_MESSAGES_PER_WINDOW; lia.
      * apply (rateLimit_within_full _ _ _ d); [done|..];
          unfold RATE_LIMIT_WINDOW, MAX_MESSAGES_PER_WINDOW; lia.
      * apply (rateLimit_elapsed _ _ _ d); [done|].
        unfold RATE_LIMIT_WINDOW; lia.
    + by apply rateLimit_no_window.
  - apply on_send_message_rateLimit.
  - intros Hr. subst res r m. unfold on_send_message.
    destruct (rateLimit (userMessageRateLimit s) senderId now) as [v rl] eqn:E.
    simpl in Hr. subst v.
    assert (rl = userMessageRateLimit s) as ->.
    { unfold rateLimit in E. repeat case_match; congruence. }
    by rewrite withRateLimit_id.
  - intros other Hne. by apply rateLimit_other.
  - intros times Hopen Hall.
    assert (rateLimit m senderId now
            = (Allowed, <[senderId := mkRateData 1 now]> m)) as Hfirst.
    { destruct (m !! senderId) as [d|] eqn:Hm.
      - by apply (rateLimit_elapsed _ _ _ d).
      - by apply rateLimit_no_window. }
    cbn [rateLimitAll]. rewrite Hfirst.
    pose proof (rateLimitAll_window times
                  (<[senderId := mkRateData 1 now]> m) senderId 1 now
                  (lookup_insert_eq _ _ _) ltac:(done) Hall) as Hw.
    destruct (rateLimitAll _ senderId times) as [l m'']. simpl in *.
    rewrite Hw. by change (Z.to_nat (MAX_MESSAGES_PER_WINDOW - 1)) with 4%nat.
Qed.

Lemma rate_limiter_fixed_window_witness :
  (rateLimitAll ∅ 7 [0; 1000; 2000; 3000; 4000; 8000]).1
  = [Allowed; Allowed; Allowed; Allowed; Allowed; Rejected].
Proof.
  apply (rate_limiter_fixed_window initial no_faults 0 1 7 7 [] Undefined
           None None).
  - exact I.
  - repeat constructor.
Defined.

(** The scenario of six sends within eight seconds and a seventh past ten
    seconds from the first. *)
Example rate_limiter_scenario :
  (rateLimitAll ∅ 7 [0; 1000; 2000; 3000; 4000; 8000; 10000]).1
  = [Allowed; Allowed; Allowed; Allowed; Allowed; Rejected; Allowed].
Proof. vm_compute. reflexivity. Qed.

(** ** Content validation *)

Section Validation.

Lemma trimStart_nil s :
  trimStart s = [] ↔ Forall (λ c, isWhiteSpace c = true) s.
Proof.
  induction s as [|c s IH]; simpl; [by split|].
  destruct (isWhiteSpace c) eqn:Hc.
  - rewrite IH. split; [by constructor|by inversion 1].
  - split; [done|]. inversion 1; congruence.
Qed.

Lemma trimStart_white s :
  Forall (λ c, isWhiteSpace c = true) (trimStart s) → trimStart s = [].
Proof.
  induction s as [|c s IH]; simpl; [done|].
  destruct (isWhiteSpace c) eqn:Hc; [done|]. inversion 1; congruence.
Qed.

Lemma trim_nil s : trim s = [] ↔ Forall (λ c, isWhiteSpace c = true) s.
Proof.
  unfold trim, trimEnd. rewrite <- trimStart_nil. split.
  - intros H. apply (f_equal reverse) in H.
    rewrite reverse_involutive in H. change (reverse []) with (@nil N) in H.
    apply trimStart_nil, Forall_reverse in H.
    rewrite reverse_involutive in H. by apply trimStart_white.
  - by intros ->.
Qed.

Lemma validate_blank v : blankContent v → validate v = Blank.
Proof.
  intros [->|[->|(s & -> & Hs)]]; [done..|].
  unfold validate. simpl. case_bool_decide; [done|]. simpl.
  apply trim_nil in Hs. by rewrite decide_True.
Qed.

Lemma validate_Content v c :
  validate v = Content c → v = Str c ∧ ¬ blankContent v.
Proof.
  unfold validate. destruct v as [| |n|s]; simpl; try done.
  - by case_match.
  - case_bool_decide; simpl; [done|]. case_decide; [done|].
    intros [= ->]. split; [done|].
    intros [?|[?|(s' & [= <-] & Hs)]]; try done. by apply trim_nil in Hs.
Qed.

End Validation.

(** C4, as stated, fails: user 7 has five sends in the running window, so
    the blank sixth is answered with the throttling error, not with the
    validation error. *)
Lemma blank_send_throttled_counterexample :
  blankContent (txt "   ")
  ∧ (step (run initial five_sends).1
       (no_faults, 2000,
        send_message 1 7 7 (of_string "A") (txt "   ") None None)).2
    = unicast 1 "You are sending messages too quickly. Please wait a moment."
  ∧ (step (run initial five_sends).1
       (no_faults, 2000,
        send_message 1 7 7 (of_string "A") (txt "   ") None None)).2
    ≠ unicast 1 "Message cannot be empty".
Proof.
  split; [|split].
  - right; right. eexists; split; [done|]. by repeat constructor.
  - by vm_compute.
  - by vm_compute.
Qed.

(** C4 (amended). A [send-message] whose content is missing, empty or white
    space only is answered with exactly one unicast error and never reaches
    the store: the tables, the typing entries and the connections are
    unchanged and nothing is broadcast. The error is the validation error
    when the rate limiter admits the send and the throttling error when the
    sender's window is full. *)
Theorem blank_send_never_stored (s : State) (f : faults)
    (now sid projectId senderId : Z) (senderName : jsstring)
    (messageContent : value) (replyToMessageId replyToUserId : option Z) :
  blankContent messageContent →
  let res := on_send_message f now sid projectId senderId senderName
               messageContent replyToMessageId replyToUserId s in
  db res.1 = db s
  ∧ typingUsers res.1 = typingUsers s
  ∧ pending res.1 = pending s
  ∧ sockets res.1 = sockets s
  ∧ res.2 = unicast sid
      match (rateLimit (userMessageRateLimit s) senderId now).1 with
      | Allowed => "Message cannot be empty"
      | Rejected =>
          "You are sending messages too quickly. Please wait a moment."
      end.
Proof.
  intros Hb res. subst res. unfold on_send_message.
  rewrite (validate_blank _ Hb).
  by destruct (rateLimit (userMessageRateLimit s) senderId now) as [[] rl].
Qed.

Lemma blank_send_never_stored_witness :
  (on_send_message no_faults 0 1 7 7 (of_string "A") (txt "   ") None None
     initial).2
  = unicast 1 "Message cannot be empty".
Proof.
  apply (blank_send_never_stored initial no_faults 0 1 7 7 (of_string "A")
           (txt "   ") None None).
  right; right. eexists; split; [reflexivity|]. repeat constructor.
Defined.

(** ** The store *)

Section Store.

Implicit Types (d : Db) (m : ChatMessage).

Lemma isProjectMember_Some d projectId userId :
  is_Some (isProjectMember d projectId userId)
  ↔ approvedRow d projectId userId ∧ projectRow d projectId.
Proof.
  unfold isProjectMember. rewrite head_is_Some. split.
  - intros Hne.
    destruct (pm ← ProjectMembers d; _) as [|x l] eqn:E; [done|].
    assert (x ∈ x :: l) as Hx by apply list_elem_of_here.
    rewrite <- E in Hx.
    apply list_elem_of_bind in Hx as (pm & Hx & Hpm).
    apply list_elem_of_bind in Hx as (p & Hx & Hp).
    case_decide as Hc; [|by apply not_elem_of_nil in Hx].
    destruct Hc as (Hid & ? & ? & ?). split.
    + by exists pm.
    + exists p. split; [done|congruence].
  - intros [(pm & Hpm & ? & ? & ?) (p & Hp & ?)] E.
    assert ((pm, p_authorId p) ∈ @nil (ProjectMember * Z)) as Hin;
      [|by apply not_elem_of_nil in Hin].
    rewrite <- E. apply list_elem_of_bind. exists pm. split; [|done].
    apply list_elem_of_bind. exists p. split; [|done].
    rewrite decide_True; [apply list_elem_of_here|]. repeat split; congruence.
Qed.

Lemma isProjectMember_None d projectId userId :
  isProjectMember d projectId userId = None
  ↔ ¬ (approvedRow d projectId userId ∧ projectRow d projectId).
Proof.
  rewrite <- isProjectMember_Some, <- eq_None_not_Some. done.
Qed.

Lemma lastID_above d m : m ∈ ChatMessages d → cm_id m < lastID d.
Proof.
  unfold lastID. generalize (ChatMessages_seq d).
  induction (ChatMessages d) as [|x l IH]; intros z Hin.
  - by apply not_elem_of_nil in Hin.
  - apply elem_of_cons in Hin as [->|Hin]; csimpl.
    + lia.
    + specialize (IH z Hin). lia.
Qed.

Lemma lastID_seq d : ChatMessages_seq d < lastID d.
Proof.
  unfold lastID. induction (ChatMessages d) as [|x l IH]; csimpl; lia.
Qed.

Lemma selectById_fresh d messageId m :
  (∀ x, x ∈ ChatMessages d → cm_id x ≠ messageId) →
  cm_id m = messageId →
  head (filter (λ x, cm_id x = messageId) (ChatMessages d ++ [m])) = Some m.
Proof.
  intros Hfresh Hm. rewrite filter_app.
  assert (filter (λ x, cm_id x = messageId) (ChatMessages d) = []) as ->.
  { induction (ChatMessages d) as [|x l IH]; [done|].
    rewrite filter_cons_False.
    - apply IH. intros y Hy. apply Hfresh. by right.
    - apply Hfresh. by left. }
  simpl. by rewrite filter_cons_True.
Qed.

Lemma selectById_inserted d now projectId senderId senderName content
    replyToMessageId replyToUserId replyToUserName replyToMessageContent :
  selectById
    (insertMessage d now projectId senderId senderName content
       replyToMessageId replyToUserId replyToUserName replyToMessageContent)
    (lastID d)
  = Some (mkChatMessage (lastID d) projectId senderId senderName content
            replyToMessageId replyToUserId replyToUserName
            replyToMessageContent sent 0 None (CURRENT_TIMESTAMP now)
            (CURRENT_TIMESTAMP now)).
Proof.
  unfold selectById, insertMessage. simpl.
  apply selectById_fresh; [|done].
  intros x Hx. pose proof (lastID_above d x Hx). lia.
Qed.

Lemma selectLive_Some d messageId m :
  selectLive d messageId = Some m →
  m ∈ ChatMessages d ∧ cm_id m = messageId ∧ cm_isDeleted m = 0.
Proof.
  unfold selectLive. intros H%head_Some_elem_of.
  apply list_elem_of_filter in H as [[Hid Hdel] Hin]. done.
Qed.

Lemma selectLive_None d messageId :
  selectLive d messageId = None
  ↔ ∀ m, m ∈ ChatMessages d → cm_id m = messageId → cm_isDeleted m ≠ 0.
Proof.
  unfold selectLive. rewrite head_None. split.
  - intros H m Hin Hid Hdel.
    eapply (filter_nil_not_elem_of _ _ m); [exact H| |exact Hin]. done.
  - intros H.
    destruct (filter _ (ChatMessages d)) as [|x l] eqn:E; [done|].
    assert (x ∈ x :: l) as Hx by apply list_elem_of_here.
    rewrite <- E in Hx. apply list_elem_of_filter in Hx as [[??] ?].
    by destruct (H x).
Qed.

End Store.

(** ** Join and send *)

Lemma elem_of_inRoom (sk : gmap Z Socket) room sid :
  sid ∈ inRoom sk room ↔ ∃ sock, sk !! sid = Some sock ∧ room ∈ rooms sock.
Proof.
  unfold inRoom. rewrite elem_of_dom. unfold is_Some.
  setoid_rewrite map_lookup_filter_Some. naive_solver.
Qed.

(** What an accepted send does: the row is appended, fetched back, broadcast
    to the room, and the sender's typing entry is cleared. *)
Lemma on_send_message_accepted f now sid projectId senderId senderName
    messageContent content replyToMessageId replyToUserId s :
  (rateLimit (userMessageRateLimit s) senderId now).1 = Allowed →
  validate messageContent = Content content →
  is_Some (isProjectMember (db s) projectId senderId) →
  f = no_faults →
  let row := sentRow (db s) now projectId senderId senderName content
               replyToMessageId replyToUserId in
  let s2 :=
    withDb (withRateLimit s (rateLimit (userMessageRateLimit s) senderId now).2)
      (withMessages (db s) (ChatMessages (db s) ++ [row]) (lastID (db s))) in
  on_send_message f now sid projectId senderId senderName messageContent
    replyToMessageId replyToUserId s
  = ((clearTypingIndicator projectId senderId s2).1,
     (io_to projectId, new_message (Some row))
       :: (clearTypingIndicator projectId senderId s2).2).
Proof.
  intros Hrate Hvalid [mem Hmem] -> row s2. subst row s2.
  unfold on_send_message, sentRow.
  destruct (rateLimit (userMessageRateLimit s) senderId now) as [v rl].
  simpl in Hrate. subst v. rewrite Hvalid. simpl. rewrite Hmem.
  rewrite andb_false_r.
  destruct (replySnapshot (db s) replyToMessageId) as [rn rc]. simpl.
  rewrite selectById_inserted. unfold insertMessage.
  by destruct (clearTypingIndicator projectId senderId _).
Qed.

Lemma on_send_message_non_member f now sid projectId senderId senderName
    messageContent replyToMessageId replyToUserId s :
  isProjectMember (db s) projectId senderId = None →
  let res := on_send_message f now sid projectId senderId senderName
               messageContent replyToMessageId replyToUserId s in
  db res.1 = db s ∧ sockets res.1 = sockets s
  ∧ ∃ message, res.2 = unicast sid message.
Proof.
  intros Hmem res. subst res. unfold on_send_message.
  destruct (rateLimit (userMessageRateLimit s) senderId now) as [[] rl];
    [|by eauto].
  destruct (validate messageContent); [by eauto..|].
  destruct (member_err f); [by eauto|].
  simpl. rewrite Hmem. by eauto.
Qed.

(** C2, as stated, fails: user 7 is an approved member of project 7 and has
    joined its chat, yet the send with blank content is rejected and nothing
    is stored. Besides, an approved row alone is no membership: the query
    joins [Projects], and the schema's foreign keys are not enforced. *)
Lemma member_blank_send_counterexample :
  approvedRow (db (run initial member_joined).1) 7 7
  ∧ approvedRow (mkDb [] 0 [mkProjectMember 1 7 7 "approved"] []) 7 7
  ∧ isProjectMember (mkDb [] 0 [mkProjectMember 1 7 7 "approved"] []) 7 7
    = None
  ∧ (step (run initial member_joined).1
       (no_faults, 1000,
        send_message 1 7 7 (of_string "A") (txt "   ") None None)).2
    = unicast 1 "Message cannot be empty"
  ∧ db (step (run initial member_joined).1
          (no_faults, 1000,
           send_message 1 7 7 (of_string "A") (txt "   ") None None)).1
    = db (run initial member_joined).1.
Proof.
  split; [|split; [|split; [|split]]].
  - exists (mkProjectMember 1 7 7 "approved"). split; [|done].
    vm_compute. by left.
  - exists (mkProjectMember 1 7 7 "approved"). split; [|done].
    simpl. by left.
  - reflexivity.
  - by vm_compute.
  - by vm_compute.
Qed.

(** C2 (amended). [isProjectMember] finds a row exactly when an approved
    [ProjectMembers] row exists for the pair and the project has its row in
    [Projects] (the query joins the two tables). A join or a send of a
    non-member is answered with one unicast error: the connection enters no
    room and no row is inserted. With the store succeeding, a join of a
    member is admitted (the connection is in the room and the rest of the
    room is told), and a send of a member is accepted (the row is inserted
    and broadcast) when the rate limiter admits it and its content is a
    non-blank string. *)
Theorem membership_gate (s : State) (f : faults)
    (now sid projectId userId : Z) (userName : jsstring)
    (messageContent : value) (replyToMessageId replyToUserId : option Z) :
  let member := isProjectMember (db s) projectId userId in
  let join := on_join_project_chat f now sid projectId userId userName s in
  let send := on_send_message f now sid projectId userId userName
                messageContent replyToMessageId replyToUserId s in
  (is_Some member
   ↔ approvedRow (db s) projectId userId ∧ projectRow (db s) projectId)
  ∧ (member = None →
     join = (s, unicast sid
                  (if member_err f then "Failed to join chat"
                   else "You must be a project member to join chat")%string)
     ∧ db send.1 = db s ∧ sockets send.1 = sockets s
     ∧ ∃ message, send.2 = unicast sid message)
  ∧ (is_Some member → f = no_faults →
     join = (withSockets s
               (alter (joined projectId userId userName) sid (sockets s)),
             [(socket_to sid projectId, user_joined userId userName now)])
     ∧ (is_Some (sockets s !! sid) →
        connStateOf join.1 sid = InRoom
        ∧ sid ∈ inRoom (sockets join.1) projectId)
     ∧ ∀ content,
         (rateLimit (userMessageRateLimit s) userId now).1 = Allowed →
         validate messageContent = Content content →
         ChatMessages (db send.1)
         = ChatMessages (db s)
           ++ [sentRow (db s) now projectId userId userName content
                 replyToMessageId replyToUserId]
         ∧ head send.2
           = Some (io_to projectId,
                   new_message
                     (Some (sentRow (db s) now projectId userId userName
                              content replyToMessageId replyToUserId)))).
Proof.
  intros member join send. split; [apply isProjectMember_Some|]. split.
  - intros Hnone. split.
    + subst join. unfold on_join_project_chat. fold member. rewrite Hnone.
      by destruct (member_err f).
    + by apply on_send_message_non_member.
  - intros Hmem ->.
    assert (join = (withSockets s
               (alter (joined projectId userId userName) sid (sockets s)),
             [(socket_to sid projectId, user_joined userId userName now)]))
      as Hjoin.
    { subst join. unfold on_join_project_chat. fold member.
      by destruct Hmem as [x ->]. }
    split; [done|]. split.
    + intros [sock Hsock]. rewrite Hjoin. simpl.
      assert (alter (joined projectId userId userName) sid (sockets s) !! sid
              = Some (joined projectId userId userName sock)) as Hlk.
      { by rewrite lookup_alter_eq, Hsock. }
      split.
      * unfold connStateOf. simpl. rewrite Hlk. simpl.
        rewrite decide_False; [done|]. set_solver.
      * apply elem_of_inRoom. eexists. split; [done|]. simpl. set_solver.
    + intros content Hrate Hvalid. subst send.
      rewrite (on_send_message_accepted _ _ _ _ _ _ _ content) by done.
      simpl. split; [|done].
      pose proof (clearTypingIndicator_frame projectId userId
        (withDb
           (withRateLimit s (rateLimit (userMessageRateLimit s) userId now).2)
           (withMessages (db s)
              (ChatMessages (db s)
               ++ [sentRow (db s) now projectId userId userName content
                     replyToMessageId replyToUserId])
              (lastID (db s))))) as (_ & -> & _).
      done.
Qed.

Lemma membership_gate_witness :
  connStateOf (run initial member_joined).1 1 = InRoom
  ∧ 1 ∈ inRoom (sockets (run initial member_joined).1) 7.
Proof.
  pose proof (membership_gate
                (run initial [(no_faults, 0, http project7);
                              (no_faults, 0, connection 1)]).1
                no_faults 0 1 7 7 (of_string "A") Undefined None None)
    as (_ & _ & H).
  apply H.
  - vm_compute. eauto.
  - reflexivity.
  - vm_compute. eauto.
Defined.

(** ** Typing presence *)

Section Presence.

Implicit Types (s : State).

(** The nested map read through [typingTimer]. *)
Lemma typingTimer_lookup s projectId userId projectTyping :
  typingUsers s !! projectId = Some projectTyping →
  typingTimer s projectId userId = projectTyping !! userId.
Proof. unfold typingTimer. by intros ->. Qed.

Lemma typingTimer_clear projectId userId s p u :
  typingTimer (clearTypingIndicator projectId userId s).1 p u
  = if decide (p = projectId ∧ u = userId) then None else typingTimer s p u.
Proof.
  unfold clearTypingIndicator.
  destruct (typingUsers s !! projectId) as [inner|] eqn:Hp; simpl.
  2:{ case_decide as Hc; [|done]. destruct Hc as [-> ->].
      unfold typingTimer. by rewrite Hp. }
  destruct (inner !! userId) as [t|] eqn:Hu; simpl.
  2:{ case_decide as Hc; [|done]. destruct Hc as [-> ->].
      unfold typingTimer. by rewrite Hp. }
  unfold typingTimer at 1. simpl.
  destruct (decide (p = projectId)) as [->|Hne].
  - assert (typingTimer s projectId u = inner !! u) as Hs
      by by apply typingTimer_lookup.
    case_decide as Hsize.
    + apply map_size_empty_iff in Hsize.
      rewrite lookup_delete_eq. simpl.
      case_decide as Hc; [done|]. rewrite Hs.
      assert (u ≠ userId) as Hu' by naive_solver.
      by rewrite <- (lookup_delete_ne inner userId u), Hsize, lookup_empty.
    + rewrite lookup_insert_eq. simpl.
      case_decide as Hc.
      * destruct Hc as [_ ->]. by rewrite lookup_delete_eq.
      * rewrite Hs. apply lookup_delete_ne. naive_solver.
  - destruct (decide (p = projectId ∧ u = userId)) as [[? ?]|_]; [done|].
    case_decide.
    + by rewrite lookup_delete_ne.
    + by rewrite lookup_insert_ne.
Qed.

Lemma pending_clear projectId userId s :
  pending (clearTypingIndicator projectId userId s).1
  = match typingTimer s projectId userId with
    | Some t => delete t (pending s)
    | None => pending s
    end.
Proof.
  unfold clearTypingIndicator, typingTimer.
  destruct (typingUsers s !! projectId) as [inner|]; simpl; [|done].
  by destruct (inner !! userId).
Qed.

Lemma emits_clear projectId userId s :
  (clearTypingIndicator projectId userId s).2
  = match typingTimer s projectId userId with
    | Some _ => [(io_to projectId, user_stopped_typing userId)]
    | None => []
    end.
Proof.
  unfold clearTypingIndicator, typingTimer.
  destruct (typingUsers s !! projectId) as [inner|]; simpl; [|done].
  by destruct (inner !! userId).
Qed.

Lemma typingTimer_typing now sid projectId userId userName s p u :
  typingTimer (on_typing now sid projectId userId userName s).1 p u
  = if decide (p = projectId ∧ u = userId) then Some (nextTimer s)
    else typingTimer s p u.
Proof.
  unfold on_typing.
  pose proof (typingTimer_clear projectId userId s) as Hc.
  pose proof (clearTypingIndicator_frame projectId userId s) as (_&_&_&Hn).
  destruct (clearTypingIndicator projectId userId s) as [s1 out].
  simpl in *. unfold typingTimer at 1. simpl.
  destruct (decide (p = projectId)) as [->|Hne].
  - rewrite lookup_insert_eq. simpl.
    case_decide as Hd.
    + destruct Hd as [_ ->]. by rewrite lookup_insert_eq, Hn.
    + assert (u ≠ userId) as Hu by naive_solver.
      rewrite lookup_insert_ne by done.
      specialize (Hc projectId u). rewrite decide_False in Hc by naive_solver.
      rewrite <- Hc. unfold typingTimer.
      destruct (typingUsers s1 !! projectId) as [inner|] eqn:E; simpl.
      * by rewrite E.
      * by rewrite lookup_insert_eq.
  - destruct (decide (p = projectId ∧ u = userId)) as [[? ?]|_]; [done|].
    rewrite lookup_insert_ne by done.
    specialize (Hc p u). rewrite decide_False in Hc by (by intros [??]).
    rewrite <- Hc. unfold typingTimer.
    destruct (typingUsers s1 !! projectId) as [inner|] eqn:E; simpl; [done|].
    by rewrite lookup_insert_ne.
Qed.

Lemma pending_typing now sid projectId userId userName s :
  pending (on_typing now sid projectId userId userName s).1
  = <[nextTimer s := mkTimeout (now + 3000) projectId userId]>
      (pending (clearTypingIndicator projectId userId s).1).
Proof.
  unfold on_typing.
  pose proof (clearTypingIndicator_frame projectId userId s) as (_&_&_&Hn).
  destruct (clearTypingIndicator projectId userId s) as [s1 out].
  simpl in *. by rewrite Hn.
Qed.

Lemma nextTimer_typing now sid projectId userId userName s :
  nextTimer (on_typing now sid projectId userId userName s).1
  = nextTimer s + 1.
Proof.
  unfold on_typing.
  pose proof (clearTypingIndicator_frame projectId userId s) as (_&_&_&Hn).
  destruct (clearTypingIndicator projectId userId s) as [s1 out].
  simpl in *. by rewrite Hn.
Qed.

Lemma emits_typing now sid projectId userId userName s :
  (on_typing now sid projectId userId userName s).2
  = (clearTypingIndicator projectId userId s).2
    ++ [(socket_to sid projectId, user_typing userId userName)].
Proof.
  unfold on_typing. by destruct (clearTypingIndicator projectId userId s).
Qed.

End Presence.

Section PresenceInvariant.

Implicit Types (s : State).

Lemma presence_wf_ext s s' :
  typingUsers s' = typingUsers s → pending s' = pending s →
  nextTimer s' = nextTimer s → presence_wf s → presence_wf s'.
Proof.
  intros Ht Hp Hn (Hpoint & Hlive & Hfresh).
  assert (∀ p u, typingTimer s' p u = typingTimer s p u) as Htt.
  { intros p u. unfold typingTimer. by rewrite Ht. }
  split; [|split].
  - intros t tm. rewrite Hp, Htt. apply Hpoint.
  - intros p u t. rewrite Htt, Hp. apply Hlive.
  - intros t. rewrite Hp, Hn. apply Hfresh.
Qed.

Lemma presence_wf_initial : presence_wf initial.
Proof.
  split; [|split].
  - intros t tm H. change (pending initial) with (∅ : gmap Z Timeout) in H.
    by rewrite lookup_empty in H.
  - intros p u t H. unfold typingTimer, initial in H. simpl in H.
    by rewrite lookup_empty in H.
  - intros t [tm H]. change (pending initial) with (∅ : gmap Z Timeout) in H.
    by rewrite lookup_empty in H.
Qed.

(** A pending timer is found again after a clear unless it is the timer of
    the cleared entry. *)
Lemma pending_clear_Some projectId userId s t tm :
  pending (clearTypingIndicator projectId userId s).1 !! t = Some tm →
  pending s !! t = Some tm ∧ typingTimer s projectId userId ≠ Some t.
Proof.
  rewrite pending_clear.
  destruct (typingTimer s projectId userId) as [t0|]; [|done].
  intros [Hne H]%lookup_delete_Some. split; [done|congruence].
Qed.

Lemma clear_notTyping projectId userId s :
  timers_point s →
  notTyping (clearTypingIndicator projectId userId s).1 projectId userId.
Proof.
  intros Hpoint. split.
  - rewrite typingTimer_clear. by rewrite decide_True.
  - intros t tm [H Hne]%pending_clear_Some [Hp Hu].
    apply Hpoint in H. congruence.
Qed.

Lemma clear_wf projectId userId s :
  presence_wf s → presence_wf (clearTypingIndicator projectId userId s).1.
Proof.
  intros (Hpoint & Hlive & Hfresh). split; [|split].
  - intros t tm [H Hne]%pending_clear_Some.
    rewrite typingTimer_clear. case_decide as Hc.
    + destruct Hc as [Hp Hu]. apply Hpoint in H. congruence.
    + by apply Hpoint.
  - intros p u t. rewrite typingTimer_clear.
    case_decide as Hc; [done|]. intros H.
    destruct (Hlive _ _ _ H) as (tm & Htm & Hp & Hu).
    exists tm. split; [|done]. rewrite pending_clear.
    destruct (typingTimer s projectId userId) as [t0|] eqn:E; [|done].
    rewrite lookup_delete_ne; [done|]. intros ->.
    destruct (Hlive _ _ _ E) as (tm0 & Htm0 & ? & ?). naive_solver.
  - intros t [tm [H _]%pending_clear_Some].
    pose proof (clearTypingIndicator_frame projectId userId s) as (_&_&_&->).
    apply Hfresh. by exists tm.
Qed.

Lemma typing_wf now sid projectId userId userName s :
  presence_wf s →
  presence_wf (on_typing now sid projectId userId userName s).1.
Proof.
  intros Hwf.
  pose proof (clear_wf projectId userId s Hwf) as (Hpoint1 & Hlive1 & Hfresh1).
  pose proof (clear_notTyping projectId userId s (proj1 Hwf)) as [_ Hnone].
  pose proof (typingTimer_clear projectId userId s) as Hc.
  pose proof (clearTypingIndicator_frame projectId userId s) as (_&_&_&Hn).
  split; [|split].
  - intros t tm. rewrite pending_typing, typingTimer_typing.
    destruct (decide (t = nextTimer s)) as [->|Hne].
    + rewrite lookup_insert_eq. intros [= <-]. simpl. by rewrite decide_True.
    + rewrite lookup_insert_ne by done. intros H.
      case_decide as Hd; [by destruct (Hnone _ _ H)|].
      apply Hpoint1 in H. rewrite Hc in H. by rewrite decide_False in H.
  - intros p u t. rewrite typingTimer_typing, pending_typing.
    case_decide as Hd.
    + destruct Hd as [-> ->]. intros [= <-].
      eexists. by rewrite lookup_insert_eq.
    + intros H.
      specialize (Hc p u). rewrite decide_False in Hc by done.
      rewrite <- Hc in H. destruct (Hlive1 _ _ _ H) as (tm & Htm & ? & ?).
      exists tm. split; [|done]. rewrite lookup_insert_ne; [done|].
      assert (t < nextTimer s); [|lia]. rewrite <- Hn. apply Hfresh1. eauto.
  - intros t. rewrite pending_typing, nextTimer_typing.
    destruct (decide (t = nextTimer s)) as [->|Hne]; [lia|].
    rewrite lookup_insert_ne by done. intros H%Hfresh1. lia.
Qed.

(** A timer that fires does what a clear of its entry does. *)
Lemma on_timer_clear now t tm s :
  timers_point s → pending s !! t = Some tm → due tm ≤ now →
  on_timer now t s = clearTypingIndicator (cb_projectId tm) (cb_userId tm) s.
Proof.
  intros Hpoint Ht Hdue. unfold on_timer. rewrite Ht.
  destruct (Z.leb_spec (due tm) now); [|lia].
  apply Hpoint in Ht. unfold typingTimer in Ht.
  unfold clearTypingIndicator. simpl.
  destruct (typingUsers s !! cb_projectId tm) as [inner|]; [|done].
  simpl in Ht. rewrite Ht. unfold clearTimeout, withTyping. simpl.
  by rewrite delete_delete_eq.
Qed.

Lemma timer_wf now t s : presence_wf s → presence_wf (on_timer now t s).1.
Proof.
  intros Hwf. unfold on_timer.
  destruct (pending s !! t) as [tm|] eqn:Ht; [|done].
  destruct (Z.leb_spec (due tm) now) as [Hdue|]; [|done].
  pose proof (on_timer_clear now t tm s (proj1 Hwf) Ht Hdue) as H.
  unfold on_timer in H. rewrite Ht in H.
  destruct (Z.leb_spec (due tm) now); [|lia].
  rewrite H. by apply clear_wf.
Qed.

End PresenceInvariant.

(** ** The handlers and the parts of the state they leave alone *)

Lemma clear_withSockets projectId userId s sk :
  clearTypingIndicator projectId userId (withSockets s sk)
  = (withSockets (clearTypingIndicator projectId userId s).1 sk,
     (clearTypingIndicator projectId userId s).2).
Proof. unfold clearTypingIndicator. simpl. by repeat case_match. Qed.

Lemma clear_withDb projectId userId s d :
  clearTypingIndicator projectId userId (withDb s d)
  = (withDb (clearTypingIndicator projectId userId s).1 d,
     (clearTypingIndicator projectId userId s).2).
Proof. unfold clearTypingIndicator. simpl. by repeat case_match. Qed.

Lemma clear_withRateLimit projectId userId s rl :
  clearTypingIndicator projectId userId (withRateLimit s rl)
  = (withRateLimit (clearTypingIndicator projectId userId s).1 rl,
     (clearTypingIndicator projectId userId s).2).
Proof. unfold clearTypingIndicator. simpl. by repeat case_match. Qed.

(** The typing entries after a send: those before it, or those a clear of
    the sender's entry leaves. *)
Lemma on_send_message_presence f now sid projectId senderId senderName
    messageContent replyToMessageId replyToUserId s :
  let s' := (on_send_message f now sid projectId senderId senderName
               messageContent replyToMessageId replyToUserId s).1 in
  let c := (clearTypingIndicator projectId senderId s).1 in
  (typingUsers s' = typingUsers s ∧ pending s' = pending s
   ∧ nextTimer s' = nextTimer s)
  ∨ (typingUsers s' = typingUsers c ∧ pending s' = pending c
     ∧ nextTimer s' = nextTimer c).
Proof.
  unfold on_send_message.
  destruct (rateLimit (userMessageRateLimit s) senderId now) as [v rl].
  repeat case_match; simpl; try (by left).
  match goal with
  | H : clearTypingIndicator _ _ _ = _ |- _ =>
      rewrite clear_withDb, clear_withRateLimit in H; injection H as <- _
  end.
  by right.
Qed.

Lemma step_wf s i : presence_wf s → presence_wf (step s i).1.
Proof.
  intros Hwf. destruct i as [[f now] e]. unfold step.
  destruct (origin e) as [sid|] eqn:Ho;
    [destruct (sockets s !! sid) as [sock|] eqn:Hs; [|done]|];
    destruct e; try done; simpl.
  - unfold on_join_project_chat. by repeat case_match.
  - destruct (on_send_message_presence f now sid0 projectId senderId
                senderName messageContent replyToMessageId replyToUserId s)
      as [(?&?&?)|(?&?&?)].
    + by eapply presence_wf_ext.
    + eapply presence_wf_ext; [done..|]. by apply clear_wf.
  - by apply typing_wf.
  - by apply clear_wf.
  - unfold on_edit_message. by repeat case_match.
  - unfold on_delete_message. by repeat case_match.
  - unfold on_disconnect. repeat case_match; try done.
    match goal with
    | H : clearTypingIndicator _ _ _ = _ |- _ =>
        rewrite clear_withSockets in H; injection H as <- _
    end.
    eapply presence_wf_ext; [| | |by eapply clear_wf]; done.
  - unfold on_connection. by repeat case_match.
  - by apply timer_wf.
Qed.

Lemma run_wf inputs : ∀ s, presence_wf s → presence_wf (run s inputs).1.
Proof.
  induction inputs as [|i inputs IH]; intros s Hwf; [done|].
  simpl. pose proof (step_wf s i Hwf) as H1.
  destruct (step s i) as [s1 out1]. specialize (IH s1 H1).
  by destruct (run s1 inputs).
Qed.

Lemma reachable_wf s : reachable s → presence_wf s.
Proof. intros [inputs <-]. apply run_wf, presence_wf_initial. Qed.

(** C7. In every state the server reaches, a typing entry and a pending
    expiry timer come in pairs: no two pending timers clear the same
    (projectId, userId), and a pair has an entry exactly when it has a
    pending timer. A typing signal cancels the timer of the entry it finds
    and leaves the new timer, due 3 seconds later, as the only one of the
    pair. Hence one clear removes the presence of the user altogether, be it
    the clear routine itself, an explicit stop, the expiry of the timer, the
    disconnect of the connection stamped with the pair, or an accepted
    send. *)
Theorem typing_single_timer (s : State) :
  reachable s →
  (∀ t1 t2 tm1 tm2,
     pending s !! t1 = Some tm1 → pending s !! t2 = Some tm2 →
     cb_projectId tm1 = cb_projectId tm2 → cb_userId tm1 = cb_userId tm2 →
     t1 = t2)
  ∧ (∀ projectId userId,
       is_Some (typingTimer s projectId userId)
       ↔ ∃ t tm, pending s !! t = Some tm
                 ∧ cb_projectId tm = projectId ∧ cb_userId tm = userId)
  ∧ (∀ now sid projectId userId userName,
       let s' := (on_typing now sid projectId userId userName s).1 in
       typingTimer s' projectId userId = Some (nextTimer s)
       ∧ (∀ t tm, pending s' !! t = Some tm →
                  cb_projectId tm = projectId → cb_userId tm = userId →
                  t = nextTimer s ∧ due tm = now + 3000)
       ∧ (∀ t0, typingTimer s projectId userId = Some t0 →
                pending s' !! t0 = None))
  ∧ (∀ projectId userId,
       notTyping (clearTypingIndicator projectId userId s).1 projectId userId
       ∧ notTyping (on_stop_typing projectId userId s).1 projectId userId)
  ∧ (∀ now t tm,
       pending s !! t = Some tm → due tm ≤ now →
       notTyping (on_timer now t s).1 (cb_projectId tm) (cb_userId tm))
  ∧ (∀ now sid sock projectId userId,
       sockets s !! sid = Some sock →
       sk_projectId sock = Some projectId → sk_userId sock = Some userId →
       projectId ≠ 0 → userId ≠ 0 →
       notTyping (on_disconnect now sid s).1 projectId userId)
  ∧ (∀ now sid projectId senderId senderName messageContent content
       replyToMessageId replyToUserId,
       (rateLimit (userMessageRateLimit s) senderId now).1 = Allowed →
       validate messageContent = Content content →
       is_Some (isProjectMember (db s) projectId senderId) →
       notTyping
         (on_send_message no_faults now sid projectId senderId senderName
            messageContent replyToMessageId replyToUserId s).1
         projectId senderId).
Proof.
  intros Hreach. pose proof (reachable_wf s Hreach) as Hwf.
  destruct Hwf as (Hpoint & Hlive & Hfresh).
  split; [|split; [|split; [|split; [|split; [|split]]]]].
  - intros t1 t2 tm1 tm2 H1%Hpoint H2%Hpoint Hp Hu. congruence.
  - intros p u. split.
    + intros [t Ht]. destruct (Hlive _ _ _ Ht) as (tm & ? & ? & ?). eauto.
    + intros (t & tm & Ht%Hpoint & <- & <-). eauto.
  - intros now sid p u name s'. subst s'.
    pose proof (clear_notTyping p u s Hpoint) as [_ Hnone].
    split; [|split].
    + rewrite typingTimer_typing. by rewrite decide_True.
    + intros t tm. rewrite pending_typing.
      destruct (decide (t = nextTimer s)) as [->|Hne].
      * rewrite lookup_insert_eq. by intros [= <-].
      * rewrite lookup_insert_ne by done. intros H ??. by destruct (Hnone _ _ H).
    + intros t0 Ht0. rewrite pending_typing, pending_clear, Ht0.
      destruct (Hlive _ _ _ Ht0) as (tm & Htm & _).
      assert (t0 < nextTimer s) by (apply Hfresh; eauto).
      rewrite lookup_insert_ne by lia. apply lookup_delete_eq.
  - intros p u. split; by apply clear_notTyping.
  - intros now t tm Ht Hdue.
    rewrite (on_timer_clear now t tm s Hpoint Ht Hdue).
    by apply clear_notTyping.
  - intros now sid sock p u Hs Hp Hu Hp0 Hu0. unfold on_disconnect.
    rewrite Hs, Hp, Hu. simpl.
    destruct (Z.eqb_spec p 0); [done|]. destruct (Z.eqb_spec u 0); [done|].
    simpl. rewrite clear_withSockets. simpl.
    apply (clear_notTyping p u s Hpoint).
  - intros now sid p u name mc content rid ruid Hrate Hvalid Hmem.
    rewrite (on_send_message_accepted _ _ _ _ _ _ _ content) by done.
    simpl. rewrite clear_withDb. simpl. rewrite clear_withRateLimit. simpl.
    apply (clear_notTyping p u s Hpoint).
Qed.

Lemma typing_single_timer_witness :
  notTyping
    (clearTypingIndicator 7 7 (run initial typing_once).1).1 7 7.
Proof.
  apply (typing_single_timer (run initial typing_once).1).
  exists typing_once. reflexivity.
Defined.

(** C6, as stated, fails: user 7 is typing in project 7 (entry made at
    1000 ms, timer due at 4000 ms); the typing signal at 2000 ms is answered
    with the [user-typing] notification again. *)
Lemma repeated_typing_counterexample :
  is_Some (typingTimer (run initial typing_once).1 7 7)
  ∧ (step (run initial typing_once).1
       (no_faults, 2000, typing 1 7 7 (of_string "A"))).2
    = [(io_to 7, user_stopped_typing 7);
       (socket_to 1 7, user_typing 7 (of_string "A"))].
Proof. split; [by vm_compute; eauto|by vm_compute]. Qed.

(** C6 (amended). Every typing signal emits the [user-typing] notification
    to the room without the sender, whether it creates the typing entry or
    refreshes one; it is the last emit of the handler, preceded by the
    stopped-typing notice of the clear when an entry existed. The entry then
    holds a fresh timer due 3 seconds later. *)
Theorem typing_always_notifies (s : State) (now sid projectId userId : Z)
    (userName : jsstring) :
  let res := on_typing now sid projectId userId userName s in
  res.2 = (match typingTimer s projectId userId with
           | Some _ => [(io_to projectId, user_stopped_typing userId)]
           | None => []
           end) ++ [(socket_to sid projectId, user_typing userId userName)]
  ∧ recipients (sockets res.1) (socket_to sid projectId)
    = inRoom (sockets s) projectId ∖ {[sid]}
  ∧ typingTimer res.1 projectId userId = Some (nextTimer s)
  ∧ pending res.1 !! nextTimer s
    = Some (mkTimeout (now + 3000) projectId userId).
Proof.
  intros res. subst res. split; [|split; [|split]].
  - by rewrite emits_typing, emits_clear.
  - unfold on_typing.
    pose proof (clearTypingIndicator_frame projectId userId s) as (_&_&Hs&_).
    destruct (clearTypingIndicator projectId userId s) as [s1 out].
    simpl in *. by rewrite Hs.
  - rewrite typingTimer_typing. by rewrite decide_True.
  - rewrite pending_typing. apply lookup_insert_eq.
Qed.

(** C10. A typing signal of a user who has a typing entry for the project
    first broadcasts [user-stopped-typing] to the whole room, the signalling
    connection included when it is in the room, and then emits
    [user-typing] to the room without the sender: the old timer is cancelled
    by the notifying clear before the new one is installed. *)
Theorem typing_refresh_emits_pair (s : State) (now sid projectId userId : Z)
    (userName : jsstring) (t0 : Z) :
  typingTimer s projectId userId = Some t0 →
  let res := on_typing now sid projectId userId userName s in
  res.2 = [(io_to projectId, user_stopped_typing userId);
           (socket_to sid projectId, user_typing userId userName)]
  ∧ sockets res.1 = sockets s
  ∧ recipients (sockets s) (io_to projectId) = inRoom (sockets s) projectId
  ∧ (sid ∈ inRoom (sockets s) projectId →
     sid ∈ recipients (sockets s) (io_to projectId))
  ∧ (sid ∉ recipients (sockets s) (socket_to sid projectId))
  ∧ (∀ other, other ≠ sid → other ∈ inRoom (sockets s) projectId →
              other ∈ recipients (sockets s) (socket_to sid projectId))
  ∧ pending res.1
    = <[nextTimer s := mkTimeout (now + 3000) projectId userId]>
        (delete t0 (pending s)).
Proof.
  intros Ht0 res. subst res. repeat split.
  - by rewrite emits_typing, emits_clear, Ht0.
  - unfold on_typing.
    pose proof (clearTypingIndicator_frame projectId userId s) as (_&_&Hs&_).
    by destruct (clearTypingIndicator projectId userId s) as [s1 out].
  - done.
  - simpl. intros [_ H]%elem_of_difference. apply H. by apply elem_of_singleton.
  - intros other Hne Hin. simpl. apply elem_of_difference. split; [done|].
    by intros ?%elem_of_singleton.
  - by rewrite pending_typing, pending_clear, Ht0.
Qed.

Lemma typing_refresh_emits_pair_witness :
  (on_typing 2000 1 7 7 (of_string "A") (run initial typing_once).1).2
  = [(io_to 7, user_stopped_typing 7);
     (socket_to 1 7, user_typing 7 (of_string "A"))].
Proof.
  apply (typing_refresh_emits_pair (run initial typing_once).1 2000 1 7 7
           (of_string "A") 0).
  vm_compute. reflexivity.
Defined.

(** ** The store under the statements *)

Section StoreInvariant.

Implicit Types (d : Db) (m : ChatMessage).

Lemma NoDup_fmap_eq {A B} (g : A → B) (l : list A) x y :
  NoDup (g <$> l) → x ∈ l → y ∈ l → g x = g y → x = y.
Proof.
  induction l as [|a l IH]; csimpl; intros Hnd Hx Hy Heq.
  - by apply not_elem_of_nil in Hx.
  - apply NoDup_cons in Hnd as [Hnotin Hnd].
    apply elem_of_cons in Hx as [->|Hx]; apply elem_of_cons in Hy as [->|Hy].
    + done.
    + destruct Hnotin. rewrite Heq. by apply list_elem_of_fmap_2.
    + destruct Hnotin. rewrite <- Heq. by apply list_elem_of_fmap_2.
    + by apply IH.
Qed.

Lemma selectLive_unique d m :
  keys_unique d → m ∈ ChatMessages d → cm_isDeleted m = 0 →
  selectLive d (cm_id m) = Some m.
Proof.
  intros Hnd Hin Hlive.
  destruct (selectLive d (cm_id m)) as [m'|] eqn:E.
  - apply selectLive_Some in E as (Hin' & Hid & _).
    f_equal. by eapply (NoDup_fmap_eq cm_id).
  - rewrite selectLive_None in E. by destruct (E m).
Qed.

(** An [UPDATE ... WHERE id = ?] keeps the keys. *)
Lemma updateWhereId_keys d messageId f :
  (∀ m, cm_id (f m) = cm_id m) →
  cm_id <$> ChatMessages (updateWhereId d messageId f)
  = cm_id <$> ChatMessages d.
Proof.
  intros Hf. unfold updateWhereId. simpl. rewrite <- list_fmap_compose.
  apply list_fmap_ext. intros i m _. simpl. by case_decide.
Qed.

Lemma execute_keys_update now st d :
  (∀ a b c e f g h i, st ≠ InsertMessage a b c e f g h i) →
  cm_id <$> ChatMessages (execute now st d) = cm_id <$> ChatMessages d.
Proof.
  intros Hst. destruct st; simpl; try done.
  - by destruct (Hst projectId senderId senderName messageContent
                   replyToMessageId replyToUserId replyToUserName
                   replyToMessageContent).
  - by apply updateWhereId_keys.
  - by apply updateWhereId_keys.
  - by apply updateWhereId_keys.
Qed.

Lemma execute_wf now st d : db_wf d → db_wf (execute now st d).
Proof.
  intros [Hnd [Hseq Hpos]].
  destruct st; unfold db_wf, keys_unique, keys_positive.
  1:{ simpl. rewrite fmap_app. simpl. pose proof (lastID_seq d).
      split; [|split; [lia|]].
      - apply NoDup_app. split; [done|]. split; [|apply NoDup_singleton].
        intros x Hx ->%list_elem_of_singleton.
        apply list_elem_of_fmap in Hx as (m & Hid & Hm).
        pose proof (lastID_above d m Hm). lia.
      - intros m [Hm| ->%list_elem_of_singleton]%elem_of_app; [by apply Hpos|].
        simpl. lia. }
  all: rewrite execute_keys_update by done.
  all: split; [done|]; split; [done|].
  all: intros m Hm; apply (list_elem_of_fmap_2 cm_id) in Hm.
  all: rewrite execute_keys_update in Hm by done.
  all: apply list_elem_of_fmap in Hm as (m' & -> & Hm'); by apply Hpos.
Qed.

Lemma execute_softDeleted now st d messageId :
  softDeleted d messageId → softDeleted (execute now st d) messageId.
Proof.
  intros [(m0 & Hm0 & Hid0) Hall].
  assert (∀ f, (∀ m, cm_id (f m) = cm_id m) →
               (∀ m, cm_isDeleted m ≠ 0 → cm_isDeleted (f m) ≠ 0) →
               ∀ x, softDeleted (updateWhereId d x f) messageId) as Hupd.
  { intros f Hfid Hfdel x. split.
    - exists (if decide (cm_id m0 = x) then f m0 else m0). split.
      + unfold updateWhereId. simpl. apply list_elem_of_fmap. by exists m0.
      + case_decide; by rewrite ?Hfid.
    - unfold updateWhereId. simpl. intros m Hm Hid.
      apply list_elem_of_fmap in Hm as (m' & -> & Hm').
      case_decide.
      + apply Hfdel, Hall; [done|]. by rewrite <- Hfid.
      + by apply Hall. }
  destruct st; simpl.
  - split.
    + exists m0. split; [|done]. simpl. apply elem_of_app. by left.
    + simpl. intros m [Hm| ->%list_elem_of_singleton]%elem_of_app Hid.
      * by apply Hall.
      * simpl in Hid. pose proof (lastID_above d m0 Hm0). lia.
  - by apply Hupd.
  - by apply Hupd.
  - by apply Hupd.
  - split; [by exists m0|done].
Qed.

End StoreInvariant.

(** ** The event loop and the store *)

Lemma on_send_message_db f now sid projectId senderId senderName
    messageContent replyToMessageId replyToUserId s :
  let s' := (on_send_message f now sid projectId senderId senderName
               messageContent replyToMessageId replyToUserId s).1 in
  db s' = db s ∨ ∃ st, db s' = execute now st (db s).
Proof.
  unfold on_send_message.
  destruct (rateLimit (userMessageRateLimit s) senderId now) as [v rl].
  repeat case_match; try (by left); right.
  - by eexists (InsertMessage _ _ _ _ _ _ _ _).
  - match goal with
    | H : clearTypingIndicator _ _ _ = _ |- _ =>
        rewrite clear_withDb, clear_withRateLimit in H; injection H as <- _
    end.
    by eexists (InsertMessage _ _ _ _ _ _ _ _).
Qed.

Lemma on_edit_message_db f now sid messageId userId messageContent s :
  let s' := (on_edit_message f now sid messageId userId messageContent s).1 in
  db s' = db s ∨ ∃ st, db s' = execute now st (db s).
Proof.
  unfold on_edit_message.
  repeat case_match; try (by left); right; by eexists (UpdateContent _ _).
Qed.

Lemma on_delete_message_db f now sid messageId userId s :
  let s' := (on_delete_message f now sid messageId userId s).1 in
  db s' = db s ∨ ∃ st, db s' = execute now st (db s).
Proof.
  unfold on_delete_message.
  repeat case_match; try (by left); right; by eexists (SoftDelete _).
Qed.

Lemma on_typing_db now sid projectId userId userName s :
  db (on_typing now sid projectId userId userName s).1 = db s.
Proof.
  unfold on_typing.
  pose proof (clearTypingIndicator_frame projectId userId s) as (_ & ? & _).
  by destruct (clearTypingIndicator projectId userId s).
Qed.

Lemma on_disconnect_db now sid s : db (on_disconnect now sid s).1 = db s.
Proof.
  unfold on_disconnect. repeat case_match; try done.
  match goal with
  | H : clearTypingIndicator ?p ?u _ = _ |- _ =>
      rewrite clear_withSockets in H; injection H as <- _;
      by pose proof (clearTypingIndicator_frame p u s) as (_ & ? & _)
  end.
Qed.

Lemma on_timer_db now timeout s : db (on_timer now timeout s).1 = db s.
Proof.
  unfold on_timer. repeat case_match; try done.
  match goal with
  | |- db (clearTypingIndicator ?p ?u ?x).1 = _ =>
      by pose proof (clearTypingIndicator_frame p u x) as (_ & -> & _)
  end.
Qed.

(** A turn of the event loop leaves the tables alone or runs one
    statement. *)
Lemma step_db s i :
  db (step s i).1 = db s ∨ ∃ st, db (step s i).1 = execute i.1.2 st (db s).
Proof.
  destruct i as [[f now] e]. unfold step. simpl.
  destruct (origin e) as [sid|];
    [destruct (sockets s !! sid) as [sock|]; [|by left]|];
    destruct e; simpl.
  all: first
    [ apply on_send_message_db
    | apply on_edit_message_db
    | apply on_delete_message_db
    | right; by eexists
    | left;
      first [ apply on_typing_db | apply on_disconnect_db | apply on_timer_db
            | by pose proof (clearTypingIndicator_frame projectId userId s)
                as (_ & ? & _)
            | unfold on_connection, on_join_project_chat;
              by repeat case_match ] ].
Qed.

Lemma step_db_wf s i : db_wf (db s) → db_wf (db (step s i).1).
Proof.
  intros Hwf. destruct (step_db s i) as [->|[st ->]]; [done|].
  by apply execute_wf.
Qed.

Lemma run_db_wf inputs : ∀ s, db_wf (db s) → db_wf (db (run s inputs).1).
Proof.
  induction inputs as [|i inputs IH]; intros s Hwf; [done|].
  simpl. pose proof (step_db_wf s i Hwf) as H1.
  destruct (step s i) as [s1 out1]. specialize (IH s1 H1).
  by destruct (run s1 inputs).
Qed.

Lemma reachable_db_wf s : reachable s → db_wf (db s).
Proof.
  intros [inputs <-]. apply run_db_wf. split; [apply NoDup_nil_2|].
  split; [done|]. by intros m ?%not_elem_of_nil.
Qed.

Lemma run_softDeleted inputs messageId : ∀ s,
  softDeleted (db s) messageId → softDeleted (db (run s inputs).1) messageId.
Proof.
  induction inputs as [|i inputs IH]; intros s Hdel; [done|].
  simpl.
  assert (softDeleted (db (step s i).1) messageId) as H1.
  { destruct (step_db s i) as [->|[st ->]]; [done|].
    by apply execute_softDeleted. }
  destruct (step s i) as [s1 out1]. specialize (IH s1 H1).
  by destruct (run s1 inputs).
Qed.

(** What a page of the history holds. *)
Lemma listPage_elem d projectId limit offset m :
  m ∈ listPage d projectId limit offset →
  m ∈ ChatMessages d ∧ cm_projectId m = projectId ∧ cm_isDeleted m = 0.
Proof.
  unfold listPage, limitOffset. intros Hm.
  assert (m ∈ merge_sort createdAt_le
            (filter (λ m, cm_projectId m = projectId ∧ cm_isDeleted m = 0)
               (ChatMessages d))) as Hin.
  { case_match.
    - by eapply subseteq_drop.
    - eapply subseteq_drop, subseteq_take. done. }
  rewrite merge_sort_Permutation in Hin.
  by apply list_elem_of_filter in Hin as [[??] ?].
Qed.

Lemma StronglySorted_drop {A} (R : relation A) n l :
  StronglySorted R l → StronglySorted R (drop n l).
Proof.
  revert l. induction n as [|n IH]; intros l Hl; [done|].
  destruct l as [|x l]; [done|]. simpl. apply IH. by inversion Hl.
Qed.

Lemma StronglySorted_take {A} (R : relation A) n l :
  StronglySorted R l → StronglySorted R (take n l).
Proof.
  revert l. induction n as [|n IH]; intros l Hl; [constructor|].
  destruct l as [|x l]; [constructor|]. simpl. inversion Hl; subst.
  constructor; [by apply IH|]. by apply Forall_take.
Qed.

Lemma listPage_sorted d projectId limit offset :
  StronglySorted createdAt_le (listPage d projectId limit offset).
Proof.
  unfold listPage, limitOffset.
  assert (StronglySorted createdAt_le
            (merge_sort createdAt_le
               (filter (λ m, cm_projectId m = projectId ∧ cm_isDeleted m = 0)
                  (ChatMessages d)))) as Hs.
  { apply StronglySorted_merge_sort.
    - intros a b c. unfold createdAt_le. lia.
    - intros a b. unfold createdAt_le. lia. }
  case_match.
  - by apply StronglySorted_drop.
  - by apply StronglySorted_take, StronglySorted_drop.
Qed.

(** ** Delete *)

Lemma softDelete_softDeleted d now m :
  m ∈ ChatMessages d → softDeleted (softDelete d now (cm_id m)) (cm_id m).
Proof.
  intros Hm. unfold softDelete, updateWhereId. split; simpl.
  - exists (setDeleted (CURRENT_TIMESTAMP now) m). split; [|done].
    apply list_elem_of_fmap. exists m. by rewrite decide_True.
  - intros m' Hm' Hid. apply list_elem_of_fmap in Hm' as (x & -> & Hx).
    case_decide; [done|]. done.
Qed.

(** C9. A delete that succeeds (the message is found live and is the
    requester's, the store reports no error) updates the row in place: the
    row keeps every column but [isDeleted], now 1, and [updatedAt]; the
    other rows and tables are untouched. The room of the message's project
    is sent [message-deleted] with the message id alone. From then on,
    whatever events follow, no page of the history ([listPage], and so
    [getChatHistory]) holds a row with that id; a page is ordered by
    creation time ascending and holds live rows of the project only. *)
Theorem soft_delete_hides_message (s : State) (now sid messageId userId : Z)
    (message : ChatMessage) :
  reachable s →
  selectLive (db s) messageId = Some message →
  cm_senderId message = userId →
  let res := on_delete_message no_faults now sid messageId userId s in
  res.2 = [(io_to (cm_projectId message), message_deleted messageId)]
  ∧ ChatMessages (db res.1)
    = (λ m, if decide (cm_id m = messageId)
            then setDeleted (CURRENT_TIMESTAMP now) m else m)
      <$> ChatMessages (db s)
  ∧ (∀ m, m ∈ ChatMessages (db s) → cm_id m = messageId → m = message)
  ∧ setDeleted (CURRENT_TIMESTAMP now) message
    = mkChatMessage (cm_id message) (cm_projectId message)
        (cm_senderId message) (cm_senderName message)
        (cm_messageContent message) (cm_replyToMessageId message)
        (cm_replyToUserId message) (cm_replyToUserName message)
        (cm_replyToMessageContent message) (cm_messageStatus message)
        1 (cm_editedAt message) (cm_createdAt message)
        (CURRENT_TIMESTAMP now)
  ∧ ProjectMembers (db res.1) = ProjectMembers (db s)
  ∧ Projects (db res.1) = Projects (db s)
  ∧ (∀ inputs projectId limit offset m,
       m ∈ listPage (db (run res.1 inputs).1) projectId limit offset →
       cm_id m ≠ messageId)
  ∧ (∀ inputs f projectId uid page limit messages pg lim total pages,
       getChatHistory f (db (run res.1 inputs).1) projectId uid page limit
       = (200, historyPage messages pg lim total pages) →
       ∀ m, m ∈ messages → cm_id m ≠ messageId)
  ∧ (∀ d projectId limit offset,
       StronglySorted createdAt_le (listPage d projectId limit offset)
       ∧ ∀ m, m ∈ listPage d projectId limit offset →
              cm_projectId m = projectId ∧ cm_isDeleted m = 0).
Proof.
  intros Hreach Hsel Howner res.
  destruct (reachable_db_wf s Hreach) as [Hnd _].
  destruct (selectLive_Some _ _ _ Hsel) as (Hin & Hid & Hlive).
  assert (res = (withDb s (softDelete (db s) now messageId),
                 [(io_to (cm_projectId message), message_deleted messageId)]))
    as Hres.
  { subst res. unfold on_delete_message. simpl. rewrite Hsel.
    by rewrite decide_False by (by intros []). }
  assert (∀ inputs projectId limit offset m,
            m ∈ listPage (db (run res.1 inputs).1) projectId limit offset →
            cm_id m ≠ messageId) as Hpage.
  { intros inputs p l o m Hm Hmid.
    apply listPage_elem in Hm as (Hm & _ & Hmlive).
    assert (softDeleted (db (run res.1 inputs).1) messageId) as [_ Hdel].
    { apply run_softDeleted. rewrite Hres. simpl. rewrite <- Hid.
      by apply softDelete_softDeleted. }
    by destruct (Hdel m Hm Hmid). }
  clearbody res. subst res. simpl in *.
  split; [done|]. split; [done|]. split.
  { intros m Hm Hmid. apply (NoDup_fmap_eq cm_id (ChatMessages (db s)));
      [done..|congruence]. }
  split; [done|]. split; [done|]. split; [done|]. split; [done|]. split.
  - intros inputs f p uid page limit messages pg lim total pages.
    unfold getChatHistory.
    repeat case_match; try done. intros [= <- _ _ _ _] m Hm.
    by eapply Hpage.
  - intros d p l o. split; [apply listPage_sorted|].
    intros m Hm. by apply listPage_elem in Hm as (_ & ? & ?).
Qed.

Lemma soft_delete_hides_message_witness :
  (on_delete_message no_faults 5000 1 1 7 (run initial one_message).1).2
  = [(io_to 7, message_deleted 1)].
Proof.
  apply (soft_delete_hides_message (run initial one_message).1 5000 1 1 7
           (mkChatMessage 1 7 7 (of_string "A") (of_string "hi") None None
              None None sent 0 None 1 1)).
  - exists one_message. reflexivity.
  - vm_compute. reflexivity.
  - reflexivity.
Defined.

(** ** Replies *)

(** A reply to a message that is missing or soft-deleted is rejected exactly
    when the same send without the reply is. *)
Lemma on_send_message_dangling_reply f now sid projectId senderId senderName
    messageContent target replyToUserId s message :
  selectLive (db s) target = None → read_err f = false →
  (on_send_message f now sid projectId senderId senderName messageContent
     (Some target) replyToUserId s).2 = unicast sid message
  ↔ (on_send_message f now sid projectId senderId senderName messageContent
       None replyToUserId s).2 = unicast sid message.
Proof.
  intros Hgone Hread. unfold on_send_message, replySnapshot.
  destruct (rateLimit (userMessageRateLimit s) senderId now) as [[] rl];
    [|done].
  destruct (validate messageContent); [done..|].
  destruct (member_err f); [done|]. simpl.
  destruct (isProjectMember (db s) projectId senderId); [|done].
  rewrite Hread, andb_false_r, Hgone. simpl.
  destruct (negb (target =? 0)); simpl.
  all: destruct (write_err f); [done|]; destruct (fetch_err f); [done|].
  all: repeat match goal with
         | |- context [clearTypingIndicator ?p ?u ?x] =>
             destruct (clearTypingIndicator p u x)
         end.
  all: by split.
Qed.

(** C8. A [replyToMessageId] whose target is missing or soft-deleted is not
    an error: with the lookup succeeding, the send is rejected exactly when
    the same send without a reply is. A send that passes the rate limiter,
    the content check and the membership check, with the store succeeding,
    is stored and broadcast whatever its [replyToMessageId] refers to: the
    row is appended, the room gets [new-message] with it and no error is
    emitted. When no live row has the replied-to id the snapshot columns
    [replyToUserName] and [replyToMessageContent] are null; when a live row
    has it, they hold that row's [senderName] and [messageContent]. *)
Theorem reply_target_tolerated (s : State) (f : faults)
    (now sid projectId senderId : Z)
    (senderName : jsstring) (messageContent : value) (content : jsstring)
    (replyToMessageId replyToUserId : option Z) :
  let res := on_send_message f now sid projectId senderId senderName
               messageContent replyToMessageId replyToUserId s in
  let row := sentRow (db s) now projectId senderId senderName content
               replyToMessageId replyToUserId in
  (∀ target message,
     replyToMessageId = Some target →
     (∀ m, m ∈ ChatMessages (db s) → cm_id m = target → cm_isDeleted m ≠ 0) →
     read_err f = false →
     res.2 = unicast sid message
     ↔ (on_send_message f now sid projectId senderId senderName
          messageContent None replyToUserId s).2 = unicast sid message)
  ∧ (reachable s →
     (rateLimit (userMessageRateLimit s) senderId now).1 = Allowed →
     validate messageContent = Content content →
     is_Some (isProjectMember (db s) projectId senderId) →
     f = no_faults →
     ChatMessages (db res.1) = ChatMessages (db s) ++ [row]
     ∧ res.2 = (io_to projectId, new_message (Some row))
               :: match typingTimer s projectId senderId with
                  | Some _ =>
                      [(io_to projectId, user_stopped_typing senderId)]
                  | None => []
                  end
     ∧ cm_messageContent row = content
     ∧ cm_replyToMessageId row = orNull replyToMessageId
     ∧ (∀ target,
          replyToMessageId = Some target →
          (∀ m, m ∈ ChatMessages (db s) → cm_id m = target →
                cm_isDeleted m ≠ 0) →
          cm_replyToUserName row = None
          ∧ cm_replyToMessageContent row = None)
     ∧ (∀ m,
          replyToMessageId = Some (cm_id m) →
          m ∈ ChatMessages (db s) → cm_isDeleted m = 0 →
          cm_replyToUserName row = Some (cm_senderName m)
          ∧ cm_replyToMessageContent row = Some (cm_messageContent m))).
Proof.
  intros res row. split.
  { intros target message -> Hgone%selectLive_None Hread. subst res.
    by apply on_send_message_dangling_reply. }
  intros Hreach Hrate Hvalid Hmem ->.
  destruct (reachable_db_wf s Hreach) as [Hnd [_ Hpos]].
  subst res. rewrite (on_send_message_accepted _ _ _ _ _ _ _ content) by done.
  simpl. rewrite clear_withDb. simpl. rewrite clear_withRateLimit. simpl.
  split; [|split; [|split; [|split; [|split]]]].
  - done.
  - by rewrite emits_clear.
  - done.
  - done.
  - intros target -> Hgone. subst row. unfold sentRow, replySnapshot. simpl.
    destruct (negb (target =? 0)); [|done].
    apply selectLive_None in Hgone. simpl. by rewrite Hgone.
  - intros m -> Hm Hlive. subst row. unfold sentRow, replySnapshot. simpl.
    pose proof (Hpos m Hm).
    destruct (Z.eqb_spec (cm_id m) 0); [lia|]. simpl.
    by rewrite selectLive_unique.
Qed.

Lemma reply_target_tolerated_witness :
  (on_send_message no_faults 20000 1 7 7 (of_string "A") (txt "re")
     (Some 99) None (run initial one_message).1).2
  = [(io_to 7,
      new_message
        (Some (mkChatMessage 2 7 7 (of_string "A") (of_string "re")
                 (Some 99) None None None sent 0 None 20 20)))].
Proof.
  apply (reply_target_tolerated (run initial one_message).1 no_faults 20000
           1 7 7 (of_string "A") (txt "re") (of_string "re") (Some 99) None).
  - exists one_message. reflexivity.
  - vm_compute. reflexivity.
  - vm_compute. reflexivity.
  - vm_compute. eauto.
  - reflexivity.
Defined.

(** ** Edit *)

(** C5, as stated, fails: message 1 is user 7's; user 8 asks to replace its
    content with blanks and is answered with the validation error, not with
    the ownership error. *)
Lemma foreign_blank_edit_counterexample :
  (cm_senderId <$> selectLive (db (run initial one_message).1) 1) = Some 7
  ∧ (step (run initial one_message).1
       (no_faults, 2000, edit_message 1 1 8 (txt "   "))).2
    = unicast 1 "Message cannot be empty"
  ∧ (step (run initial one_message).1
       (no_faults, 2000, edit_message 1 1 8 (txt "   "))).2
    ≠ unicast 1 "You can only edit your own messages".
Proof. repeat split; by vm_compute. Qed.

(** C5 (amended). An edit of a message that is missing, soft-deleted or not
    the requester's leaves the state as it is and is answered with one
    unicast error. Blank content is answered with the validation error
    first; with a non-blank string as content and the lookup succeeding, a
    message that is missing or soft-deleted is answered with "Message not
    found" and a live message of another sender with "You can only edit your
    own messages". *)
Theorem edit_rejections (s : State) (f : faults) (now sid messageId userId : Z)
    (messageContent : value) :
  let res := on_edit_message f now sid messageId userId messageContent s in
  (selectLive (db s) messageId = None
   ↔ ∀ m, m ∈ ChatMessages (db s) → cm_id m = messageId → cm_isDeleted m ≠ 0)
  ∧ (blankContent messageContent →
     res = (s, unicast sid "Message cannot be empty"))
  ∧ (∀ content,
       validate messageContent = Content content → read_err f = false →
       (selectLive (db s) messageId = None →
        res = (s, unicast sid "Message not found"))
       ∧ (∀ message,
            selectLive (db s) messageId = Some message →
            cm_senderId message ≠ userId →
            res = (s, unicast sid "You can only edit your own messages")))
  ∧ ((∀ message, selectLive (db s) messageId = Some message →
                 cm_senderId message ≠ userId) →
     res.1 = s ∧ ∃ message, res.2 = unicast sid message).
Proof.
  intros res. subst res. unfold on_edit_message.
  split; [apply selectLive_None|]. split; [|split].
  - intros Hb. by rewrite (validate_blank _ Hb).
  - intros content -> ->. split.
    + by intros ->.
    + intros message -> Hne. by rewrite decide_True.
  - intros Hforeign.
    destruct (validate messageContent); [by eauto..|].
    destruct (read_err f); [by eauto|].
    destruct (selectLive (db s) messageId) as [message|]; [|by eauto].
    rewrite decide_True by by apply Hforeign. by eauto.
Qed.

Lemma edit_rejections_witness :
  on_edit_message no_faults 2000 1 1 8 (txt "bye") (run initial one_message).1
  = ((run initial one_message).1,
     unicast 1 "You can only edit your own messages").
Proof.
  pose proof (edit_rejections (run initial one_message).1 no_faults 2000 1 1 8
                (txt "bye")) as (_ & _ & H & _).
  apply (H (of_string "bye"))
    with (message := mkChatMessage 1 7 7 (of_string "A") (of_string "hi")
                       None None None None sent 0 None 1 1).
  - vm_compute. reflexivity.
  - reflexivity.
  - vm_compute. reflexivity.
  - simpl. lia.
Defined.

(** ** Connection state *)

Lemma on_send_message_sockets f now sid projectId senderId
    senderName messageContent replyToMessageId replyToUserId s :
  sockets (on_send_message f now sid projectId senderId senderName
             messageContent replyToMessageId replyToUserId s).1
  = sockets s.
Proof.
  unfold on_send_message.
  destruct (rateLimit (userMessageRateLimit s) senderId now) as [v rl].
  repeat case_match; simpl; try done.
  match goal with
  | H : clearTypingIndicator ?p ?u ?x = _ |- _ =>
      pose proof (clearTypingIndicator_frame p u x) as Hfr;
      rewrite H in Hfr; simpl in Hfr; by destruct Hfr as (_ & _ & -> & _)
  end.
Qed.

(** C3, as stated, fails: connection 1 has joined no room, yet its send as
    user 7 (an approved member of project 7) is stored and broadcast, and
    its typing signal is relayed without any error. *)
Lemma connected_send_counterexample :
  connStateOf (run initial connected_only).1 1 = Connected
  ∧ (step (run initial connected_only).1
       (no_faults, 1000,
        send_message 1 7 7 (of_string "A") (txt "hi") None None)).2
    = [(io_to 7,
        new_message
          (Some (mkChatMessage 1 7 7 (of_string "A") (of_string "hi")
                   None None None None sent 0 None 1 1)))]
  ∧ ChatMessages
      (db (step (run initial connected_only).1
             (no_faults, 1000,
              send_message 1 7 7 (of_string "A") (txt "hi") None None)).1)
    = [mkChatMessage 1 7 7 (of_string "A") (of_string "hi")
         None None None None sent 0 None 1 1]
  ∧ (step (run initial connected_only).1
       (no_faults, 1000, typing 1 7 7 (of_string "A"))).2
    = [(socket_to 1 7, user_typing 7 (of_string "A"))].
Proof. repeat split; by vm_compute. Qed.

Lemma on_send_message_withSockets f now sid projectId senderId senderName
    messageContent replyToMessageId replyToUserId s sk :
  on_send_message f now sid projectId senderId senderName messageContent
    replyToMessageId replyToUserId (withSockets s sk)
  = (withSockets
       (on_send_message f now sid projectId senderId senderName
          messageContent replyToMessageId replyToUserId s).1 sk,
     (on_send_message f now sid projectId senderId senderName
        messageContent replyToMessageId replyToUserId s).2).
Proof.
  unfold on_send_message. simpl.
  destruct (rateLimit (userMessageRateLimit s) senderId now) as [[] rl];
    [|done].
  destruct (validate messageContent); [done..|].
  destruct (member_err f); [done|]. simpl.
  destruct (isProjectMember (db s) projectId senderId); [|done].
  destruct (truthyId replyToMessageId && read_err f); [done|].
  destruct (replySnapshot (db s) replyToMessageId) as [rn rc].
  destruct (write_err f); [done|]. destruct (fetch_err f); [done|].
  match goal with
  | |- context [clearTypingIndicator _ _ (withDb (withRateLimit s rl) ?d)] =>
      change (withDb (withRateLimit (withSockets s sk) rl) d)
        with (withSockets (withDb (withRateLimit s rl) d) sk);
      rewrite (clear_withSockets projectId senderId
                 (withDb (withRateLimit s rl) d) sk);
      by destruct (clearTypingIndicator projectId senderId
                     (withDb (withRateLimit s rl) d))
  end.
Qed.

Lemma on_typing_withSockets now sid projectId userId userName s sk :
  on_typing now sid projectId userId userName (withSockets s sk)
  = (withSockets (on_typing now sid projectId userId userName s).1 sk,
     (on_typing now sid projectId userId userName s).2).
Proof.
  unfold on_typing. rewrite clear_withSockets.
  by destruct (clearTypingIndicator projectId userId s).
Qed.

Lemma on_edit_message_withSockets f now sid messageId userId messageContent
    s sk :
  on_edit_message f now sid messageId userId messageContent
    (withSockets s sk)
  = (withSockets
       (on_edit_message f now sid messageId userId messageContent s).1 sk,
     (on_edit_message f now sid messageId userId messageContent s).2).
Proof. unfold on_edit_message. simpl. by repeat case_match. Qed.

Lemma on_delete_message_withSockets f now sid messageId userId s sk :
  on_delete_message f now sid messageId userId (withSockets s sk)
  = (withSockets (on_delete_message f now sid messageId userId s).1 sk,
     (on_delete_message f now sid messageId userId s).2).
Proof. unfold on_delete_message. simpl. by repeat case_match. Qed.

(** What a send that fails one of its three checks does: nothing is stored
    and the sender gets one error. *)
Lemma on_send_message_gated f now sid projectId senderId senderName
    messageContent replyToMessageId replyToUserId s :
  (rateLimit (userMessageRateLimit s) senderId now).1 = Rejected
  ∨ (∀ content, validate messageContent ≠ Content content)
  ∨ isProjectMember (db s) projectId senderId = None →
  let res := on_send_message f now sid projectId senderId senderName
               messageContent replyToMessageId replyToUserId s in
  db res.1 = db s ∧ ∃ message, res.2 = unicast sid message.
Proof.
  intros Hgate res. subst res. unfold on_send_message.
  destruct (rateLimit (userMessageRateLimit s) senderId now) as [[] rl];
    [|by eauto].
  destruct (validate messageContent) as [| |content]; [by eauto..|].
  destruct (member_err f); [by eauto|]. simpl.
  destruct (isProjectMember (db s) projectId senderId); [|by eauto].
  destruct Hgate as [?|[Hv|?]]; [done| |done]. by destruct (Hv content).
Qed.

(** The same for an edit: a failed content check, lookup or ownership check
    leaves the state as it was. *)
Lemma on_edit_message_gated f now sid messageId userId messageContent s :
  (∀ content, validate messageContent ≠ Content content)
  ∨ selectLive (db s) messageId = None
  ∨ (∃ message, selectLive (db s) messageId = Some message
                ∧ cm_senderId message ≠ userId) →
  let res := on_edit_message f now sid messageId userId messageContent s in
  res.1 = s ∧ ∃ message, res.2 = unicast sid message.
Proof.
  intros Hgate res. subst res. unfold on_edit_message.
  destruct (validate messageContent) as [| |content]; [by eauto..|].
  destruct (read_err f); [by eauto|].
  destruct (selectLive (db s) messageId) as [message|]; [|by eauto].
  destruct (decide (cm_senderId message ≠ userId)) as [|Hown]; [by eauto|].
  destruct Hgate as [Hv|[?|(m & [= <-] & ?)]]; [|done..].
  by destruct (Hv content).
Qed.

Lemma on_delete_message_gated f now sid messageId userId s :
  selectLive (db s) messageId = None
  ∨ (∃ message, selectLive (db s) messageId = Some message
                ∧ cm_senderId message ≠ userId) →
  let res := on_delete_message f now sid messageId userId s in
  res.1 = s ∧ ∃ message, res.2 = unicast sid message.
Proof.
  intros Hgate res. subst res. unfold on_delete_message.
  destruct (read_err f); [by eauto|].
  destruct (selectLive (db s) messageId) as [message|]; [|by eauto].
  destruct (decide (cm_senderId message ≠ userId)) as [|Hown]; [by eauto|].
  by destruct Hgate as [?|(m & [= <-] & ?)].
Qed.

(** C3 (amended). The handlers of send, edit, delete and typing never read
    the connection table: whatever rooms the connection has joined, none
    (Connected) or some (InRoom), the event has the same effect on the
    store, the rate limiter and the typing entries, produces the same emits,
    and leaves every connection as it was. The events are gated otherwise,
    and by nothing else. A send that the rate limiter rejects, whose content
    fails the check, or whose sender is no member stores nothing and is
    answered with one unicast error; with the store succeeding every other
    send appends its row and broadcasts it to the room. An edit whose
    content fails the check, whose message has no live row, or whose message
    belongs to another sender leaves the state alone and is answered with
    one unicast error; with the store succeeding every other edit rewrites
    the content and broadcasts the row to the message's room. A delete is
    the same with the lookup and the ownership check alone. A typing signal
    is never answered with an error: it always installs the entry and emits
    [user-typing] to the room without the sender. *)
Theorem chat_events_ignore_connection_state (s : State) (sk : gmap Z Socket)
    (f : faults) (now : Z) (e : event) (sid : Z) :
  chatMutation e = true → origin e = Some sid →
  is_Some (sockets s !! sid) → is_Some (sk !! sid) →
  step (withSockets s sk) (f, now, e)
  = (withSockets (step s (f, now, e)).1 sk, (step s (f, now, e)).2)
  ∧ sockets (step s (f, now, e)).1 = sockets s
  ∧ (∀ projectId senderId senderName messageContent replyToMessageId
       replyToUserId,
       e = send_message sid projectId senderId senderName messageContent
             replyToMessageId replyToUserId →
       ((rateLimit (userMessageRateLimit s) senderId now).1 = Rejected
        ∨ (∀ content, validate messageContent ≠ Content content)
        ∨ isProjectMember (db s) projectId senderId = None →
        db (step s (f, now, e)).1 = db s
        ∧ ∃ message, (step s (f, now, e)).2 = unicast sid message)
       ∧ ∀ content,
           (rateLimit (userMessageRateLimit s) senderId now).1 = Allowed →
           validate messageContent = Content content →
           is_Some (isProjectMember (db s) projectId senderId) →
           f = no_faults →
           ChatMessages (db (step s (f, now, e)).1)
           = ChatMessages (db s)
             ++ [sentRow (db s) now projectId senderId senderName content
                   replyToMessageId replyToUserId]
           ∧ head (step s (f, now, e)).2
             = Some (io_to projectId,
                     new_message
                       (Some (sentRow (db s) now projectId senderId
                                senderName content replyToMessageId
                                replyToUserId))))
  ∧ (∀ messageId userId messageContent,
       e = edit_message sid messageId userId messageContent →
       ((∀ content, validate messageContent ≠ Content content)
        ∨ selectLive (db s) messageId = None
        ∨ (∃ message, selectLive (db s) messageId = Some message
                      ∧ cm_senderId message ≠ userId) →
        (step s (f, now, e)).1 = s
        ∧ ∃ message, (step s (f, now, e)).2 = unicast sid message)
       ∧ ∀ content message,
           validate messageContent = Content content →
           selectLive (db s) messageId = Some message →
           cm_senderId message = userId → f = no_faults →
           step s (f, now, e)
           = (withDb s (updateContent (db s) now messageId content),
              [(io_to (cm_projectId message),
                message_edited
                  (selectById (updateContent (db s) now messageId content)
                     messageId))]))
  ∧ (∀ messageId userId,
       e = delete_message sid messageId userId →
       (selectLive (db s) messageId = None
        ∨ (∃ message, selectLive (db s) messageId = Some message
                      ∧ cm_senderId message ≠ userId) →
        (step s (f, now, e)).1 = s
        ∧ ∃ message, (step s (f, now, e)).2 = unicast sid message)
       ∧ ∀ message,
           selectLive (db s) messageId = Some message →
           cm_senderId message = userId → f = no_faults →
           step s (f, now, e)
           = (withDb s (softDelete (db s) now messageId),
              [(io_to (cm_projectId message), message_deleted messageId)]))
  ∧ (∀ projectId userId userName,
       e = typing sid projectId userId userName →
       (∀ t message, (t, error message) ∉ (step s (f, now, e)).2)
       ∧ last (step s (f, now, e)).2
         = Some (socket_to sid projectId, user_typing userId userName)
       ∧ typingTimer (step s (f, now, e)).1 projectId userId
         = Some (nextTimer s)
       ∧ db (step s (f, now, e)).1 = db s).
Proof.
  intros Hmut Ho [sock Hs] [sock' Hsk].
  assert (step s (f, now, e) = handle f now e s) as Hstep.
  { unfold step. by rewrite Ho, Hs. }
  assert (step (withSockets s sk) (f, now, e)
          = handle f now e (withSockets s sk)) as Hstep'.
  { unfold step. rewrite Ho. simpl. by rewrite Hsk. }
  rewrite Hstep, Hstep'. clear Hstep Hstep'.
  destruct e; try done; simpl; simpl in Ho; injection Ho as ->.
  - (* send-message *)
    split; [apply on_send_message_withSockets|].
    split; [apply on_send_message_sockets|].
    split; [|by repeat split].
    intros ? ? ? ? ? ? [= <- <- <- <- <- <-]. split.
    + apply on_send_message_gated.
    + intros content Hrate Hvalid Hmem Hf.
      rewrite (on_send_message_accepted f now sid projectId senderId
                 senderName messageContent content replyToMessageId
                 replyToUserId s Hrate Hvalid Hmem Hf).
      split; [|done]. simpl.
      match goal with
      | |- context [clearTypingIndicator ?p ?u ?x] =>
          pose proof (clearTypingIndicator_frame p u x) as (_ & -> & _)
      end.
      done.
  - (* typing *)
    split; [apply on_typing_withSockets|].
    split.
    { unfold on_typing.
      pose proof (clearTypingIndicator_frame projectId userId s) as (_&_&?&_).
      by destruct (clearTypingIndicator projectId userId s). }
    split; [done|]. split; [done|]. split; [done|].
    intros ? ? ? [= <- <- <-]. split; [|split; [|split]].
    + intros t message. rewrite emits_typing, emits_clear.
      destruct (typingTimer s projectId userId); simpl.
      * by intros [[=]|[[=]|?%not_elem_of_nil]%elem_of_cons]%elem_of_cons.
      * by intros [[=]|?%not_elem_of_nil]%elem_of_cons.
    + rewrite emits_typing. apply last_snoc.
    + rewrite typingTimer_typing. by rewrite decide_True.
    + apply on_typing_db.
  - (* edit-message *)
    split; [apply on_edit_message_withSockets|].
    split; [unfold on_edit_message; by repeat case_match|].
    split; [done|]. split; [|by repeat split].
    intros ? ? ? [= <- <- <-]. split.
    + apply on_edit_message_gated.
    + intros content message Hvalid Hlive Hown ->.
      unfold on_edit_message. rewrite Hvalid. simpl. rewrite Hlive.
      by rewrite decide_False by (by intros ?).
  - (* delete-message *)
    split; [apply on_delete_message_withSockets|].
    split; [unfold on_delete_message; by repeat case_match|].
    split; [done|]. split; [done|]. split; [|done].
    intros ? ? [= <- <-]. split.
    + apply on_delete_message_gated.
    + intros message Hlive Hown ->.
      unfold on_delete_message. simpl. rewrite Hlive.
      by rewrite decide_False by (by intros ?).
Qed.

Lemma chat_events_ignore_connection_state_witness :
  connStateOf (run initial connected_only).1 1 = Connected
  ∧ connStateOf
      (withSockets (run initial connected_only).1
         (sockets (run initial member_joined).1)) 1 = InRoom
  ∧ (step (withSockets (run initial connected_only).1
             (sockets (run initial member_joined).1))
       (no_faults, 1000,
        send_message 1 7 7 (of_string "A") (txt "hi") None None)).2
    = (step (run initial connected_only).1
         (no_faults, 1000,
          send_message 1 7 7 (of_string "A") (txt "hi") None None)).2
  ∧ ChatMessages
      (db (step (run initial connected_only).1
             (no_faults, 1000,
              send_message 1 7 7 (of_string "A") (txt "hi") None None)).1)
    = [sentRow (db (run initial connected_only).1) 1000 7 7 (of_string "A")
         (of_string "hi") None None].
Proof.
  split; [vm_compute; reflexivity|]. split; [vm_compute; reflexivity|].
  destruct (chat_events_ignore_connection_state
              (run initial connected_only).1
              (sockets (run initial member_joined).1) no_faults 1000
              (send_message 1 7 7 (of_string "A") (txt "hi") None None) 1)
    as (H & _ & Hsend & _).
  - reflexivity.
  - reflexivity.
  - vm_compute. eauto.
  - vm_compute. eauto.
  - split; [rewrite H; reflexivity|].
    destruct (Hsend 7 7 (of_string "A") (txt "hi") None None eq_refl)
      as [_ Hacc].
    destruct (Hacc (of_string "hi")) as [Hrows _].
    + vm_compute. reflexivity.
    + vm_compute. reflexivity.
    + vm_compute. eauto.
    + reflexivity.
    + rewrite Hrows. vm_compute. reflexivity.
Defined.

(** ** The scenarios of the specification, evaluated *)

(** User 7, a member who joined, sends "hello" to project 7: the row is
    stored live and the broadcast reaches the room, the sender's connection
    included. *)
Example scenario_member_send :
  step (run initial member_joined).1
    (no_faults, 1000,
     send_message 1 7 7 (of_string "A") (txt "hello") None None)
  = ((run initial
        (member_joined
         ++ [(no_faults, 1000,
              send_message 1 7 7 (of_string "A") (txt "hello") None None)])).1,
     [(io_to 7,
       new_message
         (Some (mkChatMessage 1 7 7 (of_string "A") (of_string "hello")
                  None None None None sent 0 None 1 1)))])
  ∧ 1 ∈ recipients (sockets (run initial member_joined).1) (io_to 7).
Proof.
  split; [by vm_compute|].
  apply elem_of_inRoom. eexists. split; [by vm_compute|]. by vm_compute.
Qed.

(** User 8, whose request is pending, sends to project 7: one unicast error,
    no row. *)
Example scenario_non_member_send :
  step (run initial member_joined).1
    (no_faults, 1000,
     send_message 1 7 8 (of_string "B") (txt "hello") None None)
  = (withRateLimit (run initial member_joined).1
       {[8 := mkRateData 1 1000]},
     unicast 1 "You must be a project member to send messages").
Proof. by vm_compute. Qed.

(** User 7 sends a message and deletes it: the history of project 7 is
    empty again, and the row is still in the table. *)
Example scenario_send_then_delete :
  (step (run initial one_message).1
     (no_faults, 5000, delete_message 1 1 7)).2
  = [(io_to 7, message_deleted 1)]
  ∧ listPage
      (db (step (run initial one_message).1
             (no_faults, 5000, delete_message 1 1 7)).1) 7 50 0 = []
  ∧ ChatMessages
      (db (step (run initial one_message).1
             (no_faults, 5000, delete_message 1 1 7)).1)
    = [mkChatMessage 1 7 7 (of_string "A") (of_string "hi") None None None
         None sent 1 None 1 5].
Proof. repeat split; by vm_compute. Qed.

(** * Further properties *)

(** ** Requests and the event loop *)

Lemma withDb_id s : withDb s (db s) = s.
Proof. by destruct s. Qed.

Lemma withMembership_id d : withMembership d (ProjectMembers d) (Projects d) = d.
Proof. by destruct d. Qed.

Lemma run_app inputs1 inputs2 s :
  (run s (inputs1 ++ inputs2)).1 = (run (run s inputs1).1 inputs2).1.
Proof.
  revert s. induction inputs1 as [|i inputs1 IH]; intros s; [done|].
  simpl. destruct (step s i) as [s1 out1]. specialize (IH s1).
  destruct (run s1 (inputs1 ++ inputs2)), (run s1 inputs1). simpl in *.
  by rewrite IH.
Qed.

Lemma run_one s i : (run s [i]).1 = (step s i).1.
Proof. simpl. by destruct (step s i). Qed.

(** A controller leaves the tables alone or runs one statement. *)
Lemma control_db f now r d :
  (control f now r d).1 = d ∨ ∃ st, (control f now r d).1 = execute now st d.
Proof.
  destruct r; simpl.
  - unfold sendMessage. repeat case_match; try (by left).
    all: right; by eexists (InsertMessage _ _ _ _ _ _ _ _).
  - unfold editMessage. repeat case_match; try (by left).
    all: right; by eexists (UpdateContent _ _).
  - unfold deleteMessage. repeat case_match; try (by left).
    right; by eexists (SoftDelete _).
  - unfold updateMessageStatus. repeat case_match; try (by left).
    right; by eexists (UpdateStatus _ _).
  - unfold approveRequest. repeat case_match; try (by left).
    all: right; by eexists (SetMembership _ _).
  - unfold rejectRequest. repeat case_match; try (by left).
    all: right; by eexists (SetMembership _ _).
  - unfold deleteProject. repeat case_match; try (by left).
    all: right; by eexists (SetMembership _ _).
Qed.

(** The requests are among the turns of the event loop. *)
Lemma serve1_run s r : ∃ inputs, (run s inputs).1 = serve1 s r.
Proof.
  destruct r as [f now e|f now r]; simpl.
  - destruct (isRequest e); [|by exists []].
    exists [(f, now, e)]. apply run_one.
  - destruct (control_db f now r (db s)) as [->|[st ->]].
    + exists []. by rewrite withDb_id.
    + exists [(f, now, http st)]. by rewrite run_one.
Qed.

Lemma serve_run rs : ∀ s, ∃ inputs, (run s inputs).1 = serve s rs.
Proof.
  induction rs as [|r rs IH]; intros s; [by exists []|].
  destruct (serve1_run s r) as [i1 H1].
  destruct (IH (serve1 s r)) as [i2 H2].
  exists (i1 ++ i2). by rewrite run_app, H1, H2.
Qed.

Lemma served_reachable s : served s → reachable s.
Proof. intros [rs <-]. apply serve_run. Qed.

(** ** Rows outlive every event *)

Section LaterTable.

Implicit Types (d : Db) (m : ChatMessage).

Lemma laterTable_refl d : laterTable d d.
Proof.
  exists (ChatMessages d), []. split; [by rewrite app_nil_r|].
  apply Forall_Forall2_diag, Forall_forall. by intros m _.
Qed.

Lemma laterTable_trans d1 d2 d3 :
  laterTable d1 d2 → laterTable d2 d3 → laterTable d1 d3.
Proof.
  intros (rows1 & new1 & E1 & H1) (rows2 & new2 & E2 & H2).
  rewrite E1 in H2. apply Forall2_app_inv_l in H2 as (k1 & k2 & Hk1 & _ & ->).
  exists k1, (k2 ++ new2). split; [by rewrite E2, app_assoc|].
  eapply Forall2_trans; [|exact H1|exact Hk1].
  intros a b c [Hab Hab'] [Hbc Hbc']. split; [congruence|auto].
Qed.

Lemma updateWhereId_laterTable d messageId f :
  (∀ m, laterRow m (f m)) → laterTable d (updateWhereId d messageId f).
Proof.
  intros Hf. eexists _, []. split; [by rewrite app_nil_r|].
  unfold updateWhereId. simpl. apply Forall2_fmap_r.
  apply Forall_Forall2_diag, Forall_forall. intros m _. simpl.
  case_decide; [apply Hf|done].
Qed.

Lemma execute_laterTable now st d : laterTable d (execute now st d).
Proof.
  destruct st; simpl.
  - eexists (ChatMessages d), [_]. split; [done|].
    apply Forall_Forall2_diag, Forall_forall. by intros m _.
  - by apply updateWhereId_laterTable.
  - by apply updateWhereId_laterTable.
  - by apply updateWhereId_laterTable.
  - apply (laterTable_refl d).
Qed.

Lemma run_laterTable inputs : ∀ s, laterTable (db s) (db (run s inputs).1).
Proof.
  induction inputs as [|i inputs IH]; intros s; [apply laterTable_refl|].
  simpl.
  assert (laterTable (db s) (db (step s i).1)) as H1.
  { destruct (step_db s i) as [->|[st ->]];
      [apply laterTable_refl|apply execute_laterTable]. }
  destruct (step s i) as [s1 out1]. specialize (IH s1).
  destruct (run s1 inputs). simpl in *. by eapply laterTable_trans.
Qed.

End LaterTable.

(** X1. No sequence of socket events, timers, statements or HTTP requests
    removes a row of [ChatMessages] or moves it: the rows of the table stay
    where they are, each keeping its id, project, sender, sender name, reply
    columns and creation time and, once soft-deleted, its flag; new rows
    come after them. *)
Theorem rows_outlive_events (s : State) :
  (∀ inputs,
     laterTable (db s) (db (run s inputs).1)
     ∧ (length (ChatMessages (db s))
        ≤ length (ChatMessages (db (run s inputs).1)))%nat)
  ∧ (∀ rs,
       laterTable (db s) (db (serve s rs))
       ∧ (length (ChatMessages (db s))
          ≤ length (ChatMessages (db (serve s rs))))%nat)
  ∧ (∀ rs i m,
       ChatMessages (db s) !! i = Some m →
       ∃ m', ChatMessages (db (serve s rs)) !! i = Some m'
             ∧ identity m' = identity m
             ∧ (cm_isDeleted m ≠ 0 → cm_isDeleted m' ≠ 0)).
Proof.
  assert (∀ d', laterTable (db s) d' →
                (length (ChatMessages (db s)) ≤ length (ChatMessages d'))%nat)
    as Hlen.
  { intros d' (rows & new & -> & H%Forall2_length).
    rewrite length_app. lia. }
  assert (∀ rs, laterTable (db s) (db (serve s rs))) as Hserve.
  { intros rs. destruct (serve_run rs s) as [inputs <-].
    apply run_laterTable. }
  split; [|split].
  - intros inputs. split; [apply run_laterTable|apply Hlen, run_laterTable].
  - intros rs. split; [apply Hserve|apply Hlen, Hserve].
  - intros rs i m Hm. destruct (Hserve rs) as (rows & new & -> & H).
    destruct (Forall2_lookup_l _ _ _ _ _ H Hm) as (m' & Hm' & Hid & Hdel).
    exists m'. split; [|done]. by apply lookup_app_l_Some.
Qed.

Lemma rows_outlive_events_witness :
  ∃ m', ChatMessages
          (db (serve (run initial one_message).1
                 [web no_faults 5000 (DELETE_message 1 (Some 7))]))
        !! 0%nat = Some m'
        ∧ identity m'
          = identity (sentRow (db (run initial member_joined).1) 1000 7 7
                        (of_string "A") (of_string "hi") None None)
        ∧ (cm_isDeleted
             (sentRow (db (run initial member_joined).1) 1000 7 7
                (of_string "A") (of_string "hi") None None) ≠ 0 →
           cm_isDeleted m' ≠ 0).
Proof.
  apply (proj2 (proj2 (rows_outlive_events (run initial one_message).1))
           [web no_faults 5000 (DELETE_message 1 (Some 7))] 0%nat).
  vm_compute. reflexivity.
Defined.

(** ** Stored content *)

Section StoredContent.

Implicit Types (d : Db) (m : ChatMessage).

Lemma validate_trim v c : validate v = Content c → v = Str c ∧ trim c ≠ [].
Proof.
  unfold validate. destruct v as [| |n|x]; simpl; try done.
  - by case_match.
  - case_bool_decide; simpl; [done|]. case_decide; [done|]. by intros [= <-].
Qed.

Lemma insertMessage_contentOk d now projectId senderId senderName content
    rid ruid rn rc :
  contentOk d → trim content ≠ [] →
  contentOk (insertMessage d now projectId senderId senderName content
               rid ruid rn rc).
Proof.
  intros Hd Hc m. unfold insertMessage. simpl.
  intros [Hm| ->%list_elem_of_singleton]%elem_of_app; [by apply Hd|done].
Qed.

Lemma updateWhereId_contentOk d messageId f :
  contentOk d →
  (∀ m, trim (cm_messageContent m) ≠ [] → trim (cm_messageContent (f m)) ≠ []) →
  contentOk (updateWhereId d messageId f).
Proof.
  intros Hd Hf m. unfold updateWhereId. simpl.
  intros (m0 & -> & Hm0)%list_elem_of_fmap.
  case_decide; [apply Hf|]; by apply Hd.
Qed.

Lemma on_send_message_contentOk f now sid projectId senderId senderName
    messageContent replyToMessageId replyToUserId s :
  contentOk (db s) →
  contentOk (db (on_send_message f now sid projectId senderId senderName
                   messageContent replyToMessageId replyToUserId s).1).
Proof.
  intros Hd. unfold on_send_message.
  destruct (rateLimit (userMessageRateLimit s) senderId now) as [[] rl];
    [|done].
  destruct (validate messageContent) as [| |c] eqn:Hv; [done..|].
  apply validate_trim in Hv as [_ Hc].
  destruct (member_err f); [done|]. simpl.
  destruct (isProjectMember (db s) projectId senderId); [|done].
  destruct (truthyId replyToMessageId && read_err f); [done|].
  destruct (replySnapshot (db s) replyToMessageId) as [rn rc].
  destruct (write_err f); [done|].
  destruct (fetch_err f); [by apply insertMessage_contentOk|].
  match goal with
  | |- context [clearTypingIndicator ?p ?u ?x] =>
      pose proof (clearTypingIndicator_frame p u x) as (_ & Hdb & _);
      destruct (clearTypingIndicator p u x) as [s3 out]
  end.
  simpl in *. rewrite Hdb. by apply insertMessage_contentOk.
Qed.

Lemma step_contentOk f now e s :
  isRequest e = true → contentOk (db s) →
  contentOk (db (step s (f, now, e)).1).
Proof.
  intros He Hd. unfold step.
  destruct (origin e) as [sid|];
    [destruct (sockets s !! sid) as [sock|]; [|done]|];
    destruct e; simpl.
  all: try by rewrite ?on_typing_db, ?on_disconnect_db, ?on_timer_db.
  all: try by apply on_send_message_contentOk.
  all: try (unfold on_connection, on_join_project_chat; by repeat case_match).
  all: try (unfold on_stop_typing;
            by pose proof (clearTypingIndicator_frame projectId userId s)
              as (_ & -> & _)).
  all: try (unfold on_delete_message; repeat case_match; try done;
            by apply updateWhereId_contentOk).
  all: try (unfold on_edit_message;
            destruct (validate messageContent) as [| |c] eqn:Hv; [done..|];
            apply validate_trim in Hv as [_ Hc];
            repeat case_match; try done;
            by apply updateWhereId_contentOk).
  all: by destruct st.
Qed.

Lemma control_contentOk f now r d :
  contentOk d → contentOk (control f now r d).1.
Proof.
  intros Hd. destruct r; simpl.
  - unfold sendMessage. repeat case_match; try done.
    all: by apply insertMessage_contentOk.
  - unfold editMessage. repeat case_match; try done.
    all: by apply updateWhereId_contentOk.
  - unfold deleteMessage. repeat case_match; try done.
    by apply updateWhereId_contentOk.
  - unfold updateMessageStatus. repeat case_match; try done.
    by apply updateWhereId_contentOk.
  - unfold approveRequest. by repeat case_match.
  - unfold rejectRequest. by repeat case_match.
  - unfold deleteProject. by repeat case_match.
Qed.

Lemma serve_contentOk rs : ∀ s, contentOk (db s) → contentOk (db (serve s rs)).
Proof.
  induction rs as [|r rs IH]; intros s Hs; [done|].
  simpl. apply IH. destruct r as [f now e|f now r]; simpl.
  - destruct (isRequest e) eqn:He; [|done]. by apply step_contentOk.
  - by apply control_contentOk.
Qed.

End StoredContent.

(** X2. Starting from an empty store, however the requests come (socket
    events, timers, HTTP requests to the chat and membership controllers),
    no row of [ChatMessages] ever holds content that is empty or white space
    only: the two send paths and the two edit paths store a string only
    after [trim] left something of it. *)
Theorem stored_content_never_blank (s : State) :
  served s →
  ∀ m, m ∈ ChatMessages (db s) →
       cm_messageContent m ≠ []
       ∧ ¬ Forall (λ c, isWhiteSpace c = true) (cm_messageContent m).
Proof.
  intros [rs <-].
  assert (contentOk (db (serve initial rs))) as Hok.
  { apply serve_contentOk. by intros m ?%not_elem_of_nil. }
  intros m Hm. specialize (Hok m Hm). split.
  - by intros E; rewrite E in Hok.
  - by intros ?%trim_nil.
Qed.

Lemma stored_content_never_blank_witness :
  of_string "hi" ≠ []
  ∧ ¬ Forall (λ c, isWhiteSpace c = true) (of_string "hi").
Proof.
  apply (stored_content_never_blank (serve initial (requests one_message))
           (ex_intro _ (requests one_message) eq_refl)
           (mkChatMessage 1 7 7 (of_string "A") (of_string "hi") None None
              None None sent 0 None 1 1)).
  vm_compute. left.
Defined.

(** ** The HTTP controllers *)

Section Controllers.

Implicit Types (d : Db) (m : ChatMessage) (pm : ProjectMember).

Lemma fmap_if_none {A} (P : A → Prop) `{!∀ x, Decision (P x)} (g : A → A)
    (l : list A) :
  length (filter P l) = 0%nat →
  (λ x, if decide (P x) then g x else x) <$> l = l.
Proof.
  induction l as [|a l IH]; [done|]. rewrite filter_cons. csimpl.
  destruct (decide (P a)); [done|]. intros Hlen. by rewrite IH.
Qed.

Lemma filter_not_none {A} (P : A → Prop) `{!∀ x, Decision (P x)}
    (l : list A) :
  length (filter P l) = 0%nat → filter (λ x, ¬ P x) l = l.
Proof.
  induction l as [|a l IH]; [done|]. rewrite !filter_cons.
  destruct (decide (P a)); [done|]. intros Hlen.
  rewrite decide_True by done. by rewrite IH.
Qed.

Lemma updateWhereId_absent d messageId f :
  (∀ m, m ∈ ChatMessages d → cm_id m ≠ messageId) →
  updateWhereId d messageId f = d.
Proof.
  intros Habs. unfold updateWhereId, withMessages. destruct d as [rows q pms ps].
  simpl in *. f_equal.
  induction rows as [|a rows IH]; [done|]. csimpl.
  rewrite decide_False by (apply Habs; by left).
  f_equal. apply IH. intros m Hm. apply Habs. by right.
Qed.

End Controllers.

(** X3. A controller that answers with a 4xx status (or throws before its
    [try] block) has changed nothing: the three tables are as they were.
    This covers [sendMessage], [editMessage], [deleteMessage],
    [updateMessageStatus], [approveRequest], [rejectRequest] and
    [deleteProject]. *)
Theorem client_errors_change_nothing (f : faults) (now : Z) (r : httpRequest)
    (d : Db) :
  match (control f now r d).2 with
  | Responded status _ _ => 400 ≤ status < 500 → (control f now r d).1 = d
  | Unhandled => (control f now r d).1 = d
  end.
Proof.
  destruct r; simpl.
  - unfold sendMessage.
    repeat case_match; simplify_eq/=; try done; intros; lia.
  - unfold editMessage.
    repeat case_match; simplify_eq/=; try done; intros; lia.
  - unfold deleteMessage.
    repeat case_match; simplify_eq/=; try done; intros; lia.
  - unfold updateMessageStatus.
    repeat case_match; simplify_eq/=; try done; intros; lia.
  - unfold approveRequest.
    repeat case_match; simplify_eq/=; try done; try (intros; lia).
    intros _. rewrite fmap_if_none by done. apply withMembership_id.
  - unfold rejectRequest.
    repeat case_match; simplify_eq/=; try done; try (intros; lia).
    intros _. rewrite filter_not_none by done. apply withMembership_id.
  - unfold deleteProject.
    repeat case_match; simplify_eq/=; try done; intros; lia.
Qed.

Lemma client_errors_change_nothing_witness :
  (control no_faults 5000 (DELETE_message 1 (Some 8))
     (db (run initial one_message).1)).1
  = db (run initial one_message).1.
Proof.
  assert (400 ≤ 403 < 500 →
          (control no_faults 5000 (DELETE_message 1 (Some 8))
             (db (run initial one_message).1)).1
          = db (run initial one_message).1) as H.
  { exact (client_errors_change_nothing no_faults 5000
             (DELETE_message 1 (Some 8)) (db (run initial one_message).1)). }
  apply H. lia.
Defined.

(** X4. The HTTP [sendMessage] and the socket [send-message] are one store
    path: for a request with a project id, a sender id and a sender name,
    whenever the rate limiter admits the socket send the two leave the same
    tables, whatever the content, the membership and the database errors.
    The HTTP path has no rate limiter: a member's valid message is stored
    and answered 201 with the stored row also when the limiter rejects the
    socket send, which then stores nothing. *)
Theorem send_paths_agree (s : State) (f : faults)
    (now sid projectId senderId : Z) (senderName : jsstring)
    (messageContent : value) (replyToMessageId replyToUserId : option Z) :
  projectId ≠ 0 → senderId ≠ 0 → senderName ≠ [] →
  let socket := on_send_message f now sid projectId senderId senderName
                  messageContent replyToMessageId replyToUserId s in
  let web := sendMessage f now (Some projectId) (Some senderId)
               (Some senderName) messageContent replyToMessageId
               replyToUserId (db s) in
  ((rateLimit (userMessageRateLimit s) senderId now).1 = Allowed →
   db socket.1 = web.1)
  ∧ ((rateLimit (userMessageRateLimit s) senderId now).1 = Rejected →
     db socket.1 = db s)
  ∧ (∀ content,
       validate messageContent = Content content →
       is_Some (isProjectMember (db s) projectId senderId) →
       f = no_faults →
       web = (withMessages (db s)
                (ChatMessages (db s)
                 ++ [sentRow (db s) now projectId senderId senderName content
                       replyToMessageId replyToUserId])
                (lastID (db s)),
              Responded 201 "Message sent successfully"
                (Some (sentRow (db s) now projectId senderId senderName
                         content replyToMessageId replyToUserId)))).
Proof.
  intros Hp Hu Hn socket web.
  assert (truthyId (Some projectId) = true) as Tp
    by (simpl; by destruct (Z.eqb_spec projectId 0)).
  assert (truthyId (Some senderId) = true) as Tu
    by (simpl; by destruct (Z.eqb_spec senderId 0)).
  assert (truthyStr (Some senderName) = true) as Tn
    by by destruct senderName.
  split; [|split].
  - intros Hrate. subst socket web. unfold on_send_message, sendMessage.
    destruct (rateLimit (userMessageRateLimit s) senderId now) as [v rl].
    simpl in Hrate. subst v. rewrite Tp, Tu, Tn. simpl.
    unfold validate.
    destruct messageContent as [| |n|x]; simpl; try done.
    { by destruct (negb (n =? 0)). }
    destruct (bool_decide (x = [])); simpl; [done|].
    destruct (decide (trim x = [])); [done|].
    destruct (member_err f); [done|]. simpl.
    destruct (isProjectMember (db s) projectId senderId); [|done].
    destruct (truthyId replyToMessageId && read_err f); [done|].
    destruct (replySnapshot (db s) replyToMessageId) as [rn rc].
    destruct (write_err f); [done|]. destruct (fetch_err f); [done|].
    match goal with
    | |- context [clearTypingIndicator ?p ?u ?x] =>
        pose proof (clearTypingIndicator_frame p u x) as (_ & Hdb & _);
        destruct (clearTypingIndicator p u x) as [s3 out]
    end.
    simpl in *. by rewrite Hdb.
  - intros Hrate. subst socket. unfold on_send_message.
    destruct (rateLimit (userMessageRateLimit s) senderId now) as [v rl].
    simpl in Hrate. by subst v.
  - intros content [-> Hc]%validate_trim [mem Hmem] ->. subst web.
    unfold sendMessage, sentRow. rewrite Tp, Tu, Tn. simpl.
    assert (content ≠ []) as Hne by (by intros ->).
    rewrite bool_decide_eq_false_2 by done. simpl.
    rewrite decide_False by done. rewrite Hmem, andb_false_r.
    destruct (replySnapshot (db s) replyToMessageId) as [rn rc]. simpl.
    by rewrite selectById_inserted.
Qed.

Lemma send_paths_agree_witness :
  (sendMessage no_faults 2000 (Some 7) (Some 7) (Some (of_string "A"))
     (txt "late") None None (db (run initial five_sends).1)).2
  = Responded 201 "Message sent successfully"
      (Some (mkChatMessage 6 7 7 (of_string "A") (of_string "late") None None
               None None sent 0 None 2 2)).
Proof.
  pose proof (send_paths_agree (run initial five_sends).1 no_faults 2000 1 7 7
                (of_string "A") (txt "late") None None) as H.
  destruct H as (_ & _ & H); [lia|lia|discriminate|].
  rewrite (H (of_string "late")).
  - reflexivity.
  - vm_compute. reflexivity.
  - vm_compute. eauto.
  - reflexivity.
Defined.

(** X5. [updateMessageStatus] checks the status only. With one of the three
    statuses and the store succeeding it answers 200 whether or not a
    message has the id; when none has, the table is unchanged. A row with
    the id, soft-deleted or not, takes the status and a new [updatedAt] and
    keeps its other columns. Any other status, or none, is answered 400. *)
Theorem status_update_unchecked (f : faults) (now messageId : Z)
    (status : option string) (d : Db) :
  (parseStatus status = None ↔
   status ≠ Some "sent"%string ∧ status ≠ Some "delivered"%string
   ∧ status ≠ Some "read"%string)
  ∧ (parseStatus status = None →
     updateMessageStatus f now messageId status d
     = (d, Responded 400 "Valid status is required (sent, delivered, read)"
             None))
  ∧ (∀ st,
       parseStatus status = Some st → write_err f = false →
       let d' := (updateMessageStatus f now messageId status d).1 in
       (updateMessageStatus f now messageId status d).2
       = Responded 200 "Message status updated successfully" None
       ∧ ((∀ m, m ∈ ChatMessages d → cm_id m ≠ messageId) → d' = d)
       ∧ (∀ m, m ∈ ChatMessages d → cm_id m = messageId →
               setStatus st (CURRENT_TIMESTAMP now) m ∈ ChatMessages d')
       ∧ (∀ m, cm_messageStatus (setStatus st (CURRENT_TIMESTAMP now) m) = st
               ∧ cm_updatedAt (setStatus st (CURRENT_TIMESTAMP now) m)
                 = CURRENT_TIMESTAMP now
               ∧ cm_isDeleted (setStatus st (CURRENT_TIMESTAMP now) m)
                 = cm_isDeleted m
               ∧ cm_messageContent (setStatus st (CURRENT_TIMESTAMP now) m)
                 = cm_messageContent m
               ∧ cm_editedAt (setStatus st (CURRENT_TIMESTAMP now) m)
                 = cm_editedAt m
               ∧ identity (setStatus st (CURRENT_TIMESTAMP now) m)
                 = identity m)).
Proof.
  split; [|split].
  - unfold parseStatus. destruct status as [x|]; [|by split].
    repeat case_decide; subst;
      (split; [try done; intros _; repeat split; congruence
              |try done; intros (?&?&?); congruence]).
  - intros H. unfold updateMessageStatus. by rewrite H.
  - intros st Hst Hw d'. subst d'. unfold updateMessageStatus.
    rewrite Hst, Hw. simpl. split; [done|]. split; [|split].
    + intros Habs. by apply updateWhereId_absent.
    + intros m Hm Hid. unfold updateStatus, updateWhereId. simpl.
      apply list_elem_of_fmap. exists m. by rewrite decide_True.
    + done.
Qed.

Lemma status_update_unchecked_witness :
  (updateMessageStatus no_faults 9000 42 (Some "read"%string)
     (db (run initial one_message).1)).2
  = Responded 200 "Message status updated successfully" None.
Proof.
  apply (status_update_unchecked no_faults 9000 42 (Some "read"%string)
           (db (run initial one_message).1)) with (st := read);
    reflexivity.
Defined.

(** ** Deleted and edited messages *)

Section EditDelete.

Implicit Types (d : Db) (m : ChatMessage).

Lemma filter_id_absent (l : list ChatMessage) messageId
    (g : ChatMessage → ChatMessage) :
  (∀ x, cm_id (g x) = cm_id x) →
  messageId ∉ cm_id <$> l →
  filter (λ x, cm_id x = messageId) (g <$> l) = [].
Proof.
  intros Hg. induction l as [|a l IH]; [done|]. csimpl.
  intros [Ha Hl]%not_elem_of_cons.
  rewrite filter_cons_False by (by rewrite Hg). by apply IH.
Qed.

(** With unique keys, the row of an id after an [UPDATE ... WHERE id = ?]. *)
Lemma filter_id_updated (l : list ChatMessage) m
    (f : ChatMessage → ChatMessage) :
  (∀ x, cm_id (f x) = cm_id x) →
  NoDup (cm_id <$> l) → m ∈ l →
  filter (λ x, cm_id x = cm_id m)
    ((λ x, if decide (cm_id x = cm_id m) then f x else x) <$> l)
  = [f m].
Proof.
  intros Hf. induction l as [|a l IH]; [by intros _ ?%not_elem_of_nil|].
  csimpl. intros [Ha Hnd]%NoDup_cons Hm.
  assert (∀ x, cm_id (if decide (cm_id x = cm_id m) then f x else x)
               = cm_id x) as Hg.
  { intros x. by case_decide. }
  apply elem_of_cons in Hm as [->|Hm].
  - rewrite decide_True by done. rewrite filter_cons_True by apply Hf.
    f_equal. by apply filter_id_absent.
  - assert (cm_id a ≠ cm_id m) as Hne.
    { intros E. apply Ha. rewrite E. by apply list_elem_of_fmap_2. }
    rewrite decide_False by done. rewrite filter_cons_False by done.
    by apply IH.
Qed.

Lemma selectById_updated d m f :
  (∀ x, cm_id (f x) = cm_id x) → keys_unique d → m ∈ ChatMessages d →
  selectById (updateWhereId d (cm_id m) f) (cm_id m) = Some (f m).
Proof.
  intros Hf Hnd Hm. unfold selectById, updateWhereId. simpl.
  by rewrite filter_id_updated.
Qed.

End EditDelete.



(** X7. An edit that succeeds over the socket (the message is found live, it
    is the requester's, the content is a non-blank string, the store reports
    no error) replaces the content as sent, untrimmed, stamps [editedAt] and
    [updatedAt], and broadcasts [message-edited] with the updated row to the
    room of the message's project. The message stays live and keeps its
    identity; the rows with another id are untouched. *)
Theorem edit_updates_and_broadcasts (s : State) (now sid messageId userId : Z)
    (messageContent : value) (content : jsstring) (message : ChatMessage) :
  reachable s →
  selectLive (db s) messageId = Some message →
  cm_senderId message = userId →
  validate messageContent = Content content →
  let res := on_edit_message no_faults now sid messageId userId
               messageContent s in
  let edited := setContent content (CURRENT_TIMESTAMP now) message in
  res.2 = [(io_to (cm_projectId message), message_edited (Some edited))]
  ∧ messageContent = Str content
  ∧ cm_messageContent edited = content
  ∧ cm_editedAt edited = Some (CURRENT_TIMESTAMP now)
  ∧ cm_updatedAt edited = CURRENT_TIMESTAMP now
  ∧ identity edited = identity message
  ∧ selectLive (db res.1) messageId = Some edited
  ∧ (∀ m, m ∈ ChatMessages (db s) → cm_id m ≠ messageId →
          m ∈ ChatMessages (db res.1))
  ∧ length (ChatMessages (db res.1)) = length (ChatMessages (db s)).
Proof.
  intros Hreach Hsel Hown Hvalid res edited.
  destruct (reachable_db_wf s Hreach) as [Hnd _].
  destruct (selectLive_Some _ _ _ Hsel) as (Hin & Hid & Hlive).
  assert (res = (withDb s (updateContent (db s) now messageId content),
                 [(io_to (cm_projectId message),
                   message_edited (Some edited))])) as ->.
  { subst res. unfold on_edit_message. rewrite Hvalid. simpl. rewrite Hsel.
    rewrite decide_False by (by intros []). simpl.
    unfold updateContent. rewrite <- Hid.
    by rewrite selectById_updated. }
  simpl. split; [done|]. split; [by apply validate_trim in Hvalid as [-> _]|].
  do 4 (split; [done|]). split; [|split].
  - rewrite <- Hid.
    change (cm_id message) with (cm_id edited) at 2.
    apply selectLive_unique; [| |done].
    + unfold keys_unique, updateContent.
      by rewrite updateWhereId_keys.
    + unfold updateContent, updateWhereId. simpl.
      apply list_elem_of_fmap. exists message. by rewrite decide_True.
  - intros m Hm Hne. unfold updateContent, updateWhereId. simpl.
    apply list_elem_of_fmap. exists m. by rewrite decide_False.
  - unfold updateContent, updateWhereId. simpl. apply length_fmap.
Qed.

Lemma edit_updates_and_broadcasts_witness :
  (on_edit_message no_faults 9000 1 1 7 (txt " bye ")
     (run initial one_message).1).2
  = [(io_to 7,
      message_edited
        (Some (mkChatMessage 1 7 7 (of_string "A") (of_string " bye ") None
                 None None None sent 0 (Some 9) 1 9)))].
Proof.
  apply (edit_updates_and_broadcasts (run initial one_message).1 9000 1 1 7
           (txt " bye ") (of_string " bye ")
           (mkChatMessage 1 7 7 (of_string "A") (of_string "hi") None None
              None None sent 0 None 1 1)).
  - exists one_message. reflexivity.
  - vm_compute. reflexivity.
  - reflexivity.
  - vm_compute. reflexivity.
Defined.

(** ** Membership controllers *)

Section Membership.

Implicit Types (d : Db) (pm : ProjectMember).

Lemma filter_length_0 {A} (P : A → Prop) `{!∀ x, Decision (P x)} (l : list A) :
  length (filter P l) = 0%nat ↔ ∀ x, x ∈ l → ¬ P x.
Proof.
  rewrite length_zero_iff_nil. split.
  - intros E x Hx HP. by eapply (filter_nil_not_elem_of P l x).
  - intros Hall. induction l as [|a l IH]; [done|].
    rewrite filter_cons_False by (apply Hall; by left).
    apply IH. intros x Hx. apply Hall. by right.
Qed.

(** The approved rows after the UPDATE of [approveRequest]. *)
Lemma approvedRow_approve d projectId userId p u :
  approvedRow
    (withMembership d
       ((λ pm, if decide (pendingRequest projectId userId pm)
               then setApproved pm else pm) <$> ProjectMembers d)
       (Projects d)) p u
  ↔ approvedRow d p u
    ∨ (p = projectId ∧ u = userId
       ∧ ∃ pm, pm ∈ ProjectMembers d ∧ pendingRequest projectId userId pm).
Proof.
  unfold approvedRow. simpl. split.
  - intros (pm' & (pm & -> & Hpm)%list_elem_of_fmap & Hp & Hu & Hst).
    case_decide as Hc.
    + right. destruct Hc as (? & ? & ?). simpl in *.
      repeat split; [congruence..|]. exists pm. by repeat split.
    + left. by exists pm.
  - intros [(pm & Hpm & Hp & Hu & Hst)|(-> & -> & pm & Hpm & Hc)].
    + exists pm. split; [|done]. apply list_elem_of_fmap. exists pm.
      split; [|done]. rewrite decide_False; [done|].
      intros (_ & _ & E). congruence.
    + exists (setApproved pm). destruct Hc as (? & ? & ?).
      split; [|done]. apply list_elem_of_fmap. exists pm.
      by rewrite decide_True.
Qed.

End Membership.

(** X8. [approveRequest] turns the pending request of a user into chat
    membership: with a pending row for the pair it answers 200, the pair
    has an approved row and, the project existing, [isProjectMember] finds
    it. Without a pending row (no request, or one already approved) it
    answers 404 and changes nothing. In both cases no other pair gains or
    loses an approved row, no pending request of the pair is left, and the
    messages and projects are untouched. *)
Theorem approve_grants_membership (f : faults) (projectId userId : Z)
    (d : Db) :
  write_err f = false →
  let res := approveRequest f projectId userId d in
  ChatMessages res.1 = ChatMessages d
  ∧ Projects res.1 = Projects d
  ∧ ((∃ pm, pm ∈ ProjectMembers d ∧ pendingRequest projectId userId pm) →
     res.2 = Responded 200 "Join request approved successfully" None
     ∧ approvedRow res.1 projectId userId
     ∧ (projectRow d projectId →
        is_Some (isProjectMember res.1 projectId userId)))
  ∧ ((∀ pm, pm ∈ ProjectMembers d → ¬ pendingRequest projectId userId pm) →
     res = (d, Responded 404 "Request not found or already processed" None))
  ∧ (∀ p u, ¬ (p = projectId ∧ u = userId) →
            approvedRow res.1 p u ↔ approvedRow d p u)
  ∧ (∀ pm, pm ∈ ProjectMembers res.1 →
           ¬ pendingRequest projectId userId pm).
Proof.
  intros Hw res. subst res. unfold approveRequest. rewrite Hw.
  set (d' := withMembership d _ _).
  assert (approvedRow d' projectId userId
          ↔ approvedRow d projectId userId
            ∨ ∃ pm, pm ∈ ProjectMembers d
                    ∧ pendingRequest projectId userId pm) as Hpair.
  { subst d'. rewrite approvedRow_approve. tauto. }
  assert (∀ p u, ¬ (p = projectId ∧ u = userId) →
                 approvedRow d' p u ↔ approvedRow d p u) as Hother.
  { intros p u Hne. subst d'. rewrite approvedRow_approve. tauto. }
  assert (∀ pm, pm ∈ ProjectMembers d' →
                ¬ pendingRequest projectId userId pm) as Hleft.
  { subst d'. simpl. intros pm' (pm & -> & Hpm)%list_elem_of_fmap.
    case_decide as Hc; [|done]. by intros (_ & _ & ?). }
  destruct (decide (length (filter (pendingRequest projectId userId)
                              (ProjectMembers d)) = 0%nat)) as [Hz|Hnz];
    simpl; (split; [done|]); (split; [done|]);
    (split; [|split; [|split; [done|done]]]).
  - intros (pm & Hpm & Hc). rewrite filter_length_0 in Hz.
    by destruct (Hz pm).
  - intros _. f_equal. subst d'.
    rewrite fmap_if_none by done. apply withMembership_id.
  - intros Hex. split; [done|].
    assert (approvedRow d' projectId userId) as Ha by (apply Hpair; by right).
    split; [done|]. intros Hproj. apply isProjectMember_Some. by split.
  - intros Hnone. destruct Hnz. by apply filter_length_0.
Qed.

Lemma approve_grants_membership_witness :
  is_Some (isProjectMember
             (approveRequest no_faults 7 8 (db (run initial member_joined).1)).1
             7 8)
  ∧ isProjectMember (db (run initial member_joined).1) 7 8 = None.
Proof.
  split; [|reflexivity].
  apply (approve_grants_membership no_faults 7 8
           (db (run initial member_joined).1) eq_refl).
  - exists (mkProjectMember 2 7 8 "pending"). split; [|done].
    vm_compute. right. left.
  - exists (mkProject 7 7). split; [|done]. vm_compute. left.
Defined.

(** X9. [rejectRequest] deletes pending requests only: every pair keeps
    exactly the approved rows it had, so no member loses the chat, and the
    messages and projects are untouched. A pending request of the pair is
    deleted with 200; without one the answer is 404 and nothing changes.
    Afterwards the pair has no pending request, and an approval of it
    answers 404. *)
Theorem reject_removes_only_pending (f : faults) (projectId userId : Z)
    (d : Db) :
  write_err f = false →
  let res := rejectRequest f projectId userId d in
  ChatMessages res.1 = ChatMessages d
  ∧ Projects res.1 = Projects d
  ∧ (∀ p u, approvedRow res.1 p u ↔ approvedRow d p u)
  ∧ (∀ p u, is_Some (isProjectMember res.1 p u)
            ↔ is_Some (isProjectMember d p u))
  ∧ ((∃ pm, pm ∈ ProjectMembers d ∧ pendingRequest projectId userId pm) →
     res.2 = Responded 200 "Join request rejected" None)
  ∧ ((∀ pm, pm ∈ ProjectMembers d → ¬ pendingRequest projectId userId pm) →
     res = (d, Responded 404 "Request not found or already processed" None))
  ∧ (∀ pm, pm ∈ ProjectMembers res.1 →
           ¬ pendingRequest projectId userId pm)
  ∧ approveRequest f projectId userId res.1
    = (res.1, Responded 404 "Request not found or already processed" None).
Proof.
  intros Hw res. subst res. unfold rejectRequest. rewrite Hw.
  set (d' := withMembership d _ _).
  assert (∀ p u, approvedRow d' p u ↔ approvedRow d p u) as Happ.
  { intros p u. unfold approvedRow. subst d'. simpl. split.
    - intros (pm & [_ Hpm]%list_elem_of_filter & H). by exists pm.
    - intros (pm & Hpm & Hp & Hu & Hst). exists pm. split; [|done].
      apply list_elem_of_filter. split; [|done].
      intros (_ & _ & E). congruence. }
  assert (∀ pm, pm ∈ ProjectMembers d' →
                ¬ pendingRequest projectId userId pm) as Hleft.
  { subst d'. simpl. by intros pm [? _]%list_elem_of_filter. }
  assert (∀ p u, is_Some (isProjectMember d' p u)
                 ↔ is_Some (isProjectMember d p u)) as Hmem.
  { intros p u. rewrite !isProjectMember_Some, Happ. done. }
  assert (approveRequest f projectId userId d'
          = (d', Responded 404 "Request not found or already processed" None))
    as Hagain.
  { unfold approveRequest. rewrite Hw.
    rewrite decide_True by by apply filter_length_0.
    f_equal. rewrite fmap_if_none by by apply filter_length_0.
    apply withMembership_id. }
  destruct (decide (length (filter (pendingRequest projectId userId)
                              (ProjectMembers d)) = 0%nat)) as [Hz|Hnz];
    simpl; do 4 (split; [done|]);
    (split; [|split; [|split; [done|done]]]).
  - intros (pm & Hpm & Hc). rewrite filter_length_0 in Hz.
    by destruct (Hz pm).
  - intros _. f_equal. subst d'.
    rewrite filter_not_none by done. apply withMembership_id.
  - done.
  - intros Hnone. destruct Hnz. by apply filter_length_0.
Qed.

Lemma reject_removes_only_pending_witness :
  (rejectRequest no_faults 7 8 (db (run initial member_joined).1)).2
  = Responded 200 "Join request rejected" None.
Proof.
  apply (reject_removes_only_pending no_faults 7 8
           (db (run initial member_joined).1) eq_refl).
  exists (mkProjectMember 2 7 8 "pending"). split; [|done].
  vm_compute. right. left.
Defined.

(** X10. [deleteProject] by the owner deletes the members first, then the
    tasks, then the project, and never touches [ChatMessages]. Once the
    members are deleted nobody is a chat member of the project any more and
    [getChatHistory] answers 403 to everybody, while the message rows are
    all still in the table. If the DELETE of the tasks or of the project
    then fails, the project is left in place without a single member, its
    owner included. With no failure the project row is gone as well. The
    membership of the other projects is untouched throughout. *)
Theorem delete_project_locks_chat (failAt : option nat) (id : Z)
    (userId : option Z) (d : Db) (project : Project) :
  head (filter (λ p, p_id p = id) (Projects d)) = Some project →
  userId = Some (p_authorId project) →
  let res := deleteProject failAt id userId d in
  ChatMessages res.1 = ChatMessages d
  ∧ (failAt = Some 0%nat ∨ failAt = Some 1%nat → res.1 = d)
  ∧ (failAt ≠ Some 0%nat → failAt ≠ Some 1%nat →
     (∀ u, isProjectMember res.1 id u = None)
     ∧ (∀ f u page limit,
          member_err f = false →
          getChatHistory f res.1 id (Some u) page limit
          = (403, failure "You must be a project member to view chat")))
  ∧ (failAt = Some 2%nat ∨ failAt = Some 3%nat →
     projectRow res.1 id ∧ ∃ message, res.2 = Responded 500 message None)
  ∧ (failAt = None →
     res.2 = Responded 200
               "Project and all associated data deleted successfully" None
     ∧ ¬ projectRow res.1 id)
  ∧ (∀ p u, p ≠ id →
            (approvedRow res.1 p u ↔ approvedRow d p u)
            ∧ (projectRow res.1 p ↔ projectRow d p)).
Proof.
  intros Hproj -> res. subst res. unfold deleteProject. rewrite Hproj.
  rewrite (decide_False (P := Some (p_authorId project)
                              ≠ Some (p_authorId project))) by (by intros []).
  assert (project ∈ Projects d ∧ p_id project = id) as [Hin Hid].
  { apply head_Some_elem_of, list_elem_of_filter in Hproj. tauto. }
  set (d1 := withMembership d
               (filter (λ pm, pm_projectId pm ≠ id) (ProjectMembers d))
               (Projects d)).
  set (d2 := withMembership d1 (ProjectMembers d1)
               (filter (λ p, p_id p ≠ id) (Projects d1))).
  assert (∀ d', ProjectMembers d' = ProjectMembers d1 →
                ∀ u, isProjectMember d' id u = None) as Hnone.
  { intros d' E u. apply isProjectMember_None.
    intros [(pm & Hpm & Hp & _) _]. rewrite E in Hpm. subst d1. simpl in Hpm.
    by apply list_elem_of_filter in Hpm as [? _]. }
  assert (∀ d', ProjectMembers d' = ProjectMembers d1 →
                ∀ p u, p ≠ id → approvedRow d' p u ↔ approvedRow d p u)
    as Happ.
  { intros d' E p u Hne. unfold approvedRow. rewrite E. subst d1. simpl.
    split.
    - intros (pm & [_ Hpm]%list_elem_of_filter & H). by exists pm.
    - intros (pm & Hpm & Hp & H). exists pm. split; [|done].
      apply list_elem_of_filter. split; [congruence|done]. }
  assert (∀ p, p ≠ id → projectRow d2 p ↔ projectRow d p) as Hrow2.
  { intros p Hne. unfold projectRow. subst d2 d1. simpl. split.
    - intros (x & [_ Hx]%list_elem_of_filter & H). by exists x.
    - intros (x & Hx & H). exists x. split; [|done].
      apply list_elem_of_filter. split; [congruence|done]. }
  assert (¬ projectRow d2 id) as Hgone.
  { unfold projectRow. subst d2 d1. simpl.
    by intros (x & [? _]%list_elem_of_filter & ?). }
  assert (∀ d', (∀ u, isProjectMember d' id u = None) →
                ∀ f u page limit,
                  member_err f = false →
                  getChatHistory f d' id (Some u) page limit
                  = (403, failure "You must be a project member to view chat"))
    as Hhist.
  { intros d' H f u page limit Hf. unfold getChatHistory.
    by rewrite Hf, H. }
  assert (projectRow d1 id) as Hrow1 by by exists project.
  destruct (decide (failAt = Some 0%nat)) as [->|H0].
  { simpl. split; [done|]. split; [done|].
    split; [intros H; by destruct H|]. split; [by intros [|]|].
    split; [done|]. by intros. }
  destruct (decide (failAt = Some 1%nat)) as [->|H1].
  { simpl. split; [done|]. split; [done|].
    split; [intros _ H; by destruct H|]. split; [by intros [|]|].
    split; [done|]. by intros. }
  assert (failAt = Some 0%nat ∨ failAt = Some 1%nat → False) as H01
    by by intros [|].
  destruct (decide (failAt = Some 2%nat)) as [->|H2].
  { simpl. split; [done|]. split; [by intros ?%H01|]. split.
    { intros _ _. split; [by apply Hnone|]. by apply Hhist, Hnone. }
    split; [intros _; split; [done|by eexists]|]. split; [done|].
    intros p u Hne. split; [by apply Happ|done]. }
  destruct (decide (failAt = Some 3%nat)) as [->|H3].
  { simpl. split; [done|]. split; [by intros ?%H01|]. split.
    { intros _ _. split; [by apply Hnone|]. by apply Hhist, Hnone. }
    split; [intros _; split; [done|by eexists]|]. split; [done|].
    intros p u Hne. split; [by apply Happ|done]. }
  simpl. split; [done|]. split; [by intros ?%H01|]. split.
  { intros _ _. split; [by apply Hnone|]. by apply Hhist, Hnone. }
  split; [by intros [|]|]. split; [done|].
  intros p u Hne. split; [by apply Happ|by apply Hrow2].
Qed.

Lemma delete_project_locks_chat_witness :
  ChatMessages
    (deleteProject None 7 (Some 7) (db (run initial one_message).1)).1
  = ChatMessages (db (run initial one_message).1)
  ∧ isProjectMember
      (deleteProject (Some 2%nat) 7 (Some 7)
         (db (run initial one_message).1)).1 7 7 = None.
Proof.
  split.
  - apply (delete_project_locks_chat None 7 (Some 7)
             (db (run initial one_message).1) (mkProject 7 7));
      reflexivity.
  - apply (delete_project_locks_chat (Some 2%nat) 7 (Some 7)
             (db (run initial one_message).1) (mkProject 7 7));
      [reflexivity|reflexivity|discriminate|discriminate].
Defined.

(** ** Errors, rooms and connections *)

Section Emits.

Lemma clear_no_error projectId userId s t message :
  (t, error message) ∉ (clearTypingIndicator projectId userId s).2.
Proof.
  rewrite emits_clear. case_match.
  - by intros [=]%list_elem_of_singleton.
  - apply not_elem_of_nil.
Qed.

Lemma unicast_elem sid message t p :
  (t, p) ∈ unicast sid message → t = socket_emit sid.
Proof. by intros [= -> _]%list_elem_of_singleton. Qed.

Lemma on_send_message_errors f now sid projectId senderId senderName
    messageContent replyToMessageId replyToUserId s t message :
  (t, error message)
    ∈ (on_send_message f now sid projectId senderId senderName messageContent
         replyToMessageId replyToUserId s).2 →
  t = socket_emit sid.
Proof.
  unfold on_send_message.
  destruct (rateLimit (userMessageRateLimit s) senderId now) as [[] rl];
    [|apply unicast_elem].
  destruct (validate messageContent); [apply unicast_elem..|].
  destruct (member_err f); [apply unicast_elem|]. simpl.
  destruct (isProjectMember (db s) projectId senderId); [|apply unicast_elem].
  destruct (truthyId replyToMessageId && read_err f); [apply unicast_elem|].
  destruct (replySnapshot (db s) replyToMessageId) as [rn rc].
  destruct (write_err f); [apply unicast_elem|].
  destruct (fetch_err f); [by intros ?%not_elem_of_nil|].
  match goal with
  | |- context [clearTypingIndicator ?p ?u ?x] =>
      pose proof (clear_no_error p u x t message) as Hno;
      destruct (clearTypingIndicator p u x) as [s3 out]
  end.
  simpl in *. by intros [[=]|?]%elem_of_cons.
Qed.

End Emits.

(** X11. Every [error] event the event loop emits goes to the connection
    the event came from and to nobody else: it is never sent to a room. Only
    joins, sends, edits and deletes are answered with errors; timers,
    connections, disconnects, typing signals and statements emit none. *)
Theorem errors_are_unicast (s : State) (f : faults) (now : Z) (e : event)
    (t : target) (message : string) :
  (t, error message) ∈ (step s (f, now, e)).2 →
  ∃ sid, origin e = Some sid ∧ t = socket_emit sid
         ∧ recipients (sockets (step s (f, now, e)).1) t = {[sid]}
         ∧ match e with
           | join_project_chat _ _ _ _ | send_message _ _ _ _ _ _ _
           | edit_message _ _ _ _ | delete_message _ _ _ => True
           | _ => False
           end.
Proof.
  intros H.
  assert (∀ sid, t = socket_emit sid →
                 recipients (sockets (step s (f, now, e)).1) t = {[sid]})
    as Hrec by (by intros sid ->).
  unfold step in H. destruct e; simpl in H.
  - unfold on_connection in H. repeat case_match;
      by apply not_elem_of_nil in H.
  - exists sid. destruct (sockets s !! sid); [|by apply not_elem_of_nil in H].
    assert (t = socket_emit sid) as Ht.
    { unfold on_join_project_chat in H.
      repeat case_match; try by apply unicast_elem in H.
      by apply list_elem_of_singleton in H as [=]. }
    by auto.
  - exists sid. destruct (sockets s !! sid); [|by apply not_elem_of_nil in H].
    apply on_send_message_errors in H. by auto.
  - destruct (sockets s !! sid); [|by apply not_elem_of_nil in H].
    rewrite emits_typing in H.
    apply elem_of_app in H as [H|[=]%list_elem_of_singleton].
    by apply clear_no_error in H.
  - destruct (sockets s !! sid); [|by apply not_elem_of_nil in H].
    by apply clear_no_error in H.
  - exists sid. destruct (sockets s !! sid); [|by apply not_elem_of_nil in H].
    assert (t = socket_emit sid) as Ht.
    { unfold on_edit_message in H.
      repeat case_match; try by apply unicast_elem in H.
      + by apply not_elem_of_nil in H.
      + by apply list_elem_of_singleton in H as [=]. }
    by auto.
  - exists sid. destruct (sockets s !! sid); [|by apply not_elem_of_nil in H].
    assert (t = socket_emit sid) as Ht.
    { unfold on_delete_message in H.
      repeat case_match; try by apply unicast_elem in H.
      by apply list_elem_of_singleton in H as [=]. }
    by auto.
  - destruct (sockets s !! sid) eqn:Hs; [|by apply not_elem_of_nil in H].
    unfold on_disconnect in H. rewrite Hs in H.
    destruct (truthyId (sk_projectId s0) && truthyId (sk_userId s0));
      [|by apply not_elem_of_nil in H].
    rewrite clear_withSockets in H. simpl in H.
    apply elem_of_app in H as [H|[=]%list_elem_of_singleton].
    by apply clear_no_error in H.
  - unfold on_timer in H. repeat case_match;
      try by apply not_elem_of_nil in H.
    by apply clear_no_error in H.
  - by apply not_elem_of_nil in H.
Qed.

Lemma errors_are_unicast_witness :
  ∃ sid, origin (send_message 1 7 8 (of_string "B") (txt "x") None None)
         = Some sid
         ∧ socket_emit 1 = socket_emit sid.
Proof.
  destruct (errors_are_unicast (run initial member_joined).1 no_faults 1000
              (send_message 1 7 8 (of_string "B") (txt "x") None None)
              (socket_emit 1)
              "You must be a project member to send messages")
    as (sid & Ho & Ht & _).
  - vm_compute. left.
  - exists sid. by split.
Defined.

(** ** The rate limiter over time *)

Section RateInvariant.

Lemma rateLimit_bounds (m : gmap Z RateData) senderId now :
  (∀ k d, m !! k = Some d → 1 ≤ count d ≤ MAX_MESSAGES_PER_WINDOW) →
  ∀ k d, (rateLimit m senderId now).2 !! k = Some d →
         1 ≤ count d ≤ MAX_MESSAGES_PER_WINDOW.
Proof.
  intros Hm k d. unfold rateLimit.
  destruct (m !! senderId) as [w|] eqn:Hw.
  - pose proof (Hm _ _ Hw) as Hb.
    destruct (now - timestamp w <? RATE_LIMIT_WINDOW).
    + unfold Z.geb.
      destruct (Z.compare_spec (count w) MAX_MESSAGES_PER_WINDOW);
        simpl; [apply Hm| |apply Hm].
      destruct (decide (k = senderId)) as [->|Hne].
      * rewrite lookup_insert_eq. intros [= <-]. simpl. lia.
      * rewrite lookup_insert_ne by done. apply Hm.
    + simpl. destruct (decide (k = senderId)) as [->|Hne].
      * rewrite lookup_insert_eq. by intros [= <-].
      * rewrite lookup_insert_ne by done. apply Hm.
  - simpl. destruct (decide (k = senderId)) as [->|Hne].
    + rewrite lookup_insert_eq. by intros [= <-].
    + rewrite lookup_insert_ne by done. apply Hm.
Qed.

(** The limiter removes no window. *)
Lemma rateLimit_keeps (m : gmap Z RateData) senderId now k :
  is_Some (m !! k) → is_Some ((rateLimit m senderId now).2 !! k).
Proof.
  intros Hk. unfold rateLimit.
  destruct (m !! senderId) as [w|] eqn:Hw.
  - destruct (now - timestamp w <? RATE_LIMIT_WINDOW).
    + destruct (count w >=? MAX_MESSAGES_PER_WINDOW); simpl; [done|].
      destruct (decide (k = senderId)) as [->|Hne].
      * by rewrite lookup_insert_eq.
      * by rewrite lookup_insert_ne.
    + simpl. destruct (decide (k = senderId)) as [->|Hne].
      * by rewrite lookup_insert_eq.
      * by rewrite lookup_insert_ne.
  - simpl. destruct (decide (k = senderId)) as [->|Hne].
    + by rewrite lookup_insert_eq.
    + by rewrite lookup_insert_ne.
Qed.

(** A turn of the event loop leaves the windows alone or runs the limiter
    once. *)
Lemma step_rateLimit s i :
  userMessageRateLimit (step s i).1 = userMessageRateLimit s
  ∨ ∃ senderId,
      userMessageRateLimit (step s i).1
      = (rateLimit (userMessageRateLimit s) senderId i.1.2).2.
Proof.
  destruct i as [[f now] e]. unfold step. simpl.
  destruct (origin e) as [sid|];
    [destruct (sockets s !! sid) as [sock|]; [|by left]|];
    destruct e; simpl.
  all: first
    [ right; eexists; apply on_send_message_rateLimit
    | left;
      first
        [ by pose proof (clearTypingIndicator_frame projectId userId s)
            as (? & _)
        | unfold on_typing;
          pose proof (clearTypingIndicator_frame projectId userId s)
            as (? & _);
          by destruct (clearTypingIndicator projectId userId s)
        | unfold on_connection, on_join_project_chat, on_edit_message,
            on_delete_message; by repeat case_match
        | unfold on_disconnect; repeat case_match; try done;
          match goal with
          | H : clearTypingIndicator ?p ?u _ = _ |- _ =>
              rewrite clear_withSockets in H; injection H as <- _;
              by pose proof (clearTypingIndicator_frame p u s) as (? & _)
          end
        | unfold on_timer; repeat case_match; try done;
          match goal with
          | |- _ (clearTypingIndicator ?p ?u ?x).1 = _ =>
              by pose proof (clearTypingIndicator_frame p u x) as (-> & _)
          end
        | done ] ].
Qed.

End RateInvariant.

(** X12. In every state the server reaches, each sender's window holds a
    count between 1 and 5: a window is opened by an admitted send and the
    count is raised only below 5. No event removes a window: a sender who
    has one keeps one whatever comes, so the map of windows only grows. *)
Theorem window_counts_bounded (s : State) :
  reachable s →
  (∀ senderId w,
     userMessageRateLimit s !! senderId = Some w → 1 ≤ count w ≤ 5)
  ∧ (∀ inputs senderId,
       is_Some (userMessageRateLimit s !! senderId) →
       is_Some (userMessageRateLimit (run s inputs).1 !! senderId)).
Proof.
  intros [inputs <-]. split.
  - assert (∀ k d, userMessageRateLimit initial !! k = Some d →
                   1 ≤ count d ≤ MAX_MESSAGES_PER_WINDOW) as Hinit.
    { intros k d H. change (userMessageRateLimit initial)
        with (∅ : gmap Z RateData) in H. by rewrite lookup_empty in H. }
    revert Hinit. generalize initial.
    induction inputs as [|i inputs IH]; intros s Hs; [exact Hs|].
    simpl.
    assert (∀ k d, userMessageRateLimit (step s i).1 !! k = Some d →
                   1 ≤ count d ≤ MAX_MESSAGES_PER_WINDOW) as H1.
    { destruct (step_rateLimit s i) as [->|[u ->]]; [done|].
      by apply rateLimit_bounds. }
    destruct (step s i) as [s1 out1]. specialize (IH s1 H1).
    by destruct (run s1 inputs).
  - generalize (run initial inputs).1. intros s inputs'.
    revert s. induction inputs' as [|i inputs' IH]; intros s k Hk; [done|].
    simpl.
    assert (is_Some (userMessageRateLimit (step s i).1 !! k)) as H1.
    { destruct (step_rateLimit s i) as [->|[u ->]]; [done|].
      by apply rateLimit_keeps. }
    destruct (step s i) as [s1 out1]. specialize (IH s1 k H1).
    by destruct (run s1 inputs').
Qed.

Lemma window_counts_bounded_witness :
  1 ≤ count (mkRateData 5 1000) ≤ 5.
Proof.
  apply (proj1 (window_counts_bounded (run initial five_sends).1
                  (ex_intro _ five_sends eq_refl)) 7).
  vm_compute. reflexivity.
Defined.

(** ** Rooms and connections *)

Section Sockets.

(** What a turn of the event loop does to the connection table. *)
Lemma step_sockets s f now e :
  sockets (step s (f, now, e)).1 = sockets s
  ∨ (∃ sid, e = connection sid ∧ sockets s !! sid = None
            ∧ sockets (step s (f, now, e)).1
              = <[sid := mkSocket ∅ None None None]> (sockets s))
  ∨ (∃ sid projectId userId userName,
       e = join_project_chat sid projectId userId userName
       ∧ is_Some (isProjectMember (db s) projectId userId)
       ∧ sockets (step s (f, now, e)).1
         = alter (joined projectId userId userName) sid (sockets s))
  ∨ (∃ sid, e = disconnect sid
            ∧ sockets (step s (f, now, e)).1 = delete sid (sockets s)).
Proof.
  unfold step. destruct e; simpl.
  - unfold on_connection. destruct (sockets s !! sid) eqn:Hs; [by left|].
    right; left. by exists sid.
  - destruct (sockets s !! sid); [|by left].
    unfold on_join_project_chat. destruct (member_err f); [by left|].
    destruct (isProjectMember (db s) projectId userId) eqn:Hm; [|by left].
    right; right; left. by eexists _, _, _, _.
  - destruct (sockets s !! sid); [|by left].
    left. apply on_send_message_sockets.
  - destruct (sockets s !! sid); [|by left]. left. unfold on_typing.
    pose proof (clearTypingIndicator_frame projectId userId s) as (_&_&?&_).
    by destruct (clearTypingIndicator projectId userId s).
  - destruct (sockets s !! sid); [|by left]. left.
    by pose proof (clearTypingIndicator_frame projectId userId s)
      as (_&_&?&_).
  - destruct (sockets s !! sid); [|by left]. left.
    unfold on_edit_message. by repeat case_match.
  - destruct (sockets s !! sid); [|by left]. left.
    unfold on_delete_message. by repeat case_match.
  - destruct (sockets s !! sid) eqn:Hs; [|by left].
    right; right; right. exists sid. split; [done|].
    unfold on_disconnect. rewrite Hs.
    destruct (truthyId (sk_projectId s0) && truthyId (sk_userId s0));
      [|done].
    by rewrite clear_withSockets.
  - left. unfold on_timer. repeat case_match; try done.
    match goal with
    | |- _ (clearTypingIndicator ?p ?u ?x).1 = _ =>
        by pose proof (clearTypingIndicator_frame p u x) as (_&_&->&_)
    end.
  - by left.
Qed.

End Sockets.

(** X13. Nothing but its own disconnect takes a connection out of a room:
    whatever event, timer or statement comes (a change of the membership
    tables included) and whatever HTTP request is served (a rejection, the
    deletion of the project), a connection that is in a room is still in it
    afterwards and is still among the recipients of the room's broadcasts.
    A second join adds a room and keeps the rooms joined before. *)
Theorem joined_rooms_persist (s : State) (sid room : Z) :
  sid ∈ inRoom (sockets s) room →
  (∀ f now e,
     e ≠ disconnect sid →
     sid ∈ inRoom (sockets (step s (f, now, e)).1) room
     ∧ sid ∈ recipients (sockets (step s (f, now, e)).1) (io_to room))
  ∧ (∀ f now r, sockets (serve1 s (web f now r)) = sockets s)
  ∧ (∀ f now projectId userId userName,
       is_Some (isProjectMember (db s) projectId userId) →
       member_err f = false →
       let s' := (step s (f, now,
                          join_project_chat sid projectId userId userName)).1
       in
       sid ∈ inRoom (sockets s') room ∧ sid ∈ inRoom (sockets s') projectId).
Proof.
  intros Hin. apply elem_of_inRoom in Hin as (sock & Hs & Hroom).
  assert (∀ f now e,
            e ≠ disconnect sid →
            sid ∈ inRoom (sockets (step s (f, now, e)).1) room) as Hstep.
  { intros f now e Hne. apply elem_of_inRoom.
    destruct (step_sockets s f now e)
      as [->|[(x & -> & Hx & ->)|[(x & p & u & n & -> & _ & ->)
                                  |(x & -> & ->)]]].
    - by exists sock.
    - exists sock. split; [|done]. rewrite lookup_insert_ne; [done|].
      intros ->. congruence.
    - destruct (decide (x = sid)) as [->|Hx].
      + exists (joined p u n sock). rewrite lookup_alter_eq, Hs.
        split; [done|]. simpl. set_solver.
      + exists sock. by rewrite lookup_alter_ne.
    - exists sock. split; [|done]. rewrite lookup_delete_ne; [done|].
      intros ->. by destruct Hne. }
  split; [|split].
  - intros f now e Hne. split; by apply Hstep.
  - done.
  - intros f now p u n [mem Hmem] Hf s'. split; [by apply Hstep|].
    subst s'. unfold step. simpl. rewrite Hs.
    unfold on_join_project_chat. rewrite Hf, Hmem. simpl.
    apply elem_of_inRoom. exists (joined p u n sock).
    rewrite lookup_alter_eq, Hs. split; [done|]. simpl. set_solver.
Qed.

Lemma joined_rooms_persist_witness :
  1 ∈ inRoom
        (sockets
           (step (run initial member_joined).1
              (no_faults, 5000, http (SetMembership [] []))).1) 7.
Proof.
  apply (joined_rooms_persist (run initial member_joined).1 1 7).
  - apply elem_of_inRoom. eexists. split; [by vm_compute|]. by vm_compute.
  - discriminate.
Defined.



Section Stamps.



End Stamps.



(** ** Typing entries *)

Section Tidy.

Lemma clear_absent projectId userId s :
  typingTimer s projectId userId = None →
  clearTypingIndicator projectId userId s = (s, []).
Proof.
  unfold typingTimer, clearTypingIndicator.
  destruct (typingUsers s !! projectId) as [inner|]; simpl; [|done].
  by intros ->.
Qed.

Lemma clear_tidy projectId userId s :
  typing_tidy s → typing_tidy (clearTypingIndicator projectId userId s).1.
Proof.
  intros Ht. unfold clearTypingIndicator.
  destruct (typingUsers s !! projectId) as [inner|] eqn:Hp; [|done].
  destruct (inner !! userId) as [t|]; [|done]. simpl.
  intros p m. simpl. case_decide as Hsize.
  - intros [_ H]%lookup_delete_Some. by eapply Ht.
  - destruct (decide (p = projectId)) as [->|Hne].
    + rewrite lookup_insert_eq. intros [= <-].
      by intros E%map_size_empty_iff.
    + rewrite lookup_insert_ne by done. apply Ht.
Qed.

Lemma typing_tidy_typing now sid projectId userId userName s :
  typing_tidy s →
  typing_tidy (on_typing now sid projectId userId userName s).1.
Proof.
  intros Ht. unfold on_typing.
  pose proof (clear_tidy projectId userId s Ht) as H1.
  destruct (clearTypingIndicator projectId userId s) as [s1 out].
  simpl in *. intros p m. simpl.
  destruct (decide (p = projectId)) as [->|Hne].
  - rewrite lookup_insert_eq. intros [= <-]. apply insert_non_empty.
  - rewrite lookup_insert_ne by done.
    destruct (typingUsers s1 !! projectId); [apply H1|].
    rewrite lookup_insert_ne by done. apply H1.
Qed.

Lemma step_tidy s i : typing_tidy s → typing_tidy (step s i).1.
Proof.
  intros Ht. destruct i as [[f now] e]. unfold step.
  destruct (origin e) as [sid|] eqn:Ho;
    [destruct (sockets s !! sid) as [sock|] eqn:Hs; [|done]|];
    destruct e; try done; simpl.
  - unfold on_join_project_chat. by repeat case_match.
  - destruct (on_send_message_presence f now sid0 projectId senderId
                senderName messageContent replyToMessageId replyToUserId s)
      as [(E&_&_)|(E&_&_)]; intros p m; rewrite E.
    + apply Ht.
    + by apply clear_tidy.
  - by apply typing_tidy_typing.
  - by apply clear_tidy.
  - unfold on_edit_message. by repeat case_match.
  - unfold on_delete_message. by repeat case_match.
  - unfold on_disconnect. repeat case_match; try done.
    match goal with
    | H : clearTypingIndicator ?p ?u _ = _ |- _ =>
        rewrite clear_withSockets in H; injection H as <- _;
        apply (clear_tidy p u s Ht)
    end.
  - unfold on_connection. by repeat case_match.
  - unfold on_timer. repeat case_match; try done. by apply clear_tidy.
Qed.

Lemma run_tidy inputs : ∀ s, typing_tidy s → typing_tidy (run s inputs).1.
Proof.
  induction inputs as [|i inputs IH]; intros s Ht; [done|].
  simpl. pose proof (step_tidy s i Ht) as H1.
  destruct (step s i) as [s1 out1]. specialize (IH s1 H1).
  destruct (run s1 inputs). exact IH.
Qed.

End Tidy.

(** X16. Clearing is idempotent and local: a clear of a pair that has no
    typing entry (a stop-typing from a user who is not typing, a second
    clear) changes nothing and emits nothing, and a clear never touches the
    entry of another pair. *)
Theorem clear_is_idempotent (s : State) (projectId userId : Z) :
  clearTypingIndicator projectId userId
    (clearTypingIndicator projectId userId s).1
  = ((clearTypingIndicator projectId userId s).1, [])
  ∧ (typingTimer s projectId userId = None →
     on_stop_typing projectId userId s = (s, []))
  ∧ (∀ p u, ¬ (p = projectId ∧ u = userId) →
            typingTimer (clearTypingIndicator projectId userId s).1 p u
            = typingTimer s p u)
  ∧ (∀ t, typingTimer s projectId userId ≠ Some t →
          pending (clearTypingIndicator projectId userId s).1 !! t
          = pending s !! t).
Proof.
  split; [|split; [|split]].
  - apply clear_absent. rewrite typingTimer_clear. by rewrite decide_True.
  - apply clear_absent.
  - intros p u Hne. rewrite typingTimer_clear. by rewrite decide_False.
  - intros t Ht. rewrite pending_clear.
    destruct (typingTimer s projectId userId) as [t0|]; [|done].
    apply lookup_delete_ne. congruence.
Qed.

Lemma clear_is_idempotent_witness :
  on_stop_typing 7 8 (run initial typing_once).1
  = ((run initial typing_once).1, []).
Proof.
  apply (proj1 (proj2 (clear_is_idempotent (run initial typing_once).1 7 8))).
  vm_compute. reflexivity.
Defined.

(** X17. The map of typing users stays tidy: in every state the server
    reaches no project is left with an empty map, so a project has an entry
    in [typingUsers] exactly when some user is typing in it. *)
Theorem typing_map_tidy (s : State) :
  reachable s →
  typing_tidy s
  ∧ ∀ projectId,
      is_Some (typingUsers s !! projectId)
      ↔ ∃ userId, is_Some (typingTimer s projectId userId).
Proof.
  intros [inputs <-].
  assert (typing_tidy (run initial inputs).1) as Ht.
  { apply run_tidy. intros p m H.
    change (typingUsers initial) with (∅ : gmap Z (gmap Z Z)) in H.
    by rewrite lookup_empty in H. }
  split; [done|]. intros p. unfold typingTimer. split.
  - intros [m Hm]. rewrite Hm. simpl.
    destruct (map_choose m (Ht _ _ Hm)) as (u & t & Hu). exists u. eauto.
  - intros (u & t & H).
    destruct (typingUsers (run initial inputs).1 !! p); [eauto|done].
Qed.

Lemma typing_map_tidy_witness :
  is_Some (typingUsers (run initial typing_once).1 !! 7)
  ↔ ∃ userId, is_Some (typingTimer (run initial typing_once).1 7 userId).
Proof.
  apply (typing_map_tidy (run initial typing_once).1).
  exists typing_once. reflexivity.
Defined.

(** ** Pages of the history *)

Section Pages.

Implicit Types (d : Db).

(** The whole live history of a project: a negative limit is no limit. *)
Lemma listPage_window d projectId limit offset :
  0 ≤ limit →
  listPage d projectId limit offset
  = take (Z.to_nat limit)
      (drop (Z.to_nat offset) (listPage d projectId (-1) 0)).
Proof.
  intros Hl. unfold listPage, limitOffset. simpl.
  destruct (Z.ltb_spec limit 0); [lia|]. by rewrite drop_0.
Qed.

Lemma listPage_all_perm d projectId :
  listPage d projectId (-1) 0
  ≡ₚ filter (λ m, cm_projectId m = projectId ∧ cm_isDeleted m = 0)
       (ChatMessages d).
Proof.
  unfold listPage, limitOffset. simpl. rewrite drop_0.
  apply merge_sort_Permutation.
Qed.

Lemma listPage_all_length d projectId :
  Z.of_nat (length (listPage d projectId (-1) 0)) = countLive d projectId.
Proof.
  unfold countLive. f_equal. apply Permutation_length, listPage_all_perm.
Qed.

Lemma pages_concat d projectId limit n :
  0 < limit →
  concat ((λ k, listPage d projectId limit (Z.of_nat k * limit)) <$> seq 0 n)
  = take (n * Z.to_nat limit) (listPage d projectId (-1) 0).
Proof.
  intros Hl. induction n as [|n IH]; [done|].
  rewrite seq_S, fmap_app, concat_app, IH. simpl. rewrite app_nil_r.
  rewrite (listPage_window d projectId limit) by lia.
  rewrite Z2Nat.inj_mul, Nat2Z.id by lia.
  rewrite take_take_drop. f_equal. simpl. lia.
Qed.

End Pages.

(** X18. The pages of [getChatHistory] partition the live history of a
    project: with a positive limit, pages 1 to n laid end to end are the
    first n times limit messages of the history in creation order, and the
    whole of it once n pages cover the total. The whole history holds each
    live message of the project once and no other row. A member's request
    is answered 200 with the page, the total and the page count. *)
Theorem history_pages_partition (d : Db) (projectId limit : Z) (n : nat) :
  0 < limit →
  concat ((λ k, listPage d projectId limit (Z.of_nat k * limit)) <$> seq 0 n)
  = take (n * Z.to_nat limit) (listPage d projectId (-1) 0)
  ∧ (countLive d projectId ≤ Z.of_nat n * limit →
     concat ((λ k, listPage d projectId limit (Z.of_nat k * limit))
               <$> seq 0 n)
     = listPage d projectId (-1) 0)
  ∧ listPage d projectId (-1) 0
    ≡ₚ filter (λ m, cm_projectId m = projectId ∧ cm_isDeleted m = 0)
         (ChatMessages d)
  ∧ (∀ userId page,
       is_Some (isProjectMember d projectId userId) →
       getChatHistory no_faults d projectId (Some userId) (Some page)
         (Some limit)
       = (200, historyPage
                 (listPage d projectId limit ((page - 1) * limit))
                 page limit (countLive d projectId)
                 (totalPages (countLive d projectId) limit))).
Proof.
  intros Hl. split; [by apply pages_concat|]. split; [|split].
  - intros Hcover. rewrite pages_concat by done. apply take_ge.
    pose proof (listPage_all_length d projectId). nia.
  - apply listPage_all_perm.
  - intros u page [mem Hmem]. unfold getChatHistory. simpl. by rewrite Hmem.
Qed.

Lemma history_pages_partition_witness :
  concat ((λ k, listPage (db (run initial five_sends).1) 7 2
                  (Z.of_nat k * 2)) <$> seq 0 3)
  = listPage (db (run initial five_sends).1) 7 (-1) 0.
Proof.
  apply (history_pages_partition (db (run initial five_sends).1) 7 2 3).
  - lia.
  - vm_compute. discriminate.
Defined.

(** X19. The page count [getChatHistory] reports is exact: with a positive
    limit it is the least number of pages that cover the total, every page
    from 1 up to it holds at least one message and at most [limit], and
    every page after it is empty. With limit 0 the count is null and every
    page is empty. *)
Theorem total_pages_exact (d : Db) (projectId limit : Z) :
  (0 < limit →
   ∃ pages,
     totalPages (countLive d projectId) limit = Some pages
     ∧ 0 ≤ pages
     ∧ (pages - 1) * limit < countLive d projectId ≤ pages * limit
     ∧ (∀ page, 1 ≤ page ≤ pages →
                listPage d projectId limit ((page - 1) * limit) ≠ [])
     ∧ (∀ page, pages < page →
                listPage d projectId limit ((page - 1) * limit) = [])
     ∧ (∀ offset,
          Z.of_nat (length (listPage d projectId limit offset)) ≤ limit))
  ∧ (limit = 0 →
     totalPages (countLive d projectId) limit = None
     ∧ ∀ offset, listPage d projectId limit offset = []).
Proof.
  split.
  - intros Hl. unfold totalPages.
    destruct (Z.eqb_spec limit 0) as [|_]; [lia|].
    eexists. split; [done|].
    pose proof (listPage_all_length d projectId) as Hlen.
    set (total := countLive d projectId) in *.
    assert (0 ≤ total) as Htot by lia.
    pose proof (Z.div_mod (- total) limit ltac:(lia)) as Hdm.
    pose proof (Z.mod_pos_bound (- total) limit Hl) as Hmod.
    set (q := (- total) `div` limit) in *.
    set (r := (- total) `mod` limit) in *.
    split; [nia|]. split; [nia|]. split; [|split].
    + intros page Hpage. rewrite (listPage_window d projectId limit) by lia.
      assert ((Z.to_nat ((page - 1) * limit)
               < length (listPage d projectId (-1) 0))%nat) as Hlt by nia.
      destruct (drop _ (listPage d projectId (-1) 0)) as [|x l] eqn:E.
      * apply (f_equal length) in E. rewrite length_drop in E.
        simpl in E. lia.
      * destruct (Z.to_nat limit) eqn:En; [lia|done].
    + intros page Hpage. rewrite (listPage_window d projectId limit) by lia.
      rewrite drop_ge; [apply take_nil|]. nia.
    + intros offset. rewrite (listPage_window d projectId limit) by lia.
      rewrite length_take. lia.
  - intros ->. split; [done|]. intros offset.
    by rewrite (listPage_window d projectId 0).
Qed.

Lemma total_pages_exact_witness :
  ∃ pages,
    totalPages (countLive (db (run initial five_sends).1) 7) 2 = Some pages
    ∧ 0 ≤ pages.
Proof.
  destruct (total_pages_exact (db (run initial five_sends).1) 7 2)
    as [H _].
  destruct (H ltac:(lia)) as (pages & Hp & H0 & _).
  exists pages. by split.
Defined.

(** ** The two paths of edit and delete *)

(** X20. The socket handlers [edit-message] and [delete-message] and the
    HTTP controllers [editMessage] and [deleteMessage] are the same store
    paths: for a non-zero user id they leave the same tables whatever the
    message, the content and the database errors, and one rejects exactly
    when the other does. The socket path adds the broadcast, the HTTP path
    the answer. *)
Theorem edit_delete_paths_agree (s : State) (f : faults)
    (now sid messageId userId : Z) (messageContent : value) :
  userId ≠ 0 →
  db (on_edit_message f now sid messageId userId messageContent s).1
  = (editMessage f now messageId (Some userId) messageContent (db s)).1
  ∧ db (on_delete_message f now sid messageId userId s).1
    = (deleteMessage f now messageId (Some userId) (db s)).1
  ∧ ((∃ message,
        (on_delete_message f now sid messageId userId s).2
        = unicast sid message)
     ↔ (deleteMessage f now messageId (Some userId) (db s)).2
       ≠ Responded 200 "Message deleted successfully" None).
Proof.
  intros Hu.
  assert (truthyId (Some userId) = true) as Tu
    by (simpl; by destruct (Z.eqb_spec userId 0)).
  split; [|split].
  - unfold on_edit_message, editMessage, validate. rewrite Tu. simpl.
    destruct messageContent as [| |n|x]; simpl; try done.
    { by destruct (negb (n =? 0)). }
    destruct (bool_decide (x = [])); simpl; [done|].
    destruct (decide (trim x = [])); [done|].
    destruct (read_err f); [done|].
    destruct (selectLive (db s) messageId) as [message|]; [|done].
    destruct (decide (cm_senderId message ≠ userId)); [done|].
    destruct (write_err f); [done|]. by destruct (fetch_err f).
  - unfold on_delete_message, deleteMessage. rewrite Tu. simpl.
    destruct (read_err f); [done|].
    destruct (selectLive (db s) messageId) as [message|]; [|done].
    destruct (decide (cm_senderId message ≠ userId)); [done|].
    by destruct (write_err f).
  - unfold on_delete_message, deleteMessage. rewrite Tu. simpl.
    destruct (read_err f); [split; [done|by eexists]|].
    destruct (selectLive (db s) messageId) as [message|];
      [|split; [done|by eexists]].
    destruct (decide (cm_senderId message ≠ userId));
      [split; [done|by eexists]|].
    destruct (write_err f); [split; [done|by eexists]|].
    simpl. split; [by intros [? [=]]|done].
Qed.

Lemma edit_delete_paths_agree_witness :
  db (on_delete_message no_faults 5000 1 1 7 (run initial one_message).1).1
  = (deleteMessage no_faults 5000 1 (Some 7)
       (db (run initial one_message).1)).1.
Proof.
  apply (edit_delete_paths_agree (run initial one_message).1 no_faults 5000 1
           1 7 Undefined).
  lia.
Defined.

(** ** Bursts across two windows *)

Section Burst.

(** Inside the running window at most the rest of its capacity is
    admitted. *)
Lemma admitted_window times : ∀ (m : gmap Z RateData) senderId c t0,
  m !! senderId = Some (mkRateData c t0) →
  c ≤ MAX_MESSAGES_PER_WINDOW →
  Forall (λ t, t - t0 < RATE_LIMIT_WINDOW) times →
  Z.of_nat (admitted (rateLimitAll m senderId times).1)
  ≤ MAX_MESSAGES_PER_WINDOW - c.
Proof.
  induction times as [|t times IH]; intros m senderId c t0 Hm Hc Hall.
  - simpl. lia.
  - apply Forall_cons in Hall as [Ht Hall]. simpl.
    destruct (decide (c < MAX_MESSAGES_PER_WINDOW)) as [Hlt|Hge].
    + rewrite (rateLimit_within_below _ _ _ _ Hm) by done. simpl.
      specialize (IH (<[senderId := mkRateData (c + 1) t0]> m) senderId
                     (c + 1) t0).
      rewrite lookup_insert_eq in IH.
      specialize (IH eq_refl ltac:(lia) Hall).
      destruct (rateLimitAll _ senderId times) as [l m'']. simpl in *. lia.
    + rewrite (rateLimit_within_full _ _ _ _ Hm) by (simpl; lia). simpl.
      specialize (IH m senderId c t0 Hm Hc Hall).
      destruct (rateLimitAll m senderId times) as [l m'']. simpl in *. lia.
Qed.

(** Sends less than a window apart meet at most one reset: the rest of the
    running window and one full window are admitted, no more. *)
Lemma admitted_span times : ∀ (m : gmap Z RateData) senderId a,
  (∀ d, m !! senderId = Some d → count d ≤ MAX_MESSAGES_PER_WINDOW) →
  Forall (λ t, a ≤ t < a + RATE_LIMIT_WINDOW) times →
  Z.of_nat (admitted (rateLimitAll m senderId times).1)
  ≤ match m !! senderId with
    | Some d => MAX_MESSAGES_PER_WINDOW - count d + MAX_MESSAGES_PER_WINDOW
    | None => MAX_MESSAGES_PER_WINDOW
    end.
Proof.
  induction times as [|t times IH]; intros m senderId a Hwf Hall.
  - simpl. destruct (m !! senderId) as [d|] eqn:Hm.
    + specialize (Hwf d eq_refl). unfold MAX_MESSAGES_PER_WINDOW in *. lia.
    + done.
  - apply Forall_cons in Hall as [Ht Hall].
    assert (Forall (λ t', t' - t < RATE_LIMIT_WINDOW) times) as Hrest.
    { eapply Forall_impl; [exact Hall|]. simpl. intros t' Ht'. lia. }
    assert (∀ m', m' = <[senderId := mkRateData 1 t]> m →
              Z.of_nat (admitted (rateLimitAll m' senderId times).1)
              ≤ MAX_MESSAGES_PER_WINDOW - 1) as Hreset.
    { intros m' ->.
      apply (admitted_window times _ senderId 1 t); [|done|done].
      apply lookup_insert_eq. }
    simpl. destruct (m !! senderId) as [d|] eqn:Hm.
    + pose proof (Hwf d eq_refl) as Hd.
      destruct (decide (t - timestamp d < RATE_LIMIT_WINDOW)) as [Hin|Hout].
      * destruct (decide (count d < MAX_MESSAGES_PER_WINDOW)) as [Hlt|Hge].
        -- rewrite (rateLimit_within_below _ _ _ _ Hm) by done.
           specialize (IH (<[senderId := mkRateData (count d + 1)
                                           (timestamp d)]> m) senderId a).
           rewrite lookup_insert_eq in IH. simpl in IH.
           specialize (IH ltac:(intros ? [= <-]; simpl; lia) Hall).
           destruct (rateLimitAll _ senderId times) as [l m'']. simpl in *.
           lia.
        -- rewrite (rateLimit_within_full _ _ _ _ Hm) by lia.
           assert (∀ d0, m !! senderId = Some d0 →
                         count d0 ≤ MAX_MESSAGES_PER_WINDOW) as Hwf'.
           { intros d0 Hd0. rewrite Hm in Hd0. by apply Hwf. }
           specialize (IH m senderId a Hwf' Hall). rewrite Hm in IH.
           destruct (rateLimitAll m senderId times) as [l m'']. simpl in *.
           lia.
      * rewrite (rateLimit_elapsed _ _ _ _ Hm) by lia.
        specialize (Hreset _ eq_refl).
        destruct (rateLimitAll _ senderId times) as [l m'']. simpl in *.
        unfold MAX_MESSAGES_PER_WINDOW in *. lia.
    + rewrite (rateLimit_no_window _ _ _ Hm).
      specialize (Hreset _ eq_refl).
      destruct (rateLimitAll _ senderId times) as [l m'']. simpl in *.
      unfold MAX_MESSAGES_PER_WINDOW in *. lia.
Qed.

End Burst.

(** X21. The window is fixed, not sliding: of the sends of one sender that
    fall between two moments less than 10 seconds apart, the limiter admits
    at most 9 in any state the server reaches, the rest of the running
    window and the whole of the next one, and at most 5 for a sender who has
    no window yet. Nine are reached: four sends at the end of a window that
    holds one send and five at the start of the next. *)
Theorem burst_admits_at_most_nine (s : State) (senderId a : Z)
    (times : list Z) :
  reachable s →
  Forall (λ t, a ≤ t < a + 10000) times →
  (admitted (rateLimitAll (userMessageRateLimit s) senderId times).1 ≤ 9)%nat
  ∧ (userMessageRateLimit s !! senderId = None →
     (admitted (rateLimitAll (userMessageRateLimit s) senderId times).1
      ≤ 5)%nat)
  ∧ admitted
      (rateLimitAll (<[senderId := mkRateData 1 (a - 9996)]> ∅) senderId
         ((λ k, a + k) <$> [0; 1; 2; 3; 4; 5; 6; 7; 8])).1
    = 9%nat.
Proof.
  intros Hs Hall.
  assert (∀ d, userMessageRateLimit s !! senderId = Some d →
               1 ≤ count d ≤ MAX_MESSAGES_PER_WINDOW) as Hwf.
  { destruct Hs as [inputs <-].
    assert (∀ k d, userMessageRateLimit initial !! k = Some d →
                   1 ≤ count d ≤ MAX_MESSAGES_PER_WINDOW) as Hinit.
    { intros k d H. change (userMessageRateLimit initial)
        with (∅ : gmap Z RateData) in H. by rewrite lookup_empty in H. }
    revert Hinit. generalize initial.
    induction inputs as [|i inputs IH]; intros s0 Hs0; [by eauto|].
    simpl.
    assert (∀ k d, userMessageRateLimit (step s0 i).1 !! k = Some d →
                   1 ≤ count d ≤ MAX_MESSAGES_PER_WINDOW) as H1.
    { destruct (step_rateLimit s0 i) as [->|[u ->]]; [done|].
      by apply rateLimit_bounds. }
    destruct (step s0 i) as [s1 out1]. specialize (IH s1 H1).
    by destruct (run s1 inputs). }
  pose proof (admitted_span times (userMessageRateLimit s) senderId a
                ltac:(intros d Hd; apply (Hwf d Hd)) Hall) as Hspan.
  split; [|split].
  - destruct (userMessageRateLimit s !! senderId) as [d|] eqn:Hm.
    + specialize (Hwf d eq_refl). unfold MAX_MESSAGES_PER_WINDOW in *. lia.
    + unfold MAX_MESSAGES_PER_WINDOW in *. lia.
  - intros Hm. rewrite Hm in Hspan. unfold MAX_MESSAGES_PER_WINDOW in *. lia.
  - csimpl. unfold rateLimit.
    repeat
      (rewrite ?lookup_insert_eq, ?insert_insert_eq; simpl;
       match goal with
       | |- context [?x <? RATE_LIMIT_WINDOW] =>
           first
             [ replace (x <? RATE_LIMIT_WINDOW) with true
                 by (symmetry; apply Z.ltb_lt;
                     unfold RATE_LIMIT_WINDOW; lia)
             | replace (x <? RATE_LIMIT_WINDOW) with false
                 by (symmetry; apply Z.ltb_ge;
                     unfold RATE_LIMIT_WINDOW; lia) ]
       end; simpl).
    reflexivity.
Qed.

Lemma burst_admits_at_most_nine_witness :
  (admitted
     (rateLimitAll (userMessageRateLimit (run initial one_message).1) 7%Z
        [10996; 10997; 10998; 10999; 11000; 11001; 11002; 11003;
         11004]%Z).1
   ≤ 9)%nat
  ∧ admitted
      (rateLimitAll (userMessageRateLimit (run initial one_message).1) 7
         [10996; 10997; 10998; 10999; 11000; 11001; 11002; 11003; 11004]).1
    = 9%nat.
Proof.
  split; [|vm_compute; reflexivity].
  apply (burst_admits_at_most_nine (run initial one_message).1 7 10996).
  - by exists one_message.
  - repeat constructor; lia.
Defined.
